(** * Virtual scroller core: the virtualization engine

  A shallow embedding of [packages/core/src/index.ts] (class [Virtualizer]),
  [geo/Anchor.ts], [geo/Rectangle.ts], the proximity zone manager and the
  small array, number, object and ratio utilities, followed by the
  properties of the engine's update cycle.

  Modelling conventions.
  - A JavaScript [number] is [JS.number]: the three special values [NaN],
    [+Infinity], [-Infinity] and the finite values, which are rationals
    ([Qc]); [-0] is identified with [0].  [Double.fl] rounds a rational to
    the binary64 format, to nearest and ties to even, with overflow to the
    infinities.
  - [roundToDevicePixelRatio] computes as the source does, with the
    rounded product and the rounded quotient of doubles.  The sums,
    differences and products of the layout ([JS.add], [JS.sub], [JS.mul])
    are exact.  A property that rests on the exactness of a sum or a
    difference is stated for layouts in whole pixels ([exactLayout]), on
    which the rounded operations of the source give the exact results
    ([exactLayout_in_doubles]); the other properties compare, select and
    count, and do not rest on it.
  - A [Map<string, number>] is a [gmap string JS.number].
  - Callbacks supplied by the host ([onChange], [onPositionUpdate], the zone
    callbacks) are opaque: calling one is recorded as an [Event] in the
    trace a method returns next to the new engine state.
  - Readings of the DOM (viewport rectangle, root element position, element
    heights) are the [Env] a method is run in. *)

From Stdlib Require Import ZArith QArith Qcanon Qround Lia Lqa.
From stdpp Require Import base numbers option list gmap strings pretty
  fin_maps.

Open Scope Z_scope.

(** ** JavaScript values *)

Module JS.

Inductive number :=
| NaN
| PInf
| NInf
| Fin (q : Qc).

#[global] Instance number_eq_dec : EqDecision number.
Proof. solve_decision. Defined.

(** [undefined | number], as read from a DOM rectangle or a [Map.get]. *)
Inductive value :=
| Undefined
| Number (n : number).

Definition zero : number := Fin 0%Qc.
Definition of_Z (z : Z) : number := Fin (Qc_of_Z z).

Inductive sign := Negative | Null | Positive.

Definition sgn (q : Qc) : sign :=
  if bool_decide (q < 0)%Qc then Negative
  else if bool_decide (q = 0)%Qc then Null else Positive.

Definition neg (x : number) : number :=
  match x with
  | NaN => NaN
  | PInf => NInf
  | NInf => PInf
  | Fin q => Fin (- q)%Qc
  end.

Definition add (x y : number) : number :=
  match x, y with
  | NaN, _ | _, NaN => NaN
  | PInf, NInf | NInf, PInf => NaN
  | PInf, _ | _, PInf => PInf
  | NInf, _ | _, NInf => NInf
  | Fin a, Fin b => Fin (a + b)%Qc
  end.

Definition sub (x y : number) : number := add x (neg y).

(** The infinity of the sign of [s], [NaN] for a null factor. *)
Definition inf_of (s : sign) : number :=
  match s with
  | Negative => NInf
  | Null => NaN
  | Positive => PInf
  end.

Definition flip (s : sign) : sign :=
  match s with
  | Negative => Positive
  | Null => Null
  | Positive => Negative
  end.

Definition mul (x y : number) : number :=
  match x, y with
  | NaN, _ | _, NaN => NaN
  | Fin a, Fin b => Fin (a * b)%Qc
  | PInf, PInf | NInf, NInf => PInf
  | PInf, NInf | NInf, PInf => NInf
  | PInf, Fin a | Fin a, PInf => inf_of (sgn a)
  | NInf, Fin a | Fin a, NInf => inf_of (flip (sgn a))
  end.

Definition div (x y : number) : number :=
  match x, y with
  | NaN, _ | _, NaN => NaN
  | Fin a, Fin b =>
      if bool_decide (b = 0)%Qc then inf_of (sgn a) else Fin (a / b)%Qc
  | Fin _, (PInf | NInf) => zero
  | (PInf | NInf), (PInf | NInf) => NaN
  | PInf, Fin b => if bool_decide (b < 0)%Qc then NInf else PInf
  | NInf, Fin b => if bool_decide (b < 0)%Qc then PInf else NInf
  end.

(** [Math.ceil] and [Math.floor]. *)
Definition ceil (x : number) : number :=
  match x with
  | Fin q => Fin (Qc_of_Z (Qceiling q))
  | _ => x
  end.

Definition floor (x : number) : number :=
  match x with
  | Fin q => Fin (Qc_of_Z (Qfloor q))
  | _ => x
  end.

(** [x < y]; every comparison with [NaN] is false. *)
Definition lt (x y : number) : bool :=
  match x, y with
  | NaN, _ | _, NaN => false
  | _, NInf => false
  | NInf, _ => true
  | PInf, _ => false
  | _, PInf => true
  | Fin a, Fin b => bool_decide (a < b)%Qc
  end.

Definition gt (x y : number) : bool := lt y x.

(** [x === y] on numbers: [NaN] is different from itself. *)
Definition strict_eq (x y : number) : bool :=
  match x with
  | NaN => false
  | _ => bool_decide (x = y)
  end.

(** [x <= y]. *)
Definition le (x y : number) : bool := lt x y || strict_eq x y.

(** [Math.max(a, b, c)] and [Math.min(a, b)] on the integers that index the
    list. *)
Definition max3 (a b c : Z) : Z := Z.max (Z.max a b) c.

(** [a === b] where either side may be [undefined] (or [null]: the code
    never compares [undefined] with [null]). *)
Definition strict_eq_opt (a b : option number) : bool :=
  match a, b with
  | Some x, Some y => strict_eq x y
  | None, None => true
  | _, _ => false
  end.

(** [Array.prototype.slice(start, end)]. *)
Definition slice {A} (l : list A) (s e : Z) : list A :=
  let len := Z.of_nat (length l) in
  let k := if s <? 0 then Z.max (len + s) 0 else Z.min s len in
  let final := if e <? 0 then Z.max (len + e) 0 else Z.min e len in
  take (Z.to_nat (final - k)) (drop (Z.to_nat k) l).

(** [Array.prototype.findIndex]: [-1] when no element satisfies [p]. *)
Fixpoint findIndex_from {A} (p : A → bool) (i : Z) (l : list A) : Z :=
  match l with
  | [] => -1
  | x :: l' => if p x then i else findIndex_from p (i + 1) l'
  end.

Definition findIndex {A} (p : A → bool) (l : list A) : Z :=
  findIndex_from p 0 l.

(** Objects are compared by identity.  An array of freshly allocated
    objects is the list of their contents, each paired with its reference;
    [alloc] numbers the references in allocation order. *)
Definition obj (A : Type) : Type := (nat * A)%type.

Fixpoint alloc_from {A} (ref : nat) (l : list A) : list (obj A) :=
  match l with
  | [] => []
  | x :: l' => (ref, x) :: alloc_from (S ref) l'
  end.

Definition alloc {A} (l : list A) : list (obj A) := alloc_from 0 l.

(** [Array.prototype.indexOf] on an array of objects. *)
Definition indexOf {A} (l : list (obj A)) (x : obj A) : Z :=
  findIndex (λ y, bool_decide (y.1 = x.1)) l.

End JS.

Import JS.

(** ** utils/number, utils/array, utils/ratio, utils/object *)

(** [isNumber]: a value of type number that is finite. *)
Definition isNumber (v : option number) : bool :=
  match v with
  | Some (Fin _) => true
  | _ => false
  end.

Definition first {A} (arr : list A) : option A := head arr.

Definition last {A} (arr : list A) : option A := list.last arr.

Fixpoint filterMap {A B} (arr : list A) (fn : A → option B) : list B :=
  match arr with
  | [] => []
  | x :: arr' =>
      match fn x with
      | Some y => y :: filterMap arr' fn
      | None => filterMap arr' fn
      end
  end.

(** ** Binary64

    [Double.fl q] is the value of the binary64 format nearest to the real
    [q], ties to even: what IEEE 754 makes of the exact result of an
    operation.  Below the smallest normal value the format is spaced by
    [2^-1074]; a result of magnitude [2^1024] or more is an infinity. *)
Module Double.

Fixpoint isPowerOfTwo (d : positive) : bool :=
  match d with
  | xH => true
  | xO d' => isPowerOfTwo d'
  | xI _ => false
  end.

(** [q] is a value of the format of magnitude below [2^53]: in lowest
    terms, a numerator of at most 53 bits over a power of two that is at
    most [2^1074]. *)
Definition exact (q : Qc) : bool :=
  isPowerOfTwo (Qden q)
  && (Z.abs (Qnum q) <? 2 ^ 53)
  && (Z.log2 (Zpos (Qden q)) <=? 1074).

(** The nearest value of the format, in units of [2^-1074]: from the 53
    leading bits of the scaled magnitude, rounded half to even. *)
Definition nearest (q : Qc) : number :=
  let n := Z.abs (Qnum q) in
  let d := Zpos (Qden q) in
  let scaled := n * 2 ^ 1074 in
  let shift := Z.max 0 (Z.log2 (scaled / d) - 52) in
  let unit := d * 2 ^ shift in
  let below := scaled / unit in
  let rest := scaled mod unit in
  let m :=
    match 2 * rest ?= unit with
    | Lt => below
    | Gt => below + 1
    | Eq => if Z.even below then below else below + 1
    end in
  let N := m * 2 ^ shift in
  if 2 ^ 2098 <=? N
  then (if Qnum q <? 0 then NInf else PInf)
  else Fin (Q2Qc (Qmake (Z.sgn (Qnum q) * N) (Z.to_pos (2 ^ 1074)))).

(** A value of the format is its own rounding. *)
Definition fl (q : Qc) : number :=
  if exact q then Fin q else nearest q.

Definition round (x : number) : number :=
  match x with
  | Fin q => fl q
  | _ => x
  end.

(** The four operations of the format: the exact result, rounded. *)
Definition add (x y : number) : number := round (JS.add x y).
Definition sub (x y : number) : number := round (JS.sub x y).
Definition mul (x y : number) : number := round (JS.mul x y).
Definition div (x y : number) : number := round (JS.div x y).

End Double.

(** The product and the quotient are those of the doubles; [Math.ceil] of
    a double is exact. *)
Definition roundToDevicePixelRatio (cssPixels dpr : number) : number :=
  Double.div (ceil (Double.mul cssPixels dpr)) dpr.

(** ** geo/Rectangle *)

Module Rectangle.

Record t := make { _top : number; _height : number }.

Definition getTop (r : t) : number := _top r.
Definition getHeight (r : t) : number := _height r.
Definition getBottom (r : t) : number := add (_top r) (_height r).

Definition doesIntersectWith (this other : t) : bool :=
  gt (getBottom this) (getTop other) && lt (getTop this) (getBottom other).

Definition translateBy (r : t) (offset : number) : t :=
  make (add (getTop r) offset) (getHeight r).

#[global] Instance eq_dec : EqDecision t.
Proof. solve_decision. Defined.

End Rectangle.

(** ** geo/Anchor: the projected item *)

Module Anchor.

Record t := make {
  itemId : string;
  offset : number;
  visible : bool;
  canBeAnchor : bool;
  height : number
}.

(** [new Anchor(itemId, offset)]: the remaining fields take their
    defaults. *)
Definition make2 (itemId : string) (offset : number) : t :=
  make itemId offset false false zero.

Definition getRectInViewport (a : t) : Rectangle.t :=
  Rectangle.make (offset a) (height a).

#[global] Instance eq_dec : EqDecision t.
Proof. solve_decision. Defined.

End Anchor.

(** ** The source list *)

Module ListItem.

(** [data] is opaque to the engine except for [data?.type], the item type
    handed to the assumed-height policy: [data_type] is that property,
    [None] when [data] or [data.type] is undefined. *)
Record t := make {
  id : string;
  data_type : option string;
  canBeAnchor : bool;
  sortIndex : number
}.

End ListItem.

Record Slice := mkSlice { start : Z; end_ : Z }.

#[global] Instance Slice_eq_dec : EqDecision Slice.
Proof. solve_decision. Defined.

(** [deepCompare] on two slices: both are objects with the keys [start] and
  [end], compared key by key with [===]. *)
Definition deepCompare (a b : Slice) : bool :=
  (start a =? start b) && (end_ a =? end_ b).

(** ** geo/Positioning: the snapshot published by a cycle *)

Module Positioning.

(** Modelled from the spec: the class [Positioning] is not part of the
    sources at hand; it is the read-only aggregate of the viewport rectangle,
    the list rectangle, the list length and the rectangle of every rendered
    item, with one reader per component. *)
Record t := make {
  viewportRect : Rectangle.t;
  listRect : Rectangle.t;
  listLength : Z;
  renderedItems : list (string * Rectangle.t)
}.

Definition getForList (p : t) : Rectangle.t := listRect p.
Definition getForViewport (p : t) : Rectangle.t := viewportRect p.
Definition getListLength (p : t) : Z := listLength p.

End Positioning.

(** ** Proximity zones *)

Module Proximity.

Inductive ProximityTriggerCause := MOVEMENT | LIST_UPDATE | INITIAL_POSITION.

Inductive ProximityState := INSIDE | OUTSIDE.

#[global] Instance ProximityState_eq_dec : EqDecision ProximityState.
Proof. solve_decision. Defined.

#[global] Instance ProximityTriggerCause_eq_dec :
  EqDecision ProximityTriggerCause.
Proof. solve_decision. Defined.

Definition isNearTop (threshold : number)
    (listRect viewportRect : Rectangle.t) : bool :=
  le (sub (Rectangle.getTop viewportRect) (Rectangle.getTop listRect))
     threshold.

Definition isNearBottom (threshold : number)
    (listRect viewportRect : Rectangle.t) : bool :=
  le (sub (Rectangle.getBottom listRect) (Rectangle.getBottom viewportRect))
     threshold.

Definition isNearTopRatio (ratio : number)
    (listRect viewportRect : Rectangle.t) : bool :=
  let threshold := mul (Rectangle.getHeight viewportRect) ratio in
  le (sub (Rectangle.getTop viewportRect) (Rectangle.getTop listRect))
     threshold.

Definition isNearBottomRatio (ratio : number)
    (listRect viewportRect : Rectangle.t) : bool :=
  let threshold := mul (Rectangle.getHeight viewportRect) ratio in
  le (sub (Rectangle.getBottom listRect) (Rectangle.getBottom viewportRect))
     threshold.

(** [prevProximity] and [prevListLength] are [undefined] in the state [{}] a
    zone starts with. *)
Definition calculateProximityTrigger
    (prevProximity : option ProximityState) (prevListLength : option Z)
    (currentProximity : ProximityState) (currentListLength : Z)
  : option ProximityTriggerCause :=
  let wasOutside_nowInside :=
    bool_decide (prevProximity = None)
    && bool_decide (currentProximity = INSIDE) in
  let wasOutside_becameInside :=
    bool_decide (prevProximity = Some OUTSIDE)
    && bool_decide (currentProximity = INSIDE) in
  let stayedInside_listChanged :=
    bool_decide (prevProximity = Some INSIDE)
    && bool_decide (currentProximity = INSIDE)
    && negb (bool_decide (Some currentListLength = prevListLength)) in
  if wasOutside_nowInside then Some INITIAL_POSITION
  else if wasOutside_becameInside then Some MOVEMENT
  else if stayedInside_listChanged then Some LIST_UPDATE
  else None.

Record ZoneState := mkZoneState {
  proximity : option ProximityState;
  listLength : option Z
}.

Section Manager.

(** The identity of a zone's callback; calling it with [{ triggerCause }] is
    the pair of the callback and the cause in the trace. *)
Context {C : Type}.

Record Zone := mkZone {
  condition : Rectangle.t → Rectangle.t → bool;
  callback : C
}.

Record ZoneEntry := mkEntry { zone : Zone; state : ZoneState }.

(** [new ProximityZoneManager(zoneDefinitions)]. *)
Definition ProximityZoneManager (zoneDefinitions : list Zone)
  : list ZoneEntry :=
  map (λ zone, mkEntry zone (mkZoneState None None)) zoneDefinitions.

(** The body of the [forEach] of [handlePositioningUpdate] for one zone: the
    zone's new entry and the calls of its callback. *)
Definition handleZone (positioningData : Positioning.t) (entry : ZoneEntry)
  : ZoneEntry * list (C * ProximityTriggerCause) :=
  let prevListLength := listLength (state entry) in
  let prevProximity := proximity (state entry) in
  let currentProximity :=
    if condition (zone entry)
         (Positioning.getForList positioningData)
         (Positioning.getForViewport positioningData)
    then INSIDE else OUTSIDE in
  let currentListLength := Positioning.getListLength positioningData in
  let triggerCause :=
    calculateProximityTrigger prevProximity prevListLength
      currentProximity currentListLength in
  let state' := mkZoneState (Some currentProximity) (Some currentListLength) in
  (mkEntry (zone entry) state',
   match triggerCause with
   | Some cause => [(callback (zone entry), cause)]
   | None => []
   end).

Fixpoint handlePositioningUpdate (_zones : list ZoneEntry)
    (positioningData : Positioning.t)
  : list ZoneEntry * list (C * ProximityTriggerCause) :=
  match _zones with
  | [] => ([], [])
  | entry :: rest =>
      let '(entry', calls) := handleZone positioningData entry in
      let '(rest', calls') := handlePositioningUpdate rest positioningData in
      (entry' :: rest', calls ++ calls')
  end.

End Manager.

Arguments Zone : clear implicits.
Arguments ZoneEntry : clear implicits.

End Proximity.

Import Proximity.

(** ** The engine state *)

Inductive UpdateReason := HEIGHT_CHANGE.

#[global] Instance UpdateReason_eq_dec : EqDecision UpdateReason.
Proof. solve_decision. Defined.

(** [assumedItemHeight: ((itemType: string) => number) | number]. *)
Inductive AssumedItemHeight :=
| AssumedFunction (f : string → number)
| AssumedNumber (n : number).

Record VirtualizerOptions := mkOptions {
  assumedItemHeight : AssumedItemHeight;
  minimumOffscreenToViewportRatio : number;
  preferredOffscreenToViewportRatio : number;
  nearStartProximityRatio : option number;
  nearEndProximityRatio : option number
}.

(** A DOM element, by identity. *)
Definition Node : Type := nat.

(** The four edge callbacks of the options. *)
Inductive ZoneCallback := onAtStart | onNearStart | onNearEnd | onAtEnd.

(** What a method does to the outside: the host's callbacks it calls, the
    elements it hands to the resize observer, the frames it requests. *)
Inductive Event :=
| OnChange
| OnPositionUpdate (positioning : Positioning.t)
| OnEdge (callback : ZoneCallback) (triggerCause : ProximityTriggerCause)
| OnScrollEnd
| Observe (node : Node)
| UnObserve (node : Node)
| RequestAnimationFrame.

(** The fields of [Virtualizer].  [_viewport] and [_rootElement] record
    whether the field is defined; what the viewport and the elements measure
    is read from the environment.  [_previousScrollPosition] is written by
    [_updateScrollEnd] and never read: it is left out. *)
Record Virtualizer := mkVirtualizer {
  _options : VirtualizerOptions;
  _viewport : bool;
  _rootElement : bool;
  _list : list ListItem.t;
  _renderedItems : list Anchor.t;
  _listHeightWithHeadRoom : number;
  _heights : gmap string number;
  _pendingHeightUpdates : gmap string number;
  _cells : list (Node * string);
  _slice : Slice;
  _isIdle : bool;
  _isInitialAnchoring : bool;
  _devicePixelRatio : number;
  _lastUpdateReason : option UpdateReason;
  _edgeProximity : option (list (ZoneEntry ZoneCallback))
}.

(** Assignments to one field. *)
Definition set_viewport (x : bool) (v : Virtualizer) : Virtualizer :=
  mkVirtualizer
    (_options v) x (_rootElement v) (_list v) (_renderedItems v)
    (_listHeightWithHeadRoom v) (_heights v) (_pendingHeightUpdates v)
    (_cells v) (_slice v) (_isIdle v) (_isInitialAnchoring v)
    (_devicePixelRatio v) (_lastUpdateReason v) (_edgeProximity v).

Definition set_list (x : list ListItem.t) (v : Virtualizer) : Virtualizer :=
  mkVirtualizer
    (_options v) (_viewport v) (_rootElement v) x (_renderedItems v)
    (_listHeightWithHeadRoom v) (_heights v) (_pendingHeightUpdates v)
    (_cells v) (_slice v) (_isIdle v) (_isInitialAnchoring v)
    (_devicePixelRatio v) (_lastUpdateReason v) (_edgeProximity v).

Definition set_renderedItems (x : list Anchor.t) (v : Virtualizer)
  : Virtualizer :=
  mkVirtualizer
    (_options v) (_viewport v) (_rootElement v) (_list v) x
    (_listHeightWithHeadRoom v) (_heights v) (_pendingHeightUpdates v)
    (_cells v) (_slice v) (_isIdle v) (_isInitialAnchoring v)
    (_devicePixelRatio v) (_lastUpdateReason v) (_edgeProximity v).

Definition set_listHeightWithHeadRoom (x : number) (v : Virtualizer)
  : Virtualizer :=
  mkVirtualizer
    (_options v) (_viewport v) (_rootElement v) (_list v) (_renderedItems v)
    x (_heights v) (_pendingHeightUpdates v) (_cells v) (_slice v)
    (_isIdle v) (_isInitialAnchoring v) (_devicePixelRatio v)
    (_lastUpdateReason v) (_edgeProximity v).

Definition set_heights (x : gmap string number) (v : Virtualizer)
  : Virtualizer :=
  mkVirtualizer
    (_options v) (_viewport v) (_rootElement v) (_list v) (_renderedItems v)
    (_listHeightWithHeadRoom v) x (_pendingHeightUpdates v) (_cells v)
    (_slice v) (_isIdle v) (_isInitialAnchoring v) (_devicePixelRatio v)
    (_lastUpdateReason v) (_edgeProximity v).

Definition set_pendingHeightUpdates (x : gmap string number) (v : Virtualizer)
  : Virtualizer :=
  mkVirtualizer
    (_options v) (_viewport v) (_rootElement v) (_list v) (_renderedItems v)
    (_listHeightWithHeadRoom v) (_heights v) x (_cells v) (_slice v)
    (_isIdle v) (_isInitialAnchoring v) (_devicePixelRatio v)
    (_lastUpdateReason v) (_edgeProximity v).

Definition set_cells (x : list (Node * string)) (v : Virtualizer)
  : Virtualizer :=
  mkVirtualizer
    (_options v) (_viewport v) (_rootElement v) (_list v) (_renderedItems v)
    (_listHeightWithHeadRoom v) (_heights v) (_pendingHeightUpdates v) x
    (_slice v) (_isIdle v) (_isInitialAnchoring v) (_devicePixelRatio v)
    (_lastUpdateReason v) (_edgeProximity v).

Definition set_slice (x : Slice) (v : Virtualizer) : Virtualizer :=
  mkVirtualizer
    (_options v) (_viewport v) (_rootElement v) (_list v) (_renderedItems v)
    (_listHeightWithHeadRoom v) (_heights v) (_pendingHeightUpdates v)
    (_cells v) x (_isIdle v) (_isInitialAnchoring v) (_devicePixelRatio v)
    (_lastUpdateReason v) (_edgeProximity v).

Definition set_isIdle (x : bool) (v : Virtualizer) : Virtualizer :=
  mkVirtualizer
    (_options v) (_viewport v) (_rootElement v) (_list v) (_renderedItems v)
    (_listHeightWithHeadRoom v) (_heights v) (_pendingHeightUpdates v)
    (_cells v) (_slice v) x (_isInitialAnchoring v) (_devicePixelRatio v)
    (_lastUpdateReason v) (_edgeProximity v).

Definition set_isInitialAnchoring (x : bool) (v : Virtualizer) : Virtualizer :=
  mkVirtualizer
    (_options v) (_viewport v) (_rootElement v) (_list v) (_renderedItems v)
    (_listHeightWithHeadRoom v) (_heights v) (_pendingHeightUpdates v)
    (_cells v) (_slice v) (_isIdle v) x (_devicePixelRatio v)
    (_lastUpdateReason v) (_edgeProximity v).

Definition set_lastUpdateReason (x : option UpdateReason) (v : Virtualizer)
  : Virtualizer :=
  mkVirtualizer
    (_options v) (_viewport v) (_rootElement v) (_list v) (_renderedItems v)
    (_listHeightWithHeadRoom v) (_heights v) (_pendingHeightUpdates v)
    (_cells v) (_slice v) (_isIdle v) (_isInitialAnchoring v)
    (_devicePixelRatio v) x (_edgeProximity v).

Definition set_edgeProximity (x : option (list (ZoneEntry ZoneCallback)))
    (v : Virtualizer) : Virtualizer :=
  mkVirtualizer
    (_options v) (_viewport v) (_rootElement v) (_list v) (_renderedItems v)
    (_listHeightWithHeadRoom v) (_heights v) (_pendingHeightUpdates v)
    (_cells v) (_slice v) (_isIdle v) (_isInitialAnchoring v)
    (_devicePixelRatio v) (_lastUpdateReason v) x.

(** The readings of the DOM a method may take. *)
Record Env := mkEnv {
  (** [this._viewport.getRect()] *)
  viewport_getRect : Rectangle.t;
  (** [this._viewport.scrollY()] *)
  viewport_scrollY : number;
  (** [this._rootElement.getBoundingClientRect().top] *)
  rootElement_top : number;
  (** [node.getBoundingClientRect().height] *)
  node_height : Node → value
}.

(** [entry.contentRect?.height] of a [ResizeObserverEntry]. *)
Record ResizeObserverEntry := mkEntryRO { contentRect_height : value }.

(** ** The engine *)

Definition MAX_ITEMS_TO_RENDER_AT_ONCE : Z := 50.

(** [Map.has]. *)
Definition has (m : gmap string number) (k : string) : bool :=
  bool_decide (is_Some (m !! k)).

(** [Map<TItemElement, string>]: the registered elements in insertion
    order. *)
Definition cells_get (cells : list (Node * string)) (node : Node)
  : option string :=
  (λ found, found.2.2) <$> list_find (λ c, c.1 = node) cells.

Fixpoint cells_set (cells : list (Node * string)) (node : Node)
    (itemId : string) : list (Node * string) :=
  match cells with
  | [] => [(node, itemId)]
  | (n, i) :: rest =>
      if bool_decide (n = node) then (n, itemId) :: rest
      else (n, i) :: cells_set rest node itemId
  end.

Definition cells_delete (cells : list (Node * string)) (node : Node)
  : list (Node * string) :=
  filter (λ c, c.1 ≠ node) cells.

(** [new Virtualizer(options)]: [_setupOptions] and the field
    initialisers.  [dpr] is [window.devicePixelRatio || 1]. *)
Definition new_Virtualizer (opts : VirtualizerOptions)
    (rootElement : bool) (list : list ListItem.t) (dpr : number)
  : Virtualizer :=
  mkVirtualizer opts false rootElement list [] zero ∅ ∅ []
    (mkSlice 0 0) true true dpr None None.

(** [_itemMap]: later items override earlier ones with the same id.  The
    memoisation of [_itemMap] and [_finalRenderedItems] is transparent: both
    are functions of the fields they depend on. *)
Definition _itemMap (v : Virtualizer) : gmap string ListItem.t :=
  foldl (λ map item, <[ListItem.id item := item]> map) ∅ (_list v).

Record FinalRenderedItem := mkFinal {
  item : ListItem.t;
  final_offset : number;
  final_visible : bool
}.

Definition _finalRenderedItems (v : Virtualizer) : list FinalRenderedItem :=
  let itemMap := _itemMap v in
  filterMap (_renderedItems v) (λ state,
    match itemMap !! Anchor.itemId state with
    | Some item => Some (mkFinal item (Anchor.offset state)
                                 (Anchor.visible state))
    | None => None
    end).

Definition _getFinalRenderedItems (v : Virtualizer) : list FinalRenderedItem :=
  _finalRenderedItems v.

Definition _getAnchorItemCandidates (v : Virtualizer)
  : list FinalRenderedItem :=
  let currentlyRendered := _getFinalRenderedItems v in
  List.filter
    (λ r, ListItem.canBeAnchor (item r)
          && has (_heights v) (ListItem.id (item r)))
    currentlyRendered.

Definition _getAnchor (v : Virtualizer) : option Anchor.t :=
  let candidates := _getAnchorItemCandidates v in
  match first candidates with
  | Some firstCandidate =>
      Some (Anchor.make2 (ListItem.id (item firstCandidate))
                         (final_offset firstCandidate))
  | None =>
      match first (_list v) with
      | Some firstOverall => Some (Anchor.make2 (ListItem.id firstOverall) zero)
      | None => None
      end
  end.

Definition _measureRelativeViewportRect (env : Env) (v : Virtualizer)
  : option Rectangle.t :=
  if _rootElement v && _viewport v then
    Some (Rectangle.translateBy (viewport_getRect env)
            (neg (rootElement_top env)))
  else None.

(** One iteration of the loop of [_measureHeights].  A registered node is
    never falsy: [measureElement] turns such nodes away. *)
Definition measureCell (env : Env) (heights : gmap string number)
    (cell : Node * string) : gmap string number :=
  let '(node, itemId) := cell in
  match node_height env node with
  | Undefined => heights
  | Number measuredHeightRaw =>
      if lt measuredHeightRaw zero then heights
      else
        let measuredHeight := measuredHeightRaw in
        let currentHeight := heights !! itemId in
        if negb (strict_eq_opt (Some measuredHeight) currentHeight)
        then <[itemId := measuredHeight]> heights
        else heights
  end.

Definition _measureHeights (env : Env) (v : Virtualizer) : Virtualizer :=
  set_heights (foldl (measureCell env) (_heights v) (_cells v)) v.

Definition _getHeightForItemId (v : Virtualizer) (itemId : string)
    (itemType : string) : number :=
  let cachedHeight := _heights v !! itemId in
  let height :=
    if isNumber cachedHeight then default zero cachedHeight
    else match assumedItemHeight (_options v) with
         | AssumedFunction f => f itemType
         | AssumedNumber n => n
         end in
  roundToDevicePixelRatio height (_devicePixelRatio v).

(** The parameter [itemType] defaults to the empty string. *)
Definition _getHeight (v : Virtualizer) (item : ListItem.t) : number :=
  _getHeightForItemId v (ListItem.id item)
    (default EmptyString (ListItem.data_type item)).

Definition _getBufferedViewport (viewportRect : Rectangle.t) (ratio : number)
  : Rectangle.t :=
  let bufferHeight := mul ratio (Rectangle.getHeight viewportRect) in
  Rectangle.make
    (sub (Rectangle.getTop viewportRect) bufferHeight)
    (add (Rectangle.getHeight viewportRect) (mul (of_Z 2) bufferHeight)).

Definition _getDistanceFromTop (v : Virtualizer) (targetItemId : string)
  : number :=
  let targetIndex :=
    findIndex (λ item, bool_decide (ListItem.id item = targetItemId))
      (_list v) in
  if targetIndex <=? 0 then zero
  else foldl (λ sum item, add sum (_getHeight v item)) zero
         (slice (_list v) 0 targetIndex).

(** The [forEach] of [_getItemsWithPositions]: one projected item per list
    item, [currentOffset] growing by the item's height. *)
Fixpoint placeItems (v : Virtualizer) (currentOffset : number)
    (items : list ListItem.t) : list Anchor.t :=
  match items with
  | [] => []
  | item :: rest =>
      let height := _getHeight v item in
      Anchor.make (ListItem.id item) currentOffset
        (has (_heights v) (ListItem.id item))
        (ListItem.canBeAnchor item) height
      :: placeItems v (add currentOffset height) rest
  end.

Definition _getItemsWithPositions (v : Virtualizer) (anchor : Anchor.t)
  : list Anchor.t :=
  match _list v with
  | [] => []
  | _ =>
      let anchorDistanceTop := _getDistanceFromTop v (Anchor.itemId anchor) in
      let currentOffset := sub (Anchor.offset anchor) anchorDistanceTop in
      placeItems v currentOffset (_list v)
  end.

Definition _getSliceForCandidates (candidates allItems : list (obj Anchor.t))
  : Slice :=
  let firstCandidate := first candidates in
  let lastCandidate := last candidates in
  mkSlice
    (match firstCandidate with
     | Some c => indexOf allItems c
     | None => 0
     end)
    (match lastCandidate with
     | Some c => indexOf allItems c + 1
     | None => 0
     end).

Definition _adjustSlice (prevSlice nextSlice : Slice)
    (usePreferredBuffer : bool) : Slice :=
  if usePreferredBuffer then nextSlice
  else if (start prevSlice <=? start nextSlice)
          && (end_ nextSlice <=? end_ prevSlice)
          && (end_ prevSlice - start prevSlice
              <=? MAX_ITEMS_TO_RENDER_AT_ONCE)
  then prevSlice
  else if (end_ prevSlice <=? start nextSlice)
          || (end_ nextSlice <=? start prevSlice)
  then nextSlice
  else
    let expansion :=
      max3 (start prevSlice - start nextSlice)
           (end_ nextSlice - end_ prevSlice) 0 in
    mkSlice (Z.min (start prevSlice + expansion) (start nextSlice))
            (Z.max (end_ prevSlice - expansion) (end_ nextSlice)).

Definition _getIsHeightsReady (v : Virtualizer)
    (renderedItems : list Anchor.t) : bool :=
  match renderedItems with
  | [] => true
  | _ => forallb (λ r, has (_heights v) (Anchor.itemId r)) renderedItems
  end.

Definition _getRenderedItemRectInViewport (itemState : Anchor.t)
  : Rectangle.t :=
  Anchor.getRectInViewport itemState.

Definition _getHeightBetweenItems
    (firstItemState lastItemState : option Anchor.t) : number :=
  match firstItemState, lastItemState with
  | Some f, Some l =>
      let firstRect := _getRenderedItemRectInViewport f in
      let lastRect := _getRenderedItemRectInViewport l in
      sub (Rectangle.getBottom lastRect) (Rectangle.getTop firstRect)
  | _, _ => zero
  end.

Record RenderCandidates := mkCandidates {
  allItemsWithPositions : list Anchor.t;
  newRenderedItems : list Anchor.t;
  slice_ : Slice;
  arePreferredItemsRendered : bool
}.

(** The index span of the projected items that intersect the target
    rectangle: steps 2 and 3 of [_getRenderCandidates]. *)
Definition candidateSliceFor (allItems : list Anchor.t)
    (targetBufferRect : Rectangle.t) : Slice :=
  let allItemsWithPositions := alloc allItems in
  let candidateItems :=
    List.filter
      (λ itemState : obj Anchor.t,
         Rectangle.doesIntersectWith
           (Anchor.getRectInViewport itemState.2) targetBufferRect)
      allItemsWithPositions in
  _getSliceForCandidates candidateItems allItemsWithPositions.

Definition _getRenderCandidates (v : Virtualizer) (anchor : Anchor.t)
    (relativeViewportRect : Rectangle.t) : RenderCandidates :=
  let minBufferRect :=
    _getBufferedViewport relativeViewportRect
      (minimumOffscreenToViewportRatio (_options v)) in
  let preferredBufferRect :=
    _getBufferedViewport relativeViewportRect
      (preferredOffscreenToViewportRatio (_options v)) in
  let usePreferredBuffer := _isIdle v && negb (_isInitialAnchoring v) in
  let targetBufferRect :=
    if usePreferredBuffer then preferredBufferRect else minBufferRect in
  let allItemsWithPositions := _getItemsWithPositions v anchor in
  let candidateSlice :=
    candidateSliceFor allItemsWithPositions targetBufferRect in
  let newSlice := _adjustSlice (_slice v) candidateSlice usePreferredBuffer in
  let newRenderedItems :=
    slice allItemsWithPositions (start newSlice) (end_ newSlice) in
  mkCandidates allItemsWithPositions newRenderedItems newSlice
    usePreferredBuffer.

Definition _shouldTriggerOnChange (v : Virtualizer) (sliceChanged : bool)
  : bool :=
  sliceChanged || bool_decide (_lastUpdateReason v = Some HEIGHT_CHANGE).

(** Modelled from the spec: the class [EdgeProximity] and the [condition]
    factories [mount] builds its zones with are not part of the sources at
    hand.  By the specification's section on the proximity zone manager they
    are the zone manager above and its predicates [isNearTop],
    [isNearTopRatio], [isNearBottomRatio] and [isNearBottom]. *)
Definition defaultZones (opts : VirtualizerOptions)
  : list (Zone ZoneCallback) :=
  [ mkZone (isNearTop (of_Z 5)) onAtStart;
    mkZone (isNearTopRatio
              (default (Fin (Q2Qc (1 # 4))) (nearStartProximityRatio opts)))
           onNearStart;
    mkZone (isNearBottomRatio
              (default (Fin (Q2Qc (7 # 4))) (nearEndProximityRatio opts)))
           onNearEnd;
    mkZone (isNearBottom (of_Z 5)) onAtEnd ].

Definition _updatePositioning (v : Virtualizer)
    (renderedItems : list Anchor.t) (relativeViewportRect : Rectangle.t)
    (firstItem : option Anchor.t) (newListHeight : number)
  : Virtualizer * list Event :=
  if negb (_getIsHeightsReady v renderedItems) then (v, [])
  else
    let positioning :=
      Positioning.make relativeViewportRect
        (Rectangle.make
           (match firstItem with
            | Some f =>
                Rectangle.getTop (_getRenderedItemRectInViewport f)
            | None => zero
            end)
           newListHeight)
        (Z.of_nat (length (_list v)))
        (map (λ item,
                (Anchor.itemId item,
                 Rectangle.make (Anchor.offset item)
                   (_getHeightForItemId v (Anchor.itemId item) EmptyString)))
             renderedItems) in
    match _edgeProximity v with
    | Some zones =>
        let '(zones', calls) := handlePositioningUpdate zones positioning in
        (set_edgeProximity (Some zones') v,
         OnPositionUpdate positioning
         :: map (λ call, OnEdge call.1 call.2) calls)
    | None => (v, [OnPositionUpdate positioning])
    end.

Definition _updateRenderedItems (v : Virtualizer) (anchor : Anchor.t)
    (relativeViewportRect : Rectangle.t) : Virtualizer * list Event :=
  let candidates := _getRenderCandidates v anchor relativeViewportRect in
  let firstItemOverall := first (allItemsWithPositions candidates) in
  let lastItemOverall := last (allItemsWithPositions candidates) in
  let listHeight :=
    _getHeightBetweenItems firstItemOverall lastItemOverall in
  let listHeightWithHeadroom := listHeight in
  let areHeightsReadyForRender :=
    _getIsHeightsReady v (newRenderedItems candidates) in
  let sliceChanged := negb (deepCompare (_slice v) (slice_ candidates)) in
  let v1 :=
    set_listHeightWithHeadRoom listHeightWithHeadroom
      (set_renderedItems (newRenderedItems candidates) v) in
  let v2 :=
    if areHeightsReadyForRender then set_isInitialAnchoring false v1
    else v1 in
  let '(v3, changed) :=
    if _shouldTriggerOnChange v2 sliceChanged
    then (set_slice (slice_ candidates) v2, [OnChange])
    else (v2, []) in
  let v4 := set_lastUpdateReason None v3 in
  let '(v5, published) :=
    _updatePositioning v4 (newRenderedItems candidates)
      relativeViewportRect firstItemOverall listHeightWithHeadroom in
  (v5, changed ++ published).

(** One update cycle. *)
Definition _update (env : Env) (v : Virtualizer) : Virtualizer * list Event :=
  if negb (_viewport v) then (v, [])
  else
    match _measureRelativeViewportRect env v with
    | None => (v, [])
    | Some relativeViewportRect =>
        let anchor := _getAnchor v in
        let v1 := _measureHeights env v in
        match anchor with
        | Some anchor => _updateRenderedItems v1 anchor relativeViewportRect
        | None => (v1, [])
        end
    end.

Definition _updateItemHeight (env : Env) (v : Virtualizer)
    (itemId : string) (height : number) : Virtualizer * list Event :=
  let v1 :=
    set_pendingHeightUpdates
      (<[itemId := height]> (_pendingHeightUpdates v)) v in
  let allRenderedHaveHeights :=
    forallb
      (λ r, has (_heights v1) (Anchor.itemId r)
            || has (_pendingHeightUpdates v1) (Anchor.itemId r))
      (_renderedItems v1) in
  if allRenderedHaveHeights
     || bool_decide (50 < size (_pendingHeightUpdates v1))%nat
  then
    let v2 :=
      set_heights
        (map_fold (λ id h heights, <[id := h]> heights) (_heights v1)
           (_pendingHeightUpdates v1)) v1 in
    let v3 := set_pendingHeightUpdates ∅ v2 in
    let v4 := set_lastUpdateReason (Some HEIGHT_CHANGE) v3 in
    _update env v4
  else (v1, []).

Definition _handleHeightChanged (env : Env) (v : Virtualizer)
    (itemId : string) (height : number) : Virtualizer * list Event :=
  if negb (strict_eq_opt (_heights v !! itemId) (Some height))
  then _updateItemHeight env v itemId height
  else (v, []).

(** [entry] is [None] for the call that only asks the observer to start
    watching the element. *)
Definition _measureElement (env : Env) (v : Virtualizer) (node : Node)
    (entry : option ResizeObserverEntry) : Virtualizer * list Event :=
  match cells_get (_cells v) node with
  | None => (v, [])
  | Some itemId =>
      match entry with
      | None => (v, [Observe node])
      | Some entry =>
          match contentRect_height entry with
          | Undefined => (v, [])
          | Number newHeightRaw =>
              if lt newHeightRaw zero then (v, [])
              else
                let newHeight := floor newHeightRaw in
                let heightValue := _heights v !! itemId in
                let oldHeight := floor <$> heightValue in
                let heightDidChange :=
                  negb (strict_eq_opt (Some newHeight) oldHeight) in
                if heightDidChange
                then _handleHeightChanged env v itemId newHeight
                else (v, [])
          end
      end
  end.

(** [measureElement(node, itemId)]; [node] is [None] for a falsy node. *)
Definition measureElement (env : Env) (v : Virtualizer)
    (node : option Node) (itemId : string) : Virtualizer * list Event :=
  match node with
  | None => (v, [])
  | Some node =>
      _measureElement env
        (set_cells (cells_set (_cells v) node itemId) v) node None
  end.

(** The release handle [measureElement] returns. *)
Definition releaseElement (v : Virtualizer) (node : Node)
  : Virtualizer * list Event :=
  match cells_get (_cells v) node with
  | Some _ => (set_cells (cells_delete (_cells v) node) v, [UnObserve node])
  | None => (v, [])
  end.

(** [setList]: the frame it requests runs [_update]. *)
Definition setList (v : Virtualizer) (newList : list ListItem.t)
  : Virtualizer * list Event :=
  (set_list newList v, [RequestAnimationFrame]).

(** [mount]: [_getInitialRenderedItems] is empty, so the first cycle
    runs. *)
Definition mount (env : Env) (v : Virtualizer) : Virtualizer * list Event :=
  let v1 := set_viewport true v in
  let v2 :=
    set_edgeProximity
      (Some (ProximityZoneManager (defaultZones (_options v1)))) v1 in
  _update env v2.

(** [_handleScroll]; the debounced [_updateScrollEnd] and the throttled
    update it arms are the requested frame. *)
Definition _handleScroll (env : Env) (v : Virtualizer)
  : Virtualizer * list Event :=
  if negb (_viewport v) then (v, [])
  else
    let currentScrollY := viewport_scrollY env in
    if _isInitialAnchoring v || lt currentScrollY zero then (v, [])
    else (set_isIdle false v, [RequestAnimationFrame]).

Definition _updateScrollEnd (v : Virtualizer) : Virtualizer * list Event :=
  (set_isIdle true v, [OnScrollEnd; RequestAnimationFrame]).

(** ** The specification's wording of the rules the engine is compared with *)

(** The previous slice contains the candidate slice. *)
Definition contains (prevSlice nextSlice : Slice) : Prop :=
  start prevSlice ≤ start nextSlice ∧ end_ nextSlice ≤ end_ prevSlice.

(** The two slices share at least one index. *)
Definition overlaps (prevSlice nextSlice : Slice) : Prop :=
  start nextSlice < end_ prevSlice ∧ start prevSlice < end_ nextSlice.

(** [expansion = max(prevStart − candStart, candEnd − prevEnd, 0)]. *)
Definition expansion (prevSlice nextSlice : Slice) : Z :=
  max3 (start prevSlice - start nextSlice) (end_ nextSlice - end_ prevSlice)
       0.

(** The previous slice grown by the expansion on each boundary: start
    decreased, end increased. *)
Definition spec_grown (prevSlice nextSlice : Slice) : Slice :=
  mkSlice (start prevSlice - expansion prevSlice nextSlice)
          (end_ prevSlice + expansion prevSlice nextSlice).

(** A slice clamped so that it does not exceed the span of [span]. *)
Definition spec_clamp (span s : Slice) : Slice :=
  mkSlice (Z.max (start s) (start span)) (Z.min (end_ s) (end_ span)).

(** The gradual expansion in the specification's words. *)
Definition spec_expandGradually (prevSlice nextSlice : Slice) : Slice :=
  spec_clamp nextSlice (spec_grown prevSlice nextSlice).

(** The trigger table of the proximity zones in the specification's
    words. *)
Definition spec_triggerCause (previous : option ProximityState)
    (current : ProximityState) (listLengthChanged : bool)
  : option ProximityTriggerCause :=
  match previous, current with
  | None, INSIDE => Some INITIAL_POSITION
  | Some OUTSIDE, INSIDE => Some MOVEMENT
  | Some INSIDE, INSIDE =>
      if listLengthChanged then Some LIST_UPDATE else None
  | _, _ => None
  end.

(** The proximity of a zone for a snapshot. *)
Definition currentProximityOf {C} (z : Zone C) (p : Positioning.t)
  : ProximityState :=
  if condition z (Positioning.getForList p) (Positioning.getForViewport p)
  then INSIDE else OUTSIDE.

(** What one positioning update makes of a zone's entry, and the calls it
    owes, by the table. *)
Definition spec_entry {C} (p : Positioning.t) (entry : ZoneEntry C)
  : ZoneEntry C :=
  mkEntry (zone entry)
    (mkZoneState (Some (currentProximityOf (zone entry) p))
                 (Some (Positioning.listLength p))).

Definition spec_calls {C} (p : Positioning.t) (entry : ZoneEntry C)
  : list (C * ProximityTriggerCause) :=
  match spec_triggerCause (proximity (state entry))
          (currentProximityOf (zone entry) p)
          (negb (bool_decide
                   (Some (Positioning.listLength p)
                    = listLength (state entry)))) with
  | Some cause => [(callback (zone entry), cause)]
  | None => []
  end.

(** A CSS pixel value is aligned to the device pixels when it is a whole
    number of device pixels. *)
Definition devicePixelAligned (px dpr : Qc) : Prop :=
  ∃ z : Z, (px * dpr)%Qc = Qc_of_Z z.

(** The CSS pixel value height resolution starts from: the committed height
    when there is a finite one, the assumed-height policy otherwise. *)
Definition spec_cssPixels (v : Virtualizer) (itemId itemType : string)
  : number :=
  match _heights v !! itemId with
  | Some (Fin h) => Fin h
  | _ =>
      match assumedItemHeight (_options v) with
      | AssumedFunction f => f itemType
      | AssumedNumber n => n
      end
  end.

(** The item of a list a rendered entry stands for: the last item of the
    list that has the entry's id, if there is one. *)
Definition listItemFor (items : list ListItem.t) (itemId : string)
  : option ListItem.t :=
  last (List.filter (λ it, bool_decide (ListItem.id it = itemId)) items).

(** A rendered entry qualifies as an anchor when its id is in the current
    list, the list item with that id may be an anchor and the real height
    of that id is known. *)
Definition qualifiesAsAnchor (v : Virtualizer) (r : Anchor.t) : Prop :=
  ∃ it, listItemFor (_list v) (Anchor.itemId r) = Some it
        ∧ ListItem.canBeAnchor it = true
        ∧ is_Some (_heights v !! Anchor.itemId r).

(** The fallback chain of anchor resolution, stated over the rendered
    entries, the list and the committed heights: the first qualifying
    rendered entry with its projected offset; failing that, the first item
    of the list at offset 0; failing that, nothing. *)
Inductive AnchorResolution (v : Virtualizer) : option Anchor.t → Prop :=
| anchor_rendered before r after :
    _renderedItems v = before ++ r :: after →
    Forall (λ x, ¬ qualifiesAsAnchor v x) before →
    qualifiesAsAnchor v r →
    AnchorResolution v
      (Some (Anchor.make2 (Anchor.itemId r) (Anchor.offset r)))
| anchor_first firstOverall rest :
    Forall (λ x, ¬ qualifiesAsAnchor v x) (_renderedItems v) →
    _list v = firstOverall :: rest →
    AnchorResolution v (Some (Anchor.make2 (ListItem.id firstOverall) zero))
| anchor_none :
    Forall (λ x, ¬ qualifiesAsAnchor v x) (_renderedItems v) →
    _list v = [] →
    AnchorResolution v None.

(** The heights-ready predicate in the specification's words, over the
    committed heights: the rendered set is empty, or every rendered item
    has a committed height. *)
Definition heightsCommitted (heights : gmap string number)
    (rendered : list Anchor.t) : Prop :=
  rendered = []
  ∨ Forall (λ r, is_Some (heights !! Anchor.itemId r)) rendered.

(** The persisted slice is a range of the current list. *)
Definition sliceWithinList (v : Virtualizer) : Prop :=
  0 ≤ start (_slice v) ≤ end_ (_slice v)
  ∧ end_ (_slice v) ≤ Z.of_nat (length (_list v)).

(** ** Notions the statements and proofs are phrased with *)

(** The buffer a cycle started in state [v] selects candidates with. *)
Definition usesPreferredBuffer (v : Virtualizer) : bool :=
  _isIdle v && negb (_isInitialAnchoring v).

(** A cycle reaches the projection when the viewport and the root element
    are there and the list is not empty. *)
Definition cycleProjects (v : Virtualizer) : bool :=
  _viewport v && _rootElement v && bool_decide (_list v ≠ []).

(** The viewport rectangle relative to the root element. *)
Definition relativeViewportRectOf (env : Env) : Rectangle.t :=
  Rectangle.translateBy (viewport_getRect env) (neg (rootElement_top env)).

Definition isPositionUpdate (e : Event) : bool :=
  match e with
  | OnPositionUpdate _ => true
  | _ => false
  end.

Definition isEdgeCall (e : Event) : bool :=
  match e with
  | OnEdge _ _ => true
  | _ => false
  end.

(** The engine state apart from the proximity zones. *)
Definition withoutZones (v : Virtualizer) : Virtualizer :=
  set_edgeProximity None v.

(** The engine state apart from the height ledger, the pending buffer and
    the tag of the next cycle. *)
Definition withoutLedger (v : Virtualizer) : Virtualizer :=
  set_heights ∅ (set_pendingHeightUpdates ∅ (set_lastUpdateReason None v)).

(** A burst of measurements: [_updateItemHeight] for each report in turn. *)
Fixpoint stageHeights (env : Env) (v : Virtualizer)
    (reports : list (string * number)) : Virtualizer * list Event :=
  match reports with
  | [] => (v, [])
  | (itemId, height) :: rest =>
      let '(v1, events) := _updateItemHeight env v itemId height in
      let '(v2, events') := stageHeights env v1 rest in
      (v2, events ++ events')
  end.

(** The pending buffer after the reports were staged one after the other. *)
Definition staged (pending : gmap string number)
    (reports : list (string * number)) : gmap string number :=
  foldl (λ m report, <[report.1 := report.2]> m) pending reports.

(** Cycles in succession, one per environment. *)
Fixpoint runCycles (envs : list Env) (v : Virtualizer) : Virtualizer :=
  match envs with
  | [] => v
  | env :: rest => runCycles rest (_update env v).1
  end.

(** The resolved height of an item as a rational, and the total height of a
    run of items. *)
Definition heightQ (v : Virtualizer) (item : ListItem.t) : Qc :=
  match _getHeight v item with
  | Fin q => q
  | _ => 0%Qc
  end.

Definition sumQ (v : Virtualizer) (items : list ListItem.t) : Qc :=
  foldr (λ item acc, (heightQ v item + acc)%Qc) 0%Qc items.

(** The resolved heights of [items] are finite. *)
Definition finiteOn (v : Virtualizer) (items : list ListItem.t) : Prop :=
  Forall (λ item, _getHeight v item = Fin (heightQ v item)) items.

(** The whole number a value is, if it is one. *)
Definition wholeNumber (x : number) : option Z :=
  match x with
  | Fin q =>
      if bool_decide (Qden q = 1%positive) then Some (Qnum q) else None
  | _ => None
  end.

(** The total of the magnitudes of whole heights, and the largest
    magnitude among whole offsets. *)
Definition sumAbs (heights : list Z) : Z :=
  foldr (λ h total, Z.abs h + total) 0 heights.

Definition maxAbs (offsets : list Z) : Z :=
  foldr (λ o reach, Z.max (Z.abs o) reach) 0 offsets.

(** The layout is in whole pixels that doubles add and subtract without
    rounding: the resolved height of every item of the list and the offset
    of every rendered item are whole numbers, and the largest offset and
    twice the heights together stay below [2^52].  The offsets and the
    bottoms a projection forms from such a state are whole numbers of
    magnitude below [2^52], and so is every sum on the way; their
    differences stay below [2^53]: numbers the binary64 format holds
    exactly. *)
Definition exactLayout (v : Virtualizer) : bool :=
  match mapM (λ item, wholeNumber (_getHeight v item)) (_list v),
        mapM (λ r, wholeNumber (Anchor.offset r)) (_renderedItems v) with
  | Some heights, Some offsets =>
      maxAbs offsets + 2 * sumAbs heights <? 2 ^ 52
  | _, _ => false
  end.

(** The projection and the list height with every sum and difference
    rounded to the binary64 format, as the engine computes them; the
    properties are stated for [_getItemsWithPositions] and
    [_getHeightBetweenItems], whose sums are exact, and the two agree on
    layouts in whole pixels. *)
Module InDoubles.

Definition _getDistanceFromTop (v : Virtualizer) (targetItemId : string)
  : number :=
  let targetIndex :=
    findIndex (λ item, bool_decide (ListItem.id item = targetItemId))
      (_list v) in
  if targetIndex <=? 0 then zero
  else foldl (λ sum item, Double.add sum (_getHeight v item)) zero
         (slice (_list v) 0 targetIndex).

Fixpoint placeItems (v : Virtualizer) (currentOffset : number)
    (items : list ListItem.t) : list Anchor.t :=
  match items with
  | [] => []
  | item :: rest =>
      let height := _getHeight v item in
      Anchor.make (ListItem.id item) currentOffset
        (has (_heights v) (ListItem.id item))
        (ListItem.canBeAnchor item) height
      :: placeItems v (Double.add currentOffset height) rest
  end.

Definition _getItemsWithPositions (v : Virtualizer) (anchor : Anchor.t)
  : list Anchor.t :=
  match _list v with
  | [] => []
  | _ =>
      let anchorDistanceTop := _getDistanceFromTop v (Anchor.itemId anchor) in
      let currentOffset :=
        Double.sub (Anchor.offset anchor) anchorDistanceTop in
      placeItems v currentOffset (_list v)
  end.

Definition _getHeightBetweenItems
    (firstItemState lastItemState : option Anchor.t) : number :=
  match firstItemState, lastItemState with
  | Some f, Some l =>
      Double.sub (Double.add (Anchor.offset l) (Anchor.height l))
        (Anchor.offset f)
  | _, _ => zero
  end.

End InDoubles.

(** Two states that project positions alike. *)
Definition sameLayout (v v' : Virtualizer) : Prop :=
  _heights v = _heights v'
  ∧ _options v = _options v'
  ∧ _devicePixelRatio v = _devicePixelRatio v'
  ∧ _list v = _list v'.

(** What the synchronous re-measurement writes for one registered element,
    whatever the ledger holds. *)
Definition cellUpdate (env : Env) (cell : Node * string)
  : option (string * number) :=
  match node_height env cell.1 with
  | Undefined => None
  | Number measured =>
      if lt measured zero then None else Some (cell.2, measured)
  end.

Definition applyUpdate (heights : gmap string number)
    (update : option (string * number)) : gmap string number :=
  match update with
  | Some (itemId, height) => <[itemId := height]> heights
  | None => heights
  end.

(** ** Scenarios

    Small concrete runs of the engine, used to exercise the properties. *)

Definition demoItem (id : string) : ListItem.t :=
  ListItem.make id None true zero.

(** Assumed height 100, minimum ratio 0.5, preferred ratio 2.5. *)
Definition demoOptions : VirtualizerOptions :=
  mkOptions (AssumedNumber (of_Z 100)) (Fin (Q2Qc (1 # 2)))
    (Fin (Q2Qc (5 # 2))) None None.

(** A viewport of height 100 at the top of the root element; every element
    measures [h]. *)
Definition demoEnv (h : value) : Env :=
  mkEnv (Rectangle.make zero (of_Z 100)) zero zero (λ _, h).

(** Four items, mounted while every element is still unmeasured: the first
    cycle renders the slice [[0,2)] with assumed heights. *)
Definition mountedState : Virtualizer :=
  let v0 :=
    new_Virtualizer demoOptions true
      [demoItem "1"; demoItem "2"; demoItem "3"; demoItem "4"] (of_Z 1) in
  (mount (demoEnv Undefined) v0).1.

(** The two rendered elements are registered with the engine. *)
Definition registeredState : Virtualizer :=
  let v1 := (measureElement (demoEnv Undefined) mountedState
               (Some 0%nat) "1").1 in
  (measureElement (demoEnv Undefined) v1 (Some 1%nat) "2").1.

(** The two registered elements measure 100; the next cycle commits both
    heights and ends the initial-anchoring phase. *)
Definition settledState : Virtualizer :=
  (_update (demoEnv (Number (of_Z 100))) registeredState).1.

(** One item, mounted, its element registered; the next frame reads a
    height of 10.5 from the DOM. *)
Definition fractionalHeightState : Virtualizer :=
  let env := demoEnv (Number (Fin (Q2Qc (21 # 2)))) in
  let v0 := new_Virtualizer demoOptions true [demoItem "a"] (of_Z 1) in
  let v1 := (mount env v0).1 in
  let v2 := (measureElement env v1 (Some 0%nat) "a").1 in
  (_update env v2).1.

(** Of the two registered elements only the second measures 100: the next
    cycle commits the height of item 2 and renders item 1 with its assumed
    height still. *)
Definition partlyMeasuredState : Virtualizer :=
  let env :=
    mkEnv (Rectangle.make zero (of_Z 100)) zero zero
      (λ node, if Nat.eqb node 1 then Number (of_Z 100) else Undefined) in
  (_update env registeredState).1.

(** The list of the settled engine replaced by one new item: the rendered
    entries, both measured, are those of the old list. *)
Definition relistedState : Virtualizer :=
  (setList settledState [demoItem "9"]).1.

(** The list of the settled engine replaced by the empty list. *)
Definition clearedListState : Virtualizer :=
  (setList settledState []).1.

(** The engine with an empty list, mounted. *)
Definition emptyListState : Virtualizer :=
  (mount (demoEnv Undefined) (new_Virtualizer demoOptions true [] (of_Z 1))).1.

(** The list of the mounted engine replaced by a shorter one; the frame
    [setList] requested then runs the cycle. *)
Definition shrunkListState : Virtualizer :=
  let v := (setList mountedState [demoItem "1"]).1 in
  (_update (demoEnv Undefined) v).1.

(** Sixty items in a viewport of height 6000: the first cycle renders all of
    them, none is measured. *)
Definition burstIds : list string := pretty <$> seq 0 60.

Definition burstState : Virtualizer :=
  let env :=
    mkEnv (Rectangle.make zero (of_Z 6000)) zero zero (λ _, Undefined) in
  (mount env
     (new_Virtualizer demoOptions true (demoItem <$> burstIds) (of_Z 1))).1.

(** Fifty reports of a height of 80, for the items 0 to 49. *)
Definition burstReports : list (string * number) :=
  (λ id, (id, of_Z 80)) <$> take 50 burstIds.

(** An engine that scrolled down to the slice [[2,4)] and then learnt that
    the first item, which cannot be an anchor, is 400 high; the viewport is
    back at the top, 50 high, and the engine is not idle. *)
Definition reanchoringEnv : Env :=
  mkEnv (Rectangle.make zero (of_Z 50)) zero zero (λ _, Undefined).

Definition reanchoringState : Virtualizer :=
  let list :=
    [ListItem.make "1" None false zero; demoItem "2"; demoItem "3";
     demoItem "4"] in
  let heights : gmap string number :=
    {[ "1" := of_Z 400; "2" := of_Z 100; "3" := of_Z 100;
       "4" := of_Z 100 ]} in
  let rendered :=
    [Anchor.make "3" (of_Z 200) true true (of_Z 100);
     Anchor.make "4" (of_Z 300) true true (of_Z 100)] in
  set_isIdle false
    (set_isInitialAnchoring false
       (set_slice (mkSlice 2 4)
          (set_renderedItems rendered
             (set_heights heights
                (set_viewport true
                   (new_Virtualizer demoOptions true list (of_Z 1))))))).

(** ** Notions for the properties of the projection *)

(** Consecutive projected items are contiguous: each one starts where the
    one before it ends. *)
Definition tiles (allItems : list Anchor.t) : Prop :=
  ∀ (i : nat) (a b : Anchor.t),
    allItems !! i = Some a →
    allItems !! S i = Some b →
    Anchor.offset b = Rectangle.getBottom (Anchor.getRectInViewport a).

(** The projected item [_getItemsWithPositions] builds for a list item at
    an offset. *)
Definition projectedItem (v : Virtualizer) (item : ListItem.t)
    (offset : number) : Anchor.t :=
  Anchor.make (ListItem.id item) offset
    (has (_heights v) (ListItem.id item))
    (ListItem.canBeAnchor item) (_getHeight v item).

Definition finiteOffset (a : Anchor.t) : Prop :=
  ∃ o, Anchor.offset a = Fin o.

(** A projected item with a finite offset and a finite height that is not
    negative. *)
Definition finiteItem (a : Anchor.t) : Prop :=
  ∃ o h, Anchor.offset a = Fin o ∧ Anchor.height a = Fin h ∧ (0 ≤ h)%Qc.

(** Index [k] lies in the range of a slice. *)
Definition inSlice (s : Slice) (k : nat) : Prop :=
  start s ≤ Z.of_nat k < end_ s.

(** ** The calls that drive an engine *)

(** The entry points through which the host, the scroll listener, the
    resize observer and the scheduled frames reach the engine. *)
Inductive Call :=
| CallMount
| CallMeasureElement (node : option Node) (itemId : string)
| CallRelease (node : Node)
| CallResized (node : Node) (entry : ResizeObserverEntry)
| CallSetList (newList : list ListItem.t)
| CallFrame
| CallScroll
| CallScrollEnd.

Definition call (env : Env) (v : Virtualizer) (c : Call)
  : Virtualizer * list Event :=
  match c with
  | CallMount => mount env v
  | CallMeasureElement node itemId => measureElement env v node itemId
  | CallRelease node => releaseElement v node
  | CallResized node entry => _measureElement env v node (Some entry)
  | CallSetList newList => setList v newList
  | CallFrame => _update env v
  | CallScroll => _handleScroll env v
  | CallScrollEnd => _updateScrollEnd v
  end.

(** A trace of calls, each with the readings of the page at its time. *)
Fixpoint calls (trace : list (Env * Call)) (v : Virtualizer)
  : Virtualizer * list Event :=
  match trace with
  | [] => (v, [])
  | (env, c) :: rest =>
      let '(v1, events1) := call env v c in
      let '(v2, events2) := calls rest v1 in
      (v2, events1 ++ events2)
  end.

(** What no call undoes, from a state [v] to a later state [v']. *)
Record laterState (v v' : Virtualizer) : Prop := mkLater {
  later_pending :
    (size (_pendingHeightUpdates v) ≤ 50)%nat →
    (size (_pendingHeightUpdates v') ≤ 50)%nat;
  later_ledger :
    ∀ itemId, has (_heights v) itemId = true →
              has (_heights v') itemId = true;
  later_staged :
    ∀ itemId, has (_pendingHeightUpdates v) itemId = true →
              has (_heights v') itemId
              || has (_pendingHeightUpdates v') itemId = true;
  later_anchoring :
    _isInitialAnchoring v = false → _isInitialAnchoring v' = false;
  later_slice :
    0 ≤ start (_slice v) ≤ end_ (_slice v) →
    0 ≤ start (_slice v') ≤ end_ (_slice v');
  later_options : _options v' = _options v;
  later_devicePixelRatio : _devicePixelRatio v' = _devicePixelRatio v;
  later_rootElement : _rootElement v' = _rootElement v;
  later_viewport : _viewport v = true → _viewport v' = true
}.

Definition isMount (c : Call) : bool :=
  match c with
  | CallMount => true
  | _ => false
  end.

(** The notifications to the host: a change of the rendered items, a
    published positioning, an edge callback. *)
Definition isNotification (e : Event) : bool :=
  match e with
  | OnChange | OnPositionUpdate _ | OnEdge _ _ => true
  | _ => false
  end.

(** ** The earlier variant of the engine

    [index.ts] holds a second class [Virtualizer], the engine before the
    positioning and the proximity zones were added.  The anchor, the
    projection, the candidates, the slice adjustment and the height
    resolution are the same text as in the current class and are shared
    here.  The variant differs in what follows: it starts out not idle and
    has no [_updateScrollEnd]; a cycle does not re-measure the registered
    elements and publishes no positioning; a resize report is taken as it
    comes; the release handle deletes and unobserves unconditionally.  Its
    [_observedNodeToIdMap] is the field [_cells] of the state, its
    [_handleScroll] and [setList] are those of the current class. *)
Module Legacy.

Definition new_Virtualizer (opts : VirtualizerOptions)
    (rootElement : bool) (list : list ListItem.t) (dpr : number)
  : Virtualizer :=
  mkVirtualizer opts false rootElement list [] zero ∅ ∅ []
    (mkSlice 0 0) false true dpr None None.

Definition _updateRenderedItems (v : Virtualizer) (anchor : Anchor.t)
    (relativeViewportRect : Rectangle.t) : Virtualizer * list Event :=
  let candidates := _getRenderCandidates v anchor relativeViewportRect in
  let firstItemOverall := first (allItemsWithPositions candidates) in
  let lastItemOverall := last (allItemsWithPositions candidates) in
  let listHeight :=
    _getHeightBetweenItems firstItemOverall lastItemOverall in
  let listHeightWithHeadroom := listHeight in
  let areHeightsReadyForRender :=
    _getIsHeightsReady v (newRenderedItems candidates) in
  let sliceChanged := negb (deepCompare (_slice v) (slice_ candidates)) in
  let v1 :=
    set_listHeightWithHeadRoom listHeightWithHeadroom
      (set_renderedItems (newRenderedItems candidates) v) in
  let v2 :=
    if areHeightsReadyForRender then set_isInitialAnchoring false v1
    else v1 in
  let '(v3, changed) :=
    if _shouldTriggerOnChange v2 sliceChanged
    then (set_slice (slice_ candidates) v2, [OnChange])
    else (v2, []) in
  (set_lastUpdateReason None v3, changed).

Definition _update (env : Env) (v : Virtualizer) : Virtualizer * list Event :=
  if negb (_viewport v) then (v, [])
  else
    match _measureRelativeViewportRect env v with
    | None => (v, [])
    | Some relativeViewportRect =>
        match _getAnchor v with
        | Some anchor => _updateRenderedItems v anchor relativeViewportRect
        | None => (v, [])
        end
    end.

Definition _updateItemHeight (env : Env) (v : Virtualizer)
    (itemId : string) (height : number) : Virtualizer * list Event :=
  let v1 :=
    set_pendingHeightUpdates
      (<[itemId := height]> (_pendingHeightUpdates v)) v in
  let allRenderedHaveHeights :=
    forallb
      (λ r, has (_heights v1) (Anchor.itemId r)
            || has (_pendingHeightUpdates v1) (Anchor.itemId r))
      (_renderedItems v1) in
  if allRenderedHaveHeights
     || bool_decide (50 < size (_pendingHeightUpdates v1))%nat
  then
    let v2 :=
      set_heights
        (map_fold (λ id h heights, <[id := h]> heights) (_heights v1)
           (_pendingHeightUpdates v1)) v1 in
    let v3 := set_pendingHeightUpdates ∅ v2 in
    let v4 := set_lastUpdateReason (Some HEIGHT_CHANGE) v3 in
    _update env v4
  else (v1, []).

Definition _handleHeightChanged (env : Env) (v : Virtualizer)
    (itemId : string) (height : number) : Virtualizer * list Event :=
  if negb (strict_eq_opt (_heights v !! itemId) (Some height))
  then _updateItemHeight env v itemId height
  else (v, []).

(** [entry] is [None] for the call that only asks the observer to start
    watching the element, and otherwise the height of the entry's content
    rectangle, a number by the type of the entry.  An empty id is falsy. *)
Definition _measureElement (env : Env) (v : Virtualizer) (node : Node)
    (entry : option number) : Virtualizer * list Event :=
  match entry with
  | None => (v, [Observe node])
  | Some height =>
      match cells_get (_cells v) node with
      | Some itemId =>
          if bool_decide (itemId = EmptyString) then (v, [])
          else _handleHeightChanged env v itemId height
      | None => (v, [])
      end
  end.

Definition measureElement (env : Env) (v : Virtualizer)
    (node : option Node) (itemId : string) : Virtualizer * list Event :=
  match node with
  | None => (v, [])
  | Some node =>
      _measureElement env
        (set_cells (cells_set (_cells v) node itemId) v) node None
  end.

Definition releaseElement (v : Virtualizer) (node : Node)
  : Virtualizer * list Event :=
  (set_cells (cells_delete (_cells v) node) v, [UnObserve node]).

Definition mount (env : Env) (v : Virtualizer) : Virtualizer * list Event :=
  _update env (set_viewport true v).

Inductive Call :=
| CallMount
| CallMeasureElement (node : option Node) (itemId : string)
| CallRelease (node : Node)
| CallResized (node : Node) (height : number)
| CallSetList (newList : list ListItem.t)
| CallFrame
| CallScroll.

Definition call (env : Env) (v : Virtualizer) (c : Call)
  : Virtualizer * list Event :=
  match c with
  | CallMount => mount env v
  | CallMeasureElement node itemId => measureElement env v node itemId
  | CallRelease node => releaseElement v node
  | CallResized node height => _measureElement env v node (Some height)
  | CallSetList newList => setList v newList
  | CallFrame => _update env v
  | CallScroll => _handleScroll env v
  end.

Fixpoint calls (trace : list (Env * Call)) (v : Virtualizer)
  : Virtualizer * list Event :=
  match trace with
  | [] => (v, [])
  | (env, c) :: rest =>
      let '(v1, events1) := call env v c in
      let '(v2, events2) := calls rest v1 in
      (v2, events1 ++ events2)
  end.

End Legacy.

(** * Properties *)

(** ** Slice adjustment *)

(** C5: with the minimum buffer in use, a previous slice of width at most 50
    that contains the candidate slice is returned unchanged. *)
Theorem adjustSlice_keeps_containing_slice (prevSlice nextSlice : Slice) :
  contains prevSlice nextSlice →
  end_ prevSlice - start prevSlice ≤ 50 →
  _adjustSlice prevSlice nextSlice false = prevSlice.
Proof.
  intros [Hs He] Hw. unfold _adjustSlice, MAX_ITEMS_TO_RENDER_AT_ONCE.
  destruct (Z.leb_spec (start prevSlice) (start nextSlice)); [|lia].
  destruct (Z.leb_spec (end_ nextSlice) (end_ prevSlice)); [|lia].
  destruct (Z.leb_spec (end_ prevSlice - start prevSlice) 50); [|lia].
  reflexivity.
Qed.

(** The example of the specification: previous slice [[10,20)], candidate
    slice [[12,18)]. *)
Lemma adjustSlice_keeps_containing_slice_witness :
  contains (mkSlice 10 20) (mkSlice 12 18)
  ∧ end_ (mkSlice 10 20) - start (mkSlice 10 20) ≤ 50
  ∧ _adjustSlice (mkSlice 10 20) (mkSlice 12 18) false = mkSlice 10 20.
Proof.
  assert (Hc : contains (mkSlice 10 20) (mkSlice 12 18))
    by (unfold contains; simpl; lia).
  assert (Hw : end_ (mkSlice 10 20) - start (mkSlice 10 20) ≤ 50)
    by (simpl; lia).
  exact (conj Hc (conj Hw
           (adjustSlice_keeps_containing_slice _ _ Hc Hw))).
Defined.

(** The code's result in the overlapping case. *)
Lemma adjustSlice_overlapping (prevSlice nextSlice : Slice) :
  overlaps prevSlice nextSlice →
  ¬ contains prevSlice nextSlice →
  _adjustSlice prevSlice nextSlice false
  = mkSlice
      (Z.min (start prevSlice + expansion prevSlice nextSlice)
             (start nextSlice))
      (Z.max (end_ prevSlice - expansion prevSlice nextSlice)
             (end_ nextSlice)).
Proof.
  intros [Ho1 Ho2] Hn. unfold _adjustSlice, expansion, contains in *.
  destruct (Z.leb_spec (start prevSlice) (start nextSlice));
    destruct (Z.leb_spec (end_ nextSlice) (end_ prevSlice));
    simpl; try lia;
    destruct (Z.leb_spec (end_ prevSlice) (start nextSlice));
    destruct (Z.leb_spec (end_ nextSlice) (start prevSlice));
    simpl; try lia; reflexivity.
Qed.

(** C4, as the code has it: for overlapping slices where the candidate is
    not contained in the previous one, with the minimum buffer in use, the
    adjusted slice is [start = min(prevStart + expansion, candStart)],
    [end = max(prevEnd − expansion, candEnd)].  It contains the candidate
    slice, stays within the union of the two spans, and each boundary is at
    most [expansion] away from the previous slice's boundary. *)
Theorem adjustSlice_gradual (prevSlice nextSlice : Slice) :
  overlaps prevSlice nextSlice →
  ¬ contains prevSlice nextSlice →
  let e := expansion prevSlice nextSlice in
  let r := _adjustSlice prevSlice nextSlice false in
  r = mkSlice (Z.min (start prevSlice + e) (start nextSlice))
              (Z.max (end_ prevSlice - e) (end_ nextSlice))
  ∧ contains r nextSlice
  ∧ Z.min (start prevSlice) (start nextSlice) ≤ start r
  ∧ end_ r ≤ Z.max (end_ prevSlice) (end_ nextSlice)
  ∧ Z.abs (start r - start prevSlice) ≤ e
  ∧ Z.abs (end_ r - end_ prevSlice) ≤ e.
Proof.
  intros Ho Hn e r. subst r.
  rewrite (adjustSlice_overlapping _ _ Ho Hn). fold e.
  split; [reflexivity|].
  destruct Ho as [Ho1 Ho2].
  unfold contains in *. subst e. unfold expansion, max3. simpl. lia.
Qed.

Lemma adjustSlice_gradual_witness :
  overlaps (mkSlice 10 20) (mkSlice 18 21)
  ∧ ¬ contains (mkSlice 10 20) (mkSlice 18 21)
  ∧ _adjustSlice (mkSlice 10 20) (mkSlice 18 21) false = mkSlice 11 21.
Proof.
  assert (Ho : overlaps (mkSlice 10 20) (mkSlice 18 21))
    by (unfold overlaps; simpl; lia).
  assert (Hn : ¬ contains (mkSlice 10 20) (mkSlice 18 21))
    by (unfold contains; simpl; lia).
  exact (conj Ho (conj Hn (proj1 (adjustSlice_gradual _ _ Ho Hn)))).
Defined.

(** C4, as the specification states it, fails for the previous slice
    [[10,20)] and the candidate slice [[18,21)]: the slices overlap, the
    candidate is not contained, the expansion is 1; the code returns
    [[11,21)], which is neither the previous slice grown by the expansion,
    [[9,21)], nor that slice clamped to the candidate's span, [[18,21)], and
    it starts before the candidate does. *)
Lemma adjustSlice_gradual_counterexample :
  let prevSlice := mkSlice 10 20 in
  let nextSlice := mkSlice 18 21 in
  overlaps prevSlice nextSlice
  ∧ ¬ contains prevSlice nextSlice
  ∧ expansion prevSlice nextSlice = 1
  ∧ _adjustSlice prevSlice nextSlice false = mkSlice 11 21
  ∧ spec_grown prevSlice nextSlice = mkSlice 9 21
  ∧ spec_expandGradually prevSlice nextSlice = mkSlice 18 21
  ∧ _adjustSlice prevSlice nextSlice false
    ≠ spec_expandGradually prevSlice nextSlice
  ∧ _adjustSlice prevSlice nextSlice false ≠ spec_grown prevSlice nextSlice
  ∧ ¬ contains nextSlice (_adjustSlice prevSlice nextSlice false).
Proof.
  cbv zeta. unfold overlaps, contains. vm_compute.
  repeat split; try lia; try discriminate; try reflexivity.
  - intros [_ H]. apply H. reflexivity.
  - intros [H _]. apply H. reflexivity.
Qed.

(** ** Proximity zones *)

Lemma calculateProximityTrigger_table (prevProximity : option ProximityState)
    (prevListLength : option Z) (currentProximity : ProximityState)
    (currentListLength : Z) :
  calculateProximityTrigger prevProximity prevListLength
    currentProximity currentListLength
  = spec_triggerCause prevProximity currentProximity
      (negb (bool_decide (Some currentListLength = prevListLength))).
Proof.
  unfold calculateProximityTrigger, spec_triggerCause.
  destruct prevProximity as [[]|], currentProximity; reflexivity.
Qed.

Section ZoneManager.

Context {C : Type}.

Implicit Types (entry : ZoneEntry C) (zones : list (ZoneEntry C)).

Lemma handleZone_spec (p : Positioning.t) entry :
  handleZone p entry = (spec_entry p entry, spec_calls p entry).
Proof.
  unfold handleZone, spec_entry, spec_calls.
  rewrite calculateProximityTrigger_table. reflexivity.
Qed.

Lemma handlePositioningUpdate_spec zones (p : Positioning.t) :
  handlePositioningUpdate zones p
  = (map (spec_entry p) zones, concat (map (spec_calls p) zones)).
Proof.
  induction zones as [|entry zones IH]; [reflexivity|].
  cbn [handlePositioningUpdate]. rewrite handleZone_spec, IH. reflexivity.
Qed.

End ZoneManager.

(** C7: the derived trigger cause follows the table for every previous
    state, current proximity and list length, and a positioning update
    stores the current proximity and list length in every zone, whether or
    not the zone's callback was called; the callbacks called are exactly
    those the table gives a cause, in zone order. *)
Theorem proximity_trigger_table :
  (∀ prevListLength currentListLength,
     calculateProximityTrigger None prevListLength INSIDE currentListLength
     = Some INITIAL_POSITION)
  ∧ (∀ prevListLength currentListLength,
       calculateProximityTrigger (Some OUTSIDE) prevListLength INSIDE
         currentListLength
       = Some MOVEMENT)
  ∧ (∀ prevListLength currentListLength,
       calculateProximityTrigger (Some INSIDE) prevListLength INSIDE
         currentListLength
       = if bool_decide (Some currentListLength = prevListLength)
         then None else Some LIST_UPDATE)
  ∧ (∀ prevProximity prevListLength currentListLength,
       calculateProximityTrigger prevProximity prevListLength OUTSIDE
         currentListLength
       = None)
  ∧ (∀ (C : Type) (zones : list (ZoneEntry C)) (p : Positioning.t),
       let result := handlePositioningUpdate zones p in
       map state result.1
       = map (λ entry,
                mkZoneState (Some (currentProximityOf (zone entry) p))
                            (Some (Positioning.getListLength p)))
             zones
       ∧ map zone result.1 = map zone zones
       ∧ result.2
         = concat
             (map (λ entry,
                     match calculateProximityTrigger
                             (proximity (state entry))
                             (listLength (state entry))
                             (currentProximityOf (zone entry) p)
                             (Positioning.getListLength p) with
                     | Some cause => [(callback (zone entry), cause)]
                     | None => []
                     end)
                  zones)).
Proof.
  split; [|split; [|split; [|split]]].
  - reflexivity.
  - reflexivity.
  - intros. rewrite calculateProximityTrigger_table. simpl.
    destruct (bool_decide _); reflexivity.
  - intros. rewrite calculateProximityTrigger_table.
    destruct prevProximity as [[]|]; reflexivity.
  - intros C zones p result. subst result.
    rewrite handlePositioningUpdate_spec. simpl.
    rewrite !map_map. repeat split.
    + f_equal. apply map_ext. intros entry. unfold spec_calls.
      rewrite calculateProximityTrigger_table. reflexivity.
Qed.

(** ** Height resolution *)

Lemma this_Qc_of_Z (z : Z) : (this (Qc_of_Z z) == inject_Z z)%Q.
Proof. unfold Qc_of_Z. simpl. reflexivity. Qed.

Lemma this_plus (a b : Qc) : (this (a + b)%Qc == this a + this b)%Q.
Proof. apply Qred_correct. Qed.

Lemma this_mult (a b : Qc) : (this (a * b)%Qc == this a * this b)%Q.
Proof. apply Qred_correct. Qed.

Lemma this_opp (a : Qc) : (this (- a)%Qc == - this a)%Q.
Proof. apply Qred_correct. Qed.

Lemma Qceiling_Qc_of_Z (z : Z) : Qceiling (Qc_of_Z z) = z.
Proof. rewrite (Qceiling_comp _ _ (this_Qc_of_Z z)). apply Qceiling_Z. Qed.

Lemma Qc_le_ceiling (x : Qc) : (x ≤ Qc_of_Z (Qceiling x))%Qc.
Proof.
  unfold Qcle. rewrite this_Qc_of_Z. apply Qle_ceiling.
Qed.

Lemma Qc_ceiling_lt (x : Qc) : (Qc_of_Z (Qceiling x) < x + 1)%Qc.
Proof.
  assert (H := Qceiling_lt x).
  unfold Qclt. rewrite this_Qc_of_Z.
  change (this (x + 1)%Qc) with (Qred (x + 1%Qc)).
  rewrite Qred_correct.
  unfold Z.sub in H. rewrite inject_Z_plus in H.
  change (inject_Z (Z.opp 1)) with (-1 # 1)%Q in H.
  change (this 1%Qc) with 1%Q.
  generalize dependent (inject_Z (Qceiling x)). generalize (this x).
  intros q c Hc. lra.
Qed.

Lemma fl_exact (q : Qc) : Double.exact q = true → Double.fl q = Fin q.
Proof. intros H. unfold Double.fl. rewrite H. reflexivity. Qed.

Lemma exact_of_Z (z : Z) :
  Z.abs z < 2 ^ 53 → Double.exact (Qc_of_Z z) = true.
Proof.
  intros Hz. unfold Double.exact. cbn [Qc_of_Z this inject_Z Qnum Qden].
  cbn [Double.isPowerOfTwo andb].
  destruct (Z.ltb_spec (Z.abs z) (2 ^ 53)); [reflexivity|lia].
Qed.

(** The value of [roundToDevicePixelRatio] on finite arguments, for a
    non-zero ratio, when neither the product nor the quotient is rounded. *)
Lemma roundToDevicePixelRatio_exact (h d : Qc) :
  d ≠ 0%Qc →
  Double.exact (h * d) = true →
  Double.exact (Qc_of_Z (Qceiling (h * d)%Qc) / d) = true →
  roundToDevicePixelRatio (Fin h) (Fin d)
  = Fin (Qc_of_Z (Qceiling (h * d)%Qc) / d)%Qc.
Proof.
  intros Hd Hmul Hdiv.
  unfold roundToDevicePixelRatio, Double.mul, Double.div.
  cbn [mul Double.round]. rewrite (fl_exact _ Hmul).
  cbn [ceil div]. rewrite bool_decide_eq_false_2 by exact Hd.
  cbn [Double.round]. apply fl_exact. exact Hdiv.
Qed.

Lemma roundToDevicePixelRatio_bounds (h d : Qc) :
  (0 < d)%Qc →
  let r := (Qc_of_Z (Qceiling (h * d)%Qc) / d)%Qc in
  devicePixelAligned r d
  ∧ (h ≤ r)%Qc
  ∧ (r * d < h * d + 1)%Qc
  ∧ (r = h ↔ devicePixelAligned h d).
Proof.
  intros Hpos. cbv zeta.
  remember (Qc_of_Z (Qceiling (h * d)%Qc) / d)%Qc as r eqn:Er.
  assert (Hd : d ≠ 0%Qc).
  { intros ->. exact (Qclt_not_eq _ _ Hpos eq_refl). }
  assert (Hr : (r * d)%Qc = Qc_of_Z (Qceiling (h * d)%Qc)).
  { rewrite Er. apply test_field. exact Hd. }
  split; [eexists; exact Hr|].
  split.
  { apply Qcmult_lt_0_le_reg_r with d; [exact Hpos|].
    rewrite Hr. apply Qc_le_ceiling. }
  split; [rewrite Hr; apply Qc_ceiling_lt|].
  split.
  - intros <-. eexists. exact Hr.
  - intros [z Hz]. rewrite Er, Hz, Qceiling_Qc_of_Z, <- Hz.
    apply Qcdiv_mult_l. exact Hd.
Qed.

(** Closed goals over concrete engine states are decided by evaluation. *)
Ltac by_evaluation :=
  lazymatch goal with
  | |- ?P =>
      first
        [ apply (bool_decide_eq_true_1 P); vm_compute; reflexivity
        | apply (bool_decide_eq_false_1 _); vm_compute; reflexivity ]
  end.

Lemma getHeightForItemId_spec (v : Virtualizer) (itemId itemType : string) :
  _getHeightForItemId v itemId itemType
  = roundToDevicePixelRatio (spec_cssPixels v itemId itemType)
      (_devicePixelRatio v).
Proof.
  unfold _getHeightForItemId, spec_cssPixels.
  destruct (_heights v !! itemId) as [[]|]; reflexivity.
Qed.

(** The product is rounded to a double before [Math.ceil] sees it, and the
    quotient after.  The double nearest to 5/3, at a device pixel ratio of
    3, has the product 5 and is returned as it is, although three times its
    exact value is not a whole number; 16.28 at a ratio of 1.75 goes to
    16.571428571428573, and that value to 17.142857142857142. *)
Lemma roundToDevicePixelRatio_rounds_twice :
  let fiveThirds := Q2Qc (7505999378950827 # 4503599627370496) in
  let h := Q2Qc (572801577606185 # 35184372088832) in
  let r := Q2Qc (4664442471205157 # 281474976710656) in
  let r' := Q2Qc (4825285315039817 # 281474976710656) in
  roundToDevicePixelRatio (Fin fiveThirds) (of_Z 3) = Fin fiveThirds
  ∧ ¬ devicePixelAligned fiveThirds (Qc_of_Z 3)
  ∧ roundToDevicePixelRatio (Fin h) (Fin (Q2Qc (7 # 4))) = Fin r
  ∧ roundToDevicePixelRatio (Fin r) (Fin (Q2Qc (7 # 4))) = Fin r'
  ∧ r ≠ r'.
Proof.
  cbv zeta. split; [by_evaluation|]. split.
  { intros [z Hz]. apply (f_equal (λ q : Qc, Qden q)) in Hz.
    vm_compute in Hz. discriminate. }
  split; [by_evaluation|]. split; [by_evaluation|by_evaluation].
Qed.

(** C8, as the code has it: height resolution takes the committed height
    when a finite one is present and the assumed-height policy otherwise,
    and in both cases returns [Math.ceil(px * dpr) / dpr] of that value, in
    doubles.  For a positive device pixel ratio, when neither the product
    nor the quotient is rounded, the result is the least
    device-pixel-aligned value not below the CSS pixel value, and a
    committed height is returned unchanged exactly when it is already
    aligned. *)
Theorem resolvedHeight_rounds_up (v : Virtualizer)
    (itemId itemType : string) (d : Qc) :
  _devicePixelRatio v = Fin d →
  (0 < d)%Qc →
  _getHeightForItemId v itemId itemType
  = roundToDevicePixelRatio (spec_cssPixels v itemId itemType) (Fin d)
  ∧ ∀ h, spec_cssPixels v itemId itemType = Fin h →
      Double.exact (h * d) = true →
      Double.exact (Qc_of_Z (Qceiling (h * d)%Qc) / d) = true →
      ∃ r, _getHeightForItemId v itemId itemType = Fin r
           ∧ r = (Qc_of_Z (Qceiling (h * d)%Qc) / d)%Qc
           ∧ devicePixelAligned r d
           ∧ (h ≤ r)%Qc
           ∧ (r * d < h * d + 1)%Qc
           ∧ (r = h ↔ devicePixelAligned h d).
Proof.
  intros Hdpr Hpos. rewrite getHeightForItemId_spec, Hdpr.
  split; [reflexivity|]. intros h -> Hmul Hdiv.
  assert (Hd : d ≠ 0%Qc).
  { intros ->. exact (Qclt_not_eq _ _ Hpos eq_refl). }
  rewrite (roundToDevicePixelRatio_exact _ _ Hd Hmul Hdiv).
  eexists. split; [reflexivity|]. split; [reflexivity|].
  exact (roundToDevicePixelRatio_bounds h d Hpos).
Qed.

(** A committed height of 10.5 at a device pixel ratio of 1: the product
    10.5 and the quotient 11 are exact. *)
Lemma resolvedHeight_rounds_up_witness :
  (_devicePixelRatio fractionalHeightState = Fin (Qc_of_Z 1)
   ∧ (0 < Qc_of_Z 1)%Qc
   ∧ spec_cssPixels fractionalHeightState "a" EmptyString
     = Fin (Q2Qc (21 # 2))
   ∧ Double.exact (Q2Qc (21 # 2) * Qc_of_Z 1) = true
   ∧ Double.exact
       (Qc_of_Z (Qceiling (Q2Qc (21 # 2) * Qc_of_Z 1)%Qc) / Qc_of_Z 1)
     = true)
  ∧ ∃ r, _getHeightForItemId fractionalHeightState "a" EmptyString = Fin r
         ∧ r = (Qc_of_Z (Qceiling (Q2Qc (21 # 2) * Qc_of_Z 1)%Qc)
                / Qc_of_Z 1)%Qc
         ∧ devicePixelAligned r (Qc_of_Z 1)
         ∧ (Q2Qc (21 # 2) ≤ r)%Qc
         ∧ (r * Qc_of_Z 1 < Q2Qc (21 # 2) * Qc_of_Z 1 + 1)%Qc
         ∧ (r = Q2Qc (21 # 2)
            ↔ devicePixelAligned (Q2Qc (21 # 2)) (Qc_of_Z 1)).
Proof.
  assert (H1 : _devicePixelRatio fractionalHeightState = Fin (Qc_of_Z 1))
    by by_evaluation.
  assert (H2 : (0 < Qc_of_Z 1)%Qc) by reflexivity.
  assert (H3 : spec_cssPixels fractionalHeightState "a" EmptyString
               = Fin (Q2Qc (21 # 2))) by by_evaluation.
  assert (H4 : Double.exact (Q2Qc (21 # 2) * Qc_of_Z 1) = true)
    by (vm_compute; reflexivity).
  assert (H5 : Double.exact
                 (Qc_of_Z (Qceiling (Q2Qc (21 # 2) * Qc_of_Z 1)%Qc)
                  / Qc_of_Z 1) = true)
    by (vm_compute; reflexivity).
  exact (conj (conj H1 (conj H2 (conj H3 (conj H4 H5))))
           (proj2 (resolvedHeight_rounds_up _ "a" EmptyString _ H1 H2)
              _ H3 H4 H5)).
Defined.

(** C8, as the specification states it, fails for a committed height that
    is not aligned to the device pixels: an element read at 10.5 CSS pixels
    by the synchronous re-measurement, at a device pixel ratio of 1, has
    the committed height 10.5 and the resolved height 11. *)
Lemma resolvedHeight_counterexample :
  _heights fractionalHeightState !! "a" = Some (Fin (Q2Qc (21 # 2)))
  ∧ _devicePixelRatio fractionalHeightState = of_Z 1
  ∧ _getHeightForItemId fractionalHeightState "a" EmptyString = of_Z 11
  ∧ _getHeightForItemId fractionalHeightState "a" EmptyString
    ≠ Fin (Q2Qc (21 # 2)).
Proof.
  repeat split; by_evaluation.
Qed.

(** ** Element measurements *)

(** A raw height below zero is discarded, [-Infinity] included. *)
Lemma measureElement_negative_discarded (env : Env) (v : Virtualizer)
    (node : Node) (newHeightRaw : number) :
  lt newHeightRaw zero = true →
  _measureElement env v node
    (Some (mkEntryRO (Number newHeightRaw))) = (v, []).
Proof.
  intros Hneg. unfold _measureElement.
  destruct (cells_get (_cells v) node); [|reflexivity].
  simpl. rewrite Hneg. reflexivity.
Qed.

(** A report of [NaN] or [+Infinity] for a registered element passes the
    guard of [_measureElement] and is handed on as a new height. *)
Lemma measureElement_nonfinite_staged (env : Env) (v : Virtualizer)
    (node : Node) (itemId : string) (raw : number) :
  cells_get (_cells v) node = Some itemId →
  raw = NaN ∨ (raw = PInf ∧ _heights v !! itemId ≠ Some PInf) →
  _measureElement env v node (Some (mkEntryRO (Number raw)))
  = _updateItemHeight env v itemId raw.
Proof.
  intros Hcell Hraw. unfold _measureElement, _handleHeightChanged.
  rewrite Hcell. simpl.
  destruct Hraw as [->|[-> Hne]]; simpl.
  - destruct (_heights v !! itemId) as [[]|]; reflexivity.
  - destruct (_heights v !! itemId) as [[]|]; simpl; try reflexivity.
    congruence.
Qed.

(** C3 fails on the code for [NaN] and [+Infinity]: with two rendered,
    registered and unmeasured elements, a report of [NaN] (or of
    [+Infinity]) for the first one is not discarded but staged in the
    pending buffer, which was empty. *)
Theorem measureElement_nonfinite_not_discarded :
  let env := demoEnv Undefined in
  let report raw :=
    (_measureElement env registeredState 0%nat
       (Some (mkEntryRO (Number raw)))).1 in
  cells_get (_cells registeredState) 0%nat = Some "1"
  ∧ _pendingHeightUpdates registeredState = ∅
  ∧ _pendingHeightUpdates (report NaN) = {[ "1" := NaN ]}
  ∧ _pendingHeightUpdates (report PInf) = {[ "1" := PInf ]}
  ∧ _pendingHeightUpdates (report NInf) = ∅
  ∧ _pendingHeightUpdates (report (of_Z (-3))) = ∅
  ∧ _heights
      (_measureElement env (report NaN) 1%nat
         (Some (mkEntryRO (Number NaN)))).1 !! "1" = Some NaN.
Proof.
  cbv zeta. repeat split; by_evaluation.
Qed.

(** ** Anchor resolution *)

Lemma first_filter_split {A} (p : A → bool) (l : list A) :
  (List.filter p l = [] ∧ Forall (λ x, p x = false) l)
  ∨ (∃ before c after,
       l = before ++ c :: after
       ∧ Forall (λ x, p x = false) before
       ∧ p c = true
       ∧ first (List.filter p l) = Some c).
Proof.
  induction l as [|x l IH]; [left; split; [reflexivity|constructor]|].
  simpl. destruct (p x) eqn:Hx.
  - right. exists [], x, l. repeat split; [constructor|exact Hx].
  - destruct IH as [[Hnil Hall]|(before & c & after & -> & Hb & Hc & Hf)].
    + left. split; [exact Hnil|constructor; assumption].
    + right. exists (x :: before), c, after.
      repeat split; [constructor; assumption|exact Hc|exact Hf].
Qed.

Lemma itemMap_fold_lookup (items : list ListItem.t)
    (m : gmap string ListItem.t) (k : string) (it : ListItem.t) :
  foldl (λ map item, <[ListItem.id item := item]> map) m items !! k
  = Some it →
  (it ∈ items ∧ ListItem.id it = k) ∨ m !! k = Some it.
Proof.
  revert m. induction items as [|x items IH]; intros m H; simpl in H.
  - right. exact H.
  - destruct (IH _ H) as [[Hin Hid]|Hm].
    + left. split; [right; exact Hin|exact Hid].
    + destruct (decide (ListItem.id x = k)) as [Heq|Hne].
      * rewrite Heq, lookup_insert_eq in Hm. injection Hm as <-.
        left. split; [left|exact Heq].
      * rewrite lookup_insert_ne in Hm by exact Hne. right. exact Hm.
Qed.

(** The item the map gives for an id is an item of the list with that id. *)
Lemma itemMap_lookup (v : Virtualizer) (k : string) (it : ListItem.t) :
  _itemMap v !! k = Some it → it ∈ _list v ∧ ListItem.id it = k.
Proof.
  intros H. destruct (itemMap_fold_lookup _ _ _ _ H) as [Hin|Hm];
    [exact Hin|]. rewrite lookup_empty in Hm. discriminate.
Qed.

(** Every currently rendered item stems from a rendered entry whose id is
    in the list, and carries that entry's projected offset. *)
Lemma finalRenderedItems_origin (v : Virtualizer) (r : FinalRenderedItem) :
  r ∈ _getFinalRenderedItems v →
  ∃ state, state ∈ _renderedItems v
           ∧ item r ∈ _list v
           ∧ ListItem.id (item r) = Anchor.itemId state
           ∧ final_offset r = Anchor.offset state.
Proof.
  unfold _getFinalRenderedItems, _finalRenderedItems.
  induction (_renderedItems v) as [|state states IH]; simpl; intros Hin.
  - inversion Hin.
  - destruct (_itemMap v !! Anchor.itemId state) as [it|] eqn:Hm.
    + apply elem_of_cons in Hin as [->|Hin].
      * exists state. destruct (itemMap_lookup _ _ _ Hm) as [Hl Hid].
        simpl. repeat split; [left|exact Hl|exact Hid].
      * destruct (IH Hin) as (st & Hst & Hrest).
        exists st. split; [right; exact Hst|exact Hrest].
    + destruct (IH Hin) as (st & Hst & Hrest).
      exists st. split; [right; exact Hst|exact Hrest].
Qed.

Lemma finalRenderedItems_empty_list (v : Virtualizer) :
  _list v = [] → _getFinalRenderedItems v = [].
Proof.
  intros Hl. destruct (_getFinalRenderedItems v) as [|r rs] eqn:Hf;
    [reflexivity|].
  destruct (finalRenderedItems_origin v r) as (? & _ & Hin & _).
  { rewrite Hf. left. }
  rewrite Hl in Hin. inversion Hin.
Qed.

Lemma listItemFor_cons (x : ListItem.t) (items : list ListItem.t)
    (k : string) :
  listItemFor (x :: items) k
  = match listItemFor items k with
    | Some it => Some it
    | None => if bool_decide (ListItem.id x = k) then Some x else None
    end.
Proof.
  unfold listItemFor, last. cbn [List.filter].
  destruct (bool_decide (ListItem.id x = k)).
  - rewrite last_cons. reflexivity.
  - destruct (list.last _); reflexivity.
Qed.

Lemma listItemFor_id (items : list ListItem.t) (k : string)
    (it : ListItem.t) :
  listItemFor items k = Some it → ListItem.id it = k.
Proof.
  induction items as [|x items IH]; [discriminate|].
  rewrite listItemFor_cons.
  destruct (listItemFor items k); [exact IH|].
  destruct (bool_decide_reflect (ListItem.id x = k)); [|discriminate].
  intros [= <-]. assumption.
Qed.

Lemma itemMap_fold_last (items : list ListItem.t)
    (m : gmap string ListItem.t) (k : string) :
  foldl (λ map item, <[ListItem.id item := item]> map) m items !! k
  = match listItemFor items k with
    | Some it => Some it
    | None => m !! k
    end.
Proof.
  revert m. induction items as [|x items IH]; intros m; [reflexivity|].
  cbn [foldl]. rewrite IH, listItemFor_cons.
  destruct (listItemFor items k); [reflexivity|].
  destruct (bool_decide_reflect (ListItem.id x = k)) as [Heq|Hne].
  - rewrite Heq. apply lookup_insert_eq.
  - apply lookup_insert_ne. exact Hne.
Qed.

(** The item map gives, for an id, the last item of the list with it. *)
Lemma itemMap_listItemFor (v : Virtualizer) (k : string) :
  _itemMap v !! k = listItemFor (_list v) k.
Proof.
  unfold _itemMap. rewrite itemMap_fold_last.
  destruct (listItemFor (_list v) k); [reflexivity|apply lookup_empty].
Qed.

(** The first anchor candidate of the code is the first rendered entry
    that qualifies, joined with its list item. *)
Lemma first_candidate_split (v : Virtualizer) (rendered : list Anchor.t) :
  let candidates :=
    List.filter
      (λ r, ListItem.canBeAnchor (item r)
            && has (_heights v) (ListItem.id (item r)))
      (filterMap rendered (λ state,
         match _itemMap v !! Anchor.itemId state with
         | Some item => Some (mkFinal item (Anchor.offset state)
                                      (Anchor.visible state))
         | None => None
         end)) in
  (first candidates = None
   ∧ Forall (λ x, ¬ qualifiesAsAnchor v x) rendered)
  ∨ (∃ before r after c,
       rendered = before ++ r :: after
       ∧ Forall (λ x, ¬ qualifiesAsAnchor v x) before
       ∧ qualifiesAsAnchor v r
       ∧ first candidates = Some c
       ∧ ListItem.id (item c) = Anchor.itemId r
       ∧ final_offset c = Anchor.offset r).
Proof.
  cbv zeta. induction rendered as [|state rendered IH].
  - left. split; [reflexivity|constructor].
  - cbn [filterMap]. rewrite itemMap_listItemFor.
    destruct (listItemFor (_list v) (Anchor.itemId state)) as [it|] eqn:Hit.
    + pose proof (listItemFor_id _ _ _ Hit) as Hid.
      cbn [List.filter item]. rewrite Hid.
      destruct (ListItem.canBeAnchor it) eqn:Hc; cbn [andb].
      * destruct (has (_heights v) (Anchor.itemId state)) eqn:Hh;
          unfold has in Hh;
          [apply bool_decide_eq_true in Hh
          |apply bool_decide_eq_false in Hh].
        -- right. exists [], state, rendered. eexists.
           split; [reflexivity|]. split; [constructor|].
           split; [exists it; repeat split; assumption|].
           split; [reflexivity|]. split; [exact Hid|reflexivity].
        -- destruct IH as [[Hn Hall]|(b & r & a & c & -> & Hb & Hr & Hf)].
           ++ left. split; [exact Hn|]. constructor; [|exact Hall].
              intros (? & _ & _ & Hs). exact (Hh Hs).
           ++ right. exists (state :: b), r, a, c.
              split; [reflexivity|]. split; [|split; [exact Hr|exact Hf]].
              constructor; [|exact Hb].
              intros (? & _ & _ & Hs). exact (Hh Hs).
      * destruct IH as [[Hn Hall]|(b & r & a & c & -> & Hb & Hr & Hf)].
        -- left. split; [exact Hn|]. constructor; [|exact Hall].
           intros (it' & Hit' & Hc' & _). congruence.
        -- right. exists (state :: b), r, a, c.
           split; [reflexivity|]. split; [|split; [exact Hr|exact Hf]].
           constructor; [|exact Hb].
           intros (it' & Hit' & Hc' & _). congruence.
    + destruct IH as [[Hn Hall]|(b & r & a & c & -> & Hb & Hr & Hf)].
      * left. split; [exact Hn|]. constructor; [|exact Hall].
        intros (it' & Hit' & _). congruence.
      * right. exists (state :: b), r, a, c.
        split; [reflexivity|]. split; [|split; [exact Hr|exact Hf]].
        constructor; [|exact Hb].
        intros (it' & Hit' & _). congruence.
Qed.

Lemma getAnchor_resolution (v : Virtualizer) :
  AnchorResolution v (_getAnchor v).
Proof.
  unfold _getAnchor, _getAnchorItemCandidates, _getFinalRenderedItems,
    _finalRenderedItems. cbv zeta.
  destruct (first_candidate_split v (_renderedItems v))
    as [[Hnone Hall]|(before & r & after & c & Hsplit & Hb & Hr & Hf
                      & Hid & Hoff)];
    cbv zeta in *.
  - rewrite Hnone.
    destruct (_list v) as [|firstOverall rest] eqn:Hl; simpl.
    + apply anchor_none; assumption.
    + eapply anchor_first; eassumption.
  - rewrite Hf, Hid, Hoff. eapply anchor_rendered; eassumption.
Qed.

Lemma getAnchor_None (v : Virtualizer) :
  _getAnchor v = None ↔ _list v = [].
Proof.
  split.
  - unfold _getAnchor.
    destruct (first (_getAnchorItemCandidates v)); [discriminate|].
    destruct (_list v); [reflexivity|discriminate].
  - intros Hl. unfold _getAnchor, _getAnchorItemCandidates.
    rewrite (finalRenderedItems_empty_list v Hl), Hl. reflexivity.
Qed.

(** C2, as the code has it: anchor resolution follows the fallback chain
    over the rendered entries that are still in the list.  The anchor is
    the first rendered entry, in rendered order, whose id is in the current
    list, whose list item may be an anchor and whose height is committed,
    at the entry's projected offset; failing that the first item of the
    list at offset 0; failing that, on the empty list, nothing.  A cycle
    without an anchor stops after the synchronous re-measurement: it
    projects nothing, notifies nobody and leaves the rendered items, the
    slice, the list height and the proximity zones as they were. *)
Theorem anchor_fallback_chain (env : Env) (v : Virtualizer) :
  AnchorResolution v (_getAnchor v)
  ∧ (_getAnchor v = None →
     _list v = []
     ∧ (_update env v).2 = []
     ∧ _renderedItems (_update env v).1 = _renderedItems v
     ∧ _slice (_update env v).1 = _slice v
     ∧ _listHeightWithHeadRoom (_update env v).1 = _listHeightWithHeadRoom v
     ∧ _edgeProximity (_update env v).1 = _edgeProximity v).
Proof.
  split; [apply getAnchor_resolution|].
  intros Hnone. split; [apply getAnchor_None; exact Hnone|].
  unfold _update. rewrite Hnone.
  destruct (_viewport v); simpl; [|repeat split].
  destruct (_measureRelativeViewportRect env v); repeat split.
Qed.

(** The three rules at work.  With item 1 rendered but unmeasured and
    item 2 measured, the anchor is item 2 at its offset of 100; with
    nothing measured it is the first item of the list at offset 0; on the
    empty list there is none and the cycle is silent. *)
Lemma anchor_fallback_chain_witness :
  (Anchor.itemId <$> _renderedItems partlyMeasuredState = ["1"; "2"]
   ∧ AnchorResolution partlyMeasuredState
       (Some (Anchor.make2 "2" (of_Z 100)))
   ∧ _getAnchor partlyMeasuredState = Some (Anchor.make2 "2" (of_Z 100)))
  ∧ _getAnchor mountedState = Some (Anchor.make2 "1" zero)
  ∧ _getAnchor emptyListState = None
  ∧ (_update (demoEnv Undefined) emptyListState).2 = [].
Proof.
  assert (H1 : Anchor.itemId <$> _renderedItems partlyMeasuredState
               = ["1"; "2"]) by by_evaluation.
  assert (H2 : _getAnchor partlyMeasuredState
               = Some (Anchor.make2 "2" (of_Z 100))) by by_evaluation.
  assert (H3 : _getAnchor mountedState = Some (Anchor.make2 "1" zero))
    by by_evaluation.
  assert (H4 : _getAnchor emptyListState = None) by reflexivity.
  pose proof (proj1 (anchor_fallback_chain (demoEnv Undefined)
                       partlyMeasuredState)) as H5.
  rewrite H2 in H5.
  exact (conj (conj H1 (conj H5 H2))
           (conj H3
              (conj H4
                 (proj1 (proj2
                    (proj2 (anchor_fallback_chain (demoEnv Undefined) _)
                       H4)))))).
Defined.

(** C2, as the specification states it, fails once [setList] has replaced
    the list.  The rendered entries of the settled engine, items 1 and 2,
    may be anchors and have committed heights, but the new list does not
    have their ids: the anchor is the first item of the new list at offset
    0, and none of the rendered entries. *)
Lemma anchor_fallback_chain_counterexample :
  Anchor.itemId <$> _renderedItems relistedState = ["1"; "2"]
  ∧ Forall
      (λ r, Anchor.canBeAnchor r = true
            ∧ is_Some (_heights relistedState !! Anchor.itemId r))
      (_renderedItems relistedState)
  ∧ _getAnchor relistedState = Some (Anchor.make2 "9" zero)
  ∧ Forall
      (λ r, _getAnchor relistedState
            ≠ Some (Anchor.make2 (Anchor.itemId r) (Anchor.offset r)))
      (_renderedItems relistedState).
Proof. repeat split; by_evaluation. Qed.

(** The chain leaves no choice: the anchor it allows is unique. *)
Lemma first_qualifying_unique {A} (P : A → Prop)
    (before before' after after' : list A) (c c' : A) :
  before ++ c :: after = before' ++ c' :: after' →
  Forall (λ x, ¬ P x) before → P c →
  Forall (λ x, ¬ P x) before' → P c' →
  c = c'.
Proof.
  revert before'. induction before as [|x before IH];
    intros [|x' before'] Heq Hb Hc Hb' Hc'; simpl in Heq;
    injection Heq as Hx Hrest.
  - exact Hx.
  - subst x'. apply Forall_cons in Hb' as [Hn _]. contradiction.
  - subst x. apply Forall_cons in Hb as [Hn _]. contradiction.
  - apply Forall_cons in Hb as [_ Hb]. apply Forall_cons in Hb' as [_ Hb'].
    eapply IH; eassumption.
Qed.

Lemma AnchorResolution_deterministic (v : Virtualizer)
    (a b : option Anchor.t) :
  AnchorResolution v a → AnchorResolution v b → a = b.
Proof.
  intros Ha Hb.
  destruct Ha as [before c after Hsplit Hbefore Hc
                 |firstOverall rest Hnone Hl|Hnone Hl];
    destruct Hb as [before' c' after' Hsplit' Hbefore' Hc'
                   |firstOverall' rest' Hnone' Hl'|Hnone' Hl'].
  - rewrite Hsplit in Hsplit'.
    rewrite (first_qualifying_unique _ _ _ _ _ _ _ Hsplit'
               Hbefore Hc Hbefore' Hc'). reflexivity.
  - rewrite Hsplit in Hnone'. apply Forall_app in Hnone' as [_ Hn].
    apply Forall_cons in Hn as [Hn _]. contradiction.
  - rewrite Hsplit in Hnone'. apply Forall_app in Hnone' as [_ Hn].
    apply Forall_cons in Hn as [Hn _]. contradiction.
  - rewrite Hsplit' in Hnone. apply Forall_app in Hnone as [_ Hn].
    apply Forall_cons in Hn as [Hn _]. contradiction.
  - rewrite Hl in Hl'. injection Hl' as <- _. reflexivity.
  - rewrite Hl in Hl'. discriminate.
  - rewrite Hsplit' in Hnone. apply Forall_app in Hnone as [_ Hn].
    apply Forall_cons in Hn as [Hn _]. contradiction.
  - rewrite Hl in Hl'. discriminate.
  - reflexivity.
Qed.

(** ** The update cycle: what each step changes *)

Lemma deepCompare_eq (a b : Slice) : deepCompare a b = true ↔ a = b.
Proof.
  unfold deepCompare. rewrite andb_true_iff, !Z.eqb_eq.
  destruct a, b; simpl. split; [intros [-> ->]; reflexivity|].
  intros H; injection H; auto.
Qed.


Lemma updatePositioning_frame (v : Virtualizer)
    (renderedItems : list Anchor.t) (rect : Rectangle.t)
    (firstItem : option Anchor.t) (newListHeight : number) :
  withoutZones
    (_updatePositioning v renderedItems rect firstItem newListHeight).1
  = withoutZones v.
Proof.
  unfold _updatePositioning.
  destruct (_getIsHeightsReady v renderedItems); simpl; [|reflexivity].
  destruct (_edgeProximity v); [|reflexivity].
  destruct (handlePositioningUpdate _ _). reflexivity.
Qed.

(** The snapshot is published exactly when the heights are ready; the
    zones are evaluated against the published snapshot and only then. *)
Lemma updatePositioning_events (v : Virtualizer)
    (renderedItems : list Anchor.t) (rect : Rectangle.t)
    (firstItem : option Anchor.t) (newListHeight : number) :
  let result :=
    _updatePositioning v renderedItems rect firstItem newListHeight in
  if _getIsHeightsReady v renderedItems then
    ∃ p, Positioning.viewportRect p = rect
         ∧ Positioning.listLength p = Z.of_nat (length (_list v))
         ∧ (Positioning.renderedItems p).*1 = Anchor.itemId <$> renderedItems
         ∧ match _edgeProximity v with
           | Some zones =>
               result.2
               = OnPositionUpdate p
                 :: map (λ call, OnEdge call.1 call.2)
                      (handlePositioningUpdate zones p).2
               ∧ _edgeProximity result.1
                 = Some (handlePositioningUpdate zones p).1
           | None =>
               result.2 = [OnPositionUpdate p]
               ∧ _edgeProximity result.1 = None
           end
  else result = (v, []).
Proof.
  unfold _updatePositioning.
  destruct (_getIsHeightsReady v renderedItems); simpl; [|reflexivity].
  lazymatch goal with
  | |- context [OnPositionUpdate ?p] => exists p
  end.
  split; [reflexivity|]. split; [reflexivity|].
  split.
  { simpl. rewrite <- list_fmap_compose. reflexivity. }
  destruct (_edgeProximity v) eqn:He.
  - destruct (handlePositioningUpdate _ _) eqn:Hh. simpl. split; reflexivity.
  - split; [reflexivity|exact He].
Qed.

Lemma getIsHeightsReady_ext (v v' : Virtualizer) (r : list Anchor.t) :
  _heights v = _heights v' → _getIsHeightsReady v r = _getIsHeightsReady v' r.
Proof. intros H. unfold _getIsHeightsReady. rewrite H. reflexivity. Qed.

(** The state one projection leaves behind. *)
Lemma updateRenderedItems_state (v : Virtualizer) (anchor : Anchor.t)
    (rect : Rectangle.t) :
  let c := _getRenderCandidates v anchor rect in
  let v' := (_updateRenderedItems v anchor rect).1 in
  _renderedItems v' = newRenderedItems c
  ∧ _slice v' = slice_ c
  ∧ _isInitialAnchoring v'
    = (if _getIsHeightsReady v (newRenderedItems c) then false
       else _isInitialAnchoring v)
  ∧ _lastUpdateReason v' = None
  ∧ _heights v' = _heights v
  ∧ _pendingHeightUpdates v' = _pendingHeightUpdates v
  ∧ _list v' = _list v
  ∧ _options v' = _options v
  ∧ _devicePixelRatio v' = _devicePixelRatio v
  ∧ _cells v' = _cells v
  ∧ _isIdle v' = _isIdle v
  ∧ _viewport v' = _viewport v
  ∧ _rootElement v' = _rootElement v.
Proof.
  intros c v'. subst v'. unfold _updateRenderedItems. fold c.
  destruct (_getIsHeightsReady v (newRenderedItems c)) eqn:Hready;
    match goal with
    | |- context [if _shouldTriggerOnChange ?w ?b then _ else _] =>
        destruct (_shouldTriggerOnChange w b) eqn:Htrig
    end;
    match goal with
    | |- context [_updatePositioning ?w ?r ?rc ?f ?h] =>
        pose proof (updatePositioning_frame w r rc f h) as Hframe;
        destruct (_updatePositioning w r rc f h) as [v5 published]
    end; simpl in *;
    repeat match goal with
    | |- _ ∧ _ => split
    end;
    match goal with
    | Hframe : withoutZones ?w = _ |- ?f ?w = _ =>
        change (f w) with (f (withoutZones w)); rewrite Hframe; simpl
    end; try reflexivity.
  all: unfold _shouldTriggerOnChange in Htrig; simpl in Htrig;
    apply orb_false_iff in Htrig as [Hcmp _];
    apply negb_false_iff, deepCompare_eq in Hcmp; exact Hcmp.
Qed.

(** The notifications of one projection: the change notification, if any,
    then the publication, if any. *)
Lemma updateRenderedItems_events (v : Virtualizer) (anchor : Anchor.t)
    (rect : Rectangle.t) :
  let c := _getRenderCandidates v anchor rect in
  let result := _updateRenderedItems v anchor rect in
  ∃ (changed published : list Event) v4,
    result.2 = changed ++ published
    ∧ changed
      = (if _shouldTriggerOnChange v
              (negb (deepCompare (_slice v) (slice_ c)))
         then [OnChange] else [])
    ∧ _heights v4 = _heights v
    ∧ _list v4 = _list v
    ∧ _edgeProximity v4 = _edgeProximity v
    ∧ (result.1, published)
      = _updatePositioning v4 (newRenderedItems c) rect
          (first (allItemsWithPositions c))
          (_getHeightBetweenItems (first (allItemsWithPositions c))
             (last (allItemsWithPositions c))).
Proof.
  intros c result. subst result. unfold _updateRenderedItems. fold c.
  destruct (_getIsHeightsReady v (newRenderedItems c)) eqn:Hready;
    match goal with
    | |- context [if _shouldTriggerOnChange ?w ?b then _ else _] =>
        change (_shouldTriggerOnChange w b)
          with (_shouldTriggerOnChange v b);
        destruct (_shouldTriggerOnChange v b) eqn:Htrig
    end;
    match goal with
    | |- context [_updatePositioning ?w ?r ?rc ?f ?h] =>
        destruct (_updatePositioning w r rc f h) as [v5 published] eqn:Hp;
        exists (if _shouldTriggerOnChange v
                     (negb (deepCompare (_slice v) (slice_ c)))
                then [OnChange] else []), published, w
    end;
    repeat split; try reflexivity;
    first [ rewrite Htrig; reflexivity | rewrite Hp; reflexivity ].
Qed.

Lemma update_projects (env : Env) (v : Virtualizer) :
  cycleProjects v = true →
  ∃ anchor,
    _getAnchor v = Some anchor
    ∧ _update env v
      = _updateRenderedItems (_measureHeights env v) anchor
          (relativeViewportRectOf env).
Proof.
  unfold cycleProjects. rewrite !andb_true_iff, bool_decide_eq_true.
  intros [[Hv Hr] Hl].
  destruct (_getAnchor v) as [anchor|] eqn:Ha.
  - exists anchor. split; [reflexivity|].
    unfold _update, _measureRelativeViewportRect.
    rewrite Hv, Hr, Ha. reflexivity.
  - apply getAnchor_None in Ha. contradiction.
Qed.

Lemma update_aborts (env : Env) (v : Virtualizer) :
  cycleProjects v = false →
  (_update env v).2 = []
  ∧ ((_update env v).1 = v ∨ (_update env v).1 = _measureHeights env v).
Proof.
  unfold cycleProjects, _update, _measureRelativeViewportRect.
  destruct (_viewport v); simpl;
    [|intros _; split; [reflexivity|left; reflexivity]].
  rewrite andb_true_r.
  destruct (_rootElement v); simpl;
    [|intros _; split; [reflexivity|left; reflexivity]].
  rewrite bool_decide_eq_false. intros Hl.
  assert (Ha : _getAnchor v = None).
  { apply getAnchor_None. destruct (_list v); [reflexivity|].
    exfalso. apply Hl. discriminate. }
  rewrite Ha. split; [reflexivity|right; reflexivity].
Qed.

(** ** Publication of the positioning snapshot *)

(** What a cycle publishes, by the readiness test of the new rendered
    set. *)
Lemma update_publication (env : Env) (v : Virtualizer) :
  let result := _update env v in
  let ready := _getIsHeightsReady result.1 (_renderedItems result.1) in
  existsb isPositionUpdate result.2 = cycleProjects v && ready
  ∧ (existsb isEdgeCall result.2 = true → cycleProjects v && ready = true)
  ∧ (cycleProjects v && ready = true →
     ∃ changed p,
       result.2
       = changed ++ OnPositionUpdate p
           :: match _edgeProximity v with
              | Some zones =>
                  map (λ call, OnEdge call.1 call.2)
                    (handlePositioningUpdate zones p).2
              | None => []
              end
       ∧ Forall (λ e, e = OnChange) changed
       ∧ Positioning.viewportRect p = relativeViewportRectOf env
       ∧ (Positioning.renderedItems p).*1
         = Anchor.itemId <$> _renderedItems result.1
       ∧ _edgeProximity result.1
         = (λ zones, (handlePositioningUpdate zones p).1)
           <$> _edgeProximity v)
  ∧ (cycleProjects v && ready = false →
     Forall (λ e, e = OnChange) result.2
     ∧ _edgeProximity result.1 = _edgeProximity v).
Proof.
  intros result ready.
  destruct (cycleProjects v) eqn:Hproj; simpl.
  2:{ destruct (update_aborts env v Hproj) as [Hev Hst].
      subst result. rewrite Hev. simpl.
      repeat split; try discriminate; try constructor.
      destruct Hst as [->| ->]; reflexivity. }
  destruct (update_projects env v Hproj) as (anchor & Ha & Hupd).
  subst ready result. rewrite Hupd.
  set (v1 := _measureHeights env v).
  set (rect := relativeViewportRectOf env).
  destruct (updateRenderedItems_state v1 anchor rect)
    as (Hrend & _ & _ & _ & Hheights & _).
  destruct (updateRenderedItems_events v1 anchor rect)
    as (changed & published & v4 & Hev & Hchanged & Hh4 & Hl4 & He4 & Hpos).
  set (c := _getRenderCandidates v1 anchor rect) in *.
  rewrite Hrend.
  rewrite (getIsHeightsReady_ext _ v4 (newRenderedItems c))
    by (rewrite Hheights, Hh4; reflexivity).
  assert (Hch : Forall (λ e, e = OnChange) changed).
  { rewrite Hchanged.
    destruct (_shouldTriggerOnChange _ _); repeat constructor. }
  assert (Hch1 : existsb isPositionUpdate changed = false).
  { rewrite Hchanged. destruct (_shouldTriggerOnChange _ _); reflexivity. }
  assert (Hch2 : existsb isEdgeCall changed = false).
  { rewrite Hchanged. destruct (_shouldTriggerOnChange _ _); reflexivity. }
  rewrite Hev, !existsb_app, Hch1, Hch2. cbn [orb].
  pose proof (updatePositioning_events v4 (newRenderedItems c) rect
                (first (allItemsWithPositions c))
                (_getHeightBetweenItems (first (allItemsWithPositions c))
                   (last (allItemsWithPositions c)))) as Hp.
  cbv zeta in Hp. rewrite <- Hpos in Hp. cbn [fst snd] in Hp.
  destruct (_getIsHeightsReady v4 (newRenderedItems c)).
  - destruct Hp as (p & Hrect & _ & Hids & Hzones).
    rewrite He4 in Hzones.
    change (_edgeProximity v1) with (_edgeProximity v) in *.
    destruct (_edgeProximity v) as [zones|];
      destruct Hzones as [Hpub Hedge]; rewrite Hpub.
    + split; [reflexivity|]. split; [intros _; reflexivity|].
      split; [|discriminate].
      intros _. exists changed, p.
      split; [reflexivity|]. split; [exact Hch|]. split; [exact Hrect|].
      split; [exact Hids|exact Hedge].
    + split; [reflexivity|]. split; [intros _; reflexivity|].
      split; [|discriminate].
      intros _. exists changed, p.
      split; [reflexivity|]. split; [exact Hch|]. split; [exact Hrect|].
      split; [exact Hids|exact Hedge].
  - injection Hp as Hst Hpub. rewrite Hpub, app_nil_r.
    split; [reflexivity|]. split; [discriminate|].
    split; [discriminate|].
    intros _. split; [exact Hch|]. rewrite Hst. exact He4.
Qed.

Lemma getIsHeightsReady_reflect (v : Virtualizer)
    (rendered : list Anchor.t) :
  _getIsHeightsReady v rendered = true
  ↔ heightsCommitted (_heights v) rendered.
Proof.
  unfold _getIsHeightsReady, heightsCommitted.
  destruct rendered as [|r rendered]; [split; [left|]; reflexivity|].
  rewrite forallb_forall, Forall_forall. unfold has.
  split.
  - intros H. right. intros x Hx.
    apply (bool_decide_eq_true_1 _). apply H.
    apply list_elem_of_In. exact Hx.
  - intros [Hnil|H]; [discriminate|]. intros x Hx.
    apply bool_decide_eq_true_2. apply H. apply list_elem_of_In. exact Hx.
Qed.

(** C10, as the code has it: a cycle publishes the positioning snapshot,
    and feeds it to the proximity zones, exactly when it reaches the
    projection (viewport and root element there, list not empty) and the
    rendered set it leaves is empty or has a committed height for every
    item.  Otherwise it notifies at most a change, and the zones keep their
    state. *)
Theorem positioning_published_iff_heights_ready (env : Env)
    (v : Virtualizer) :
  let result := _update env v in
  let ready :=
    cycleProjects v = true
    ∧ heightsCommitted (_heights result.1) (_renderedItems result.1) in
  (existsb isPositionUpdate result.2 = true ↔ ready)
  ∧ (existsb isEdgeCall result.2 = true → ready)
  ∧ (ready →
     ∃ changed p,
       result.2
       = changed ++ OnPositionUpdate p
           :: match _edgeProximity v with
              | Some zones =>
                  map (λ call, OnEdge call.1 call.2)
                    (handlePositioningUpdate zones p).2
              | None => []
              end
       ∧ Forall (λ e, e = OnChange) changed
       ∧ Positioning.viewportRect p = relativeViewportRectOf env
       ∧ (Positioning.renderedItems p).*1
         = Anchor.itemId <$> _renderedItems result.1
       ∧ _edgeProximity result.1
         = (λ zones, (handlePositioningUpdate zones p).1)
           <$> _edgeProximity v)
  ∧ (¬ ready →
     Forall (λ e, e = OnChange) result.2
     ∧ _edgeProximity result.1 = _edgeProximity v).
Proof.
  intros result ready.
  destruct (update_publication env v) as (Hpub & Hedge & Hyes & Hno).
  cbv zeta in *. fold result in Hpub, Hedge, Hyes, Hno.
  assert (Hiff : cycleProjects v
                 && _getIsHeightsReady result.1 (_renderedItems result.1)
                 = true ↔ ready).
  { rewrite andb_true_iff, getIsHeightsReady_reflect. reflexivity. }
  split; [rewrite Hpub; exact Hiff|].
  split; [intros H; apply Hiff, Hedge, H|].
  split; [intros H; apply Hyes, Hiff, H|].
  intros H. apply Hno.
  destruct (cycleProjects v && _) eqn:E; [|reflexivity].
  exfalso. apply H, Hiff. reflexivity.
Qed.

(** The two registered elements measure 100: the cycle commits both
    heights, the rendered set it leaves is measured throughout and the
    snapshot is published.  While they are unmeasured the same cycle
    publishes nothing. *)
Lemma positioning_published_iff_heights_ready_witness :
  let env := demoEnv (Number (of_Z 100)) in
  let result := _update env registeredState in
  (cycleProjects registeredState = true
   ∧ heightsCommitted (_heights result.1) (_renderedItems result.1))
  ∧ (∃ changed p,
       result.2
       = changed ++ OnPositionUpdate p
           :: match _edgeProximity registeredState with
              | Some zones =>
                  map (λ call, OnEdge call.1 call.2)
                    (handlePositioningUpdate zones p).2
              | None => []
              end
       ∧ Forall (λ e, e = OnChange) changed
       ∧ Positioning.viewportRect p = relativeViewportRectOf env
       ∧ (Positioning.renderedItems p).*1
         = Anchor.itemId <$> _renderedItems result.1
       ∧ _edgeProximity result.1
         = (λ zones, (handlePositioningUpdate zones p).1)
           <$> _edgeProximity registeredState)
  ∧ existsb isPositionUpdate (_update (demoEnv Undefined) registeredState).2
    = false.
Proof.
  cbv zeta.
  assert (H : cycleProjects registeredState = true
              ∧ heightsCommitted
                  (_heights
                     (_update (demoEnv (Number (of_Z 100)))
                        registeredState).1)
                  (_renderedItems
                     (_update (demoEnv (Number (of_Z 100)))
                        registeredState).1)).
  { split; [reflexivity|by_evaluation]. }
  assert (Hnot : existsb isPositionUpdate
                   (_update (demoEnv Undefined) registeredState).2 = false)
    by (vm_compute; reflexivity).
  exact (conj H
           (conj
              (proj1 (proj2 (proj2
                 (positioning_published_iff_heights_ready
                    (demoEnv (Number (of_Z 100))) registeredState))) H)
              Hnot)).
Defined.

(** C10, as the specification states it, fails for a cycle that does not
    reach the projection.  After [setList] has emptied the list of the
    settled engine, the cycle stops for want of an anchor: the rendered
    set, items 1 and 2, has a committed height for every item, and nothing
    is published.  So it is for the mounted engine with an empty list,
    whose rendered set is empty. *)
Lemma positioning_published_counterexample :
  let result := _update (demoEnv (Number (of_Z 100))) clearedListState in
  let result' := _update (demoEnv Undefined) emptyListState in
  (Anchor.itemId <$> _renderedItems result.1 = ["1"; "2"]
   ∧ heightsCommitted (_heights result.1) (_renderedItems result.1)
   ∧ result.2 = [])
  ∧ (_renderedItems result'.1 = []
     ∧ heightsCommitted (_heights result'.1) (_renderedItems result'.1)
     ∧ result'.2 = []).
Proof. cbv zeta. repeat split; by_evaluation. Qed.

(** ** The height-change flush *)

Lemma map_fold_insert_union (heights pending : gmap string number) :
  map_fold (λ id h heights, <[id := h]> heights) heights pending
  = pending ∪ heights.
Proof.
  apply (map_fold_weak_ind
           (λ r (m : gmap string number), r = m ∪ heights)).
  - rewrite (left_id_L ∅ (∪)). reflexivity.
  - intros i x m r _ ->. rewrite insert_union_l. reflexivity.
Qed.

Lemma staged_lookup_other (pending : gmap string number)
    (reports : list (string * number)) (k : string) :
  k ∉ reports.*1 → staged pending reports !! k = pending !! k.
Proof.
  revert pending. induction reports as [|[id h] reports IH];
    intros pending Hk; [reflexivity|].
  simpl in *. apply not_elem_of_cons in Hk as [Hne Hk].
  unfold staged in *. simpl. rewrite IH by exact Hk.
  apply lookup_insert_ne. congruence.
Qed.

Lemma staged_size (pending : gmap string number)
    (reports : list (string * number)) :
  NoDup reports.*1 →
  (∀ k, k ∈ reports.*1 → pending !! k = None) →
  size (staged pending reports) = (size pending + length reports)%nat.
Proof.
  revert pending. induction reports as [|[id h] reports IH];
    intros pending Hnd Hfresh; simpl; [lia|].
  simpl in Hnd. apply NoDup_cons in Hnd as [Hid Hnd].
  unfold staged in *. simpl. rewrite IH; [| exact Hnd |].
  - rewrite map_size_insert_None; [lia|]. apply Hfresh. left.
  - intros k Hk. rewrite lookup_insert_ne; [apply Hfresh; right; exact Hk|].
    intros ->. contradiction.
Qed.

(** A staged height does not flush while some rendered item has neither a
    committed nor a pending height and the buffer holds at most 50
    entries. *)
Lemma updateItemHeight_stages (env : Env) (v : Virtualizer)
    (itemId : string) (height : number) (blocked : Anchor.t) :
  blocked ∈ _renderedItems v →
  _heights v !! Anchor.itemId blocked = None →
  _pendingHeightUpdates v !! Anchor.itemId blocked = None →
  Anchor.itemId blocked ≠ itemId →
  (size (<[itemId := height]> (_pendingHeightUpdates v)) ≤ 50)%nat →
  _updateItemHeight env v itemId height
  = (set_pendingHeightUpdates
       (<[itemId := height]> (_pendingHeightUpdates v)) v, []).
Proof.
  intros Hin Hh Hp Hne Hsize. unfold _updateItemHeight. cbv zeta.
  match goal with
  | |- (if ?all || ?big then _ else _) = _ =>
      assert (Hall : all = false); [|assert (Hbig : big = false)]
  end.
  - apply not_true_is_false. intros Hall.
    rewrite forallb_forall in Hall.
    specialize (Hall blocked). apply list_elem_of_In in Hin.
    specialize (Hall Hin). simpl in Hall. unfold has in Hall.
    apply orb_true_iff in Hall as [H|H]; apply bool_decide_eq_true in H.
    + rewrite Hh in H. destruct H; discriminate.
    + rewrite lookup_insert_ne, Hp in H by congruence.
      destruct H; discriminate.
  - apply bool_decide_eq_false. simpl. lia.
  - rewrite Hall, Hbig. reflexivity.
Qed.

(** Once the buffer exceeds 50 entries the staged height flushes: the
    pending entries are committed, the buffer is cleared, the cycle that
    follows is tagged. *)
Lemma updateItemHeight_flushes (env : Env) (v : Virtualizer)
    (itemId : string) (height : number) :
  (50 < size (<[itemId := height]> (_pendingHeightUpdates v)))%nat →
  ∃ vF,
    _updateItemHeight env v itemId height = _update env vF
    ∧ _heights vF
      = <[itemId := height]> (_pendingHeightUpdates v) ∪ _heights v
    ∧ _pendingHeightUpdates vF = ∅
    ∧ _lastUpdateReason vF = Some HEIGHT_CHANGE
    ∧ withoutLedger vF = withoutLedger v.
Proof.
  intros Hsize. unfold _updateItemHeight. cbv zeta.
  rewrite (bool_decide_eq_true_2 (50 < _)%nat) by exact Hsize.
  rewrite orb_true_r. eexists. split; [reflexivity|]. simpl.
  split; [apply map_fold_insert_union|].
  split; [reflexivity|]. split; reflexivity.
Qed.

Lemma stageHeights_no_flush (env : Env) (reports : list (string * number)) :
  ∀ (v : Virtualizer) (blocked : Anchor.t),
    blocked ∈ _renderedItems v →
    _heights v !! Anchor.itemId blocked = None →
    _pendingHeightUpdates v !! Anchor.itemId blocked = None →
    Anchor.itemId blocked ∉ reports.*1 →
    (size (_pendingHeightUpdates v) + length reports ≤ 50)%nat →
    stageHeights env v reports
    = (set_pendingHeightUpdates (staged (_pendingHeightUpdates v) reports) v,
       []).
Proof.
  induction reports as [|[id h] reports IH];
    intros v blocked Hin Hh Hp Hfresh Hsize.
  - simpl. destruct v; reflexivity.
  - simpl in *. apply not_elem_of_cons in Hfresh as [Hne Hfresh].
    assert (Hs : (size (<[id := h]> (_pendingHeightUpdates v))
                  ≤ S (size (_pendingHeightUpdates v)))%nat).
    { destruct (_pendingHeightUpdates v !! id) eqn:Hl.
      - rewrite map_size_insert_Some by eauto. lia.
      - rewrite map_size_insert_None by exact Hl. lia. }
    rewrite (updateItemHeight_stages env v id h blocked)
      by (try assumption; lia).
    rewrite (IH _ blocked); simpl; try assumption.
    + reflexivity.
    + rewrite lookup_insert_ne by congruence. exact Hp.
    + lia.
Qed.

(** A cycle tagged as a height change notifies the change whatever the
    slice; a tagged cycle that aborts keeps the tag. *)
Lemma tagged_cycle_notifies (env : Env) (v : Virtualizer) :
  _lastUpdateReason v = Some HEIGHT_CHANGE →
  (cycleProjects v = true →
   ∃ published, (_update env v).2 = OnChange :: published)
  ∧ (cycleProjects v = false →
     (_update env v).2 = []
     ∧ _lastUpdateReason (_update env v).1 = Some HEIGHT_CHANGE).
Proof.
  intros Htag. split; intros Hproj.
  - destruct (update_projects env v Hproj) as (anchor & _ & ->).
    destruct (updateRenderedItems_events (_measureHeights env v) anchor
                (relativeViewportRectOf env))
      as (changed & published & v4 & Hev & Hchanged & _).
    exists published. rewrite Hev, Hchanged.
    unfold _shouldTriggerOnChange. simpl. rewrite Htag.
    rewrite orb_true_r. reflexivity.
  - destruct (update_aborts env v Hproj) as [Hev [-> | ->]];
      (split; [exact Hev|exact Htag]).
Qed.

(** C6: starting from an empty pending buffer, while some rendered item has
    neither a committed nor a pending height, the first 50 of 51 distinct
    staged heights only fill the buffer; the 51st makes it exceed the
    threshold and flushes: every pending entry is committed, the buffer is
    cleared, the cycle that runs next is tagged as a height change, and the
    tag alone makes that cycle notify the change. *)
Theorem threshold_flush (env : Env) (v : Virtualizer)
    (reports : list (string * number)) (itemId : string) (height : number)
    (blocked : Anchor.t) :
  _pendingHeightUpdates v = ∅ →
  length reports = 50%nat →
  NoDup (itemId :: reports.*1) →
  blocked ∈ _renderedItems v →
  _heights v !! Anchor.itemId blocked = None →
  Anchor.itemId blocked ∉ itemId :: reports.*1 →
  let pending := <[itemId := height]> (staged ∅ reports) in
  let v50 := set_pendingHeightUpdates (staged ∅ reports) v in
  stageHeights env v reports = (v50, [])
  ∧ size pending = 51%nat
  ∧ ∃ vF,
      _updateItemHeight env v50 itemId height = _update env vF
      ∧ _heights vF = pending ∪ _heights v
      ∧ (∀ k h, pending !! k = Some h → _heights vF !! k = Some h)
      ∧ _pendingHeightUpdates vF = ∅
      ∧ _lastUpdateReason vF = Some HEIGHT_CHANGE
      ∧ withoutLedger vF = withoutLedger v
      ∧ _shouldTriggerOnChange vF false = true
      ∧ (cycleProjects v = true →
         ∃ published, (_update env vF).2 = OnChange :: published)
      ∧ (cycleProjects v = false →
         (_update env vF).2 = []
         ∧ _lastUpdateReason (_update env vF).1 = Some HEIGHT_CHANGE).
Proof.
  intros Hempty Hlen Hnd Hin Hh Hfresh pending v50.
  apply NoDup_cons in Hnd as [Hid Hnd].
  apply not_elem_of_cons in Hfresh as [Hne Hfresh].
  assert (Hsize50 : size (staged ∅ reports) = 50%nat).
  { rewrite staged_size; [rewrite map_size_empty; lia|exact Hnd|].
    intros k _. apply lookup_empty. }
  split.
  { subst v50. rewrite (stageHeights_no_flush env reports v blocked);
      try assumption.
    - rewrite Hempty. reflexivity.
    - rewrite Hempty. apply lookup_empty.
    - rewrite Hempty, map_size_empty. lia. }
  assert (Hsize : size pending = 51%nat).
  { subst pending. rewrite map_size_insert_None; [lia|].
    rewrite staged_lookup_other by exact Hid. apply lookup_empty. }
  split; [exact Hsize|].
  destruct (updateItemHeight_flushes env v50 itemId height)
    as (vF & Hrun & Hheights & Hpend & Htag & Hframe).
  { subst v50. simpl. fold pending. lia. }
  exists vF. subst v50. simpl in *. fold pending in Hheights.
  split; [exact Hrun|]. split; [exact Hheights|].
  split.
  { intros k h Hk. rewrite Hheights. apply lookup_union_Some_l. exact Hk. }
  split; [exact Hpend|]. split; [exact Htag|].
  split; [exact Hframe|].
  split.
  { unfold _shouldTriggerOnChange. rewrite Htag. reflexivity. }
  assert (Hproj : cycleProjects vF = cycleProjects v).
  { change (cycleProjects (withoutLedger vF)
            = cycleProjects (withoutLedger v)).
    rewrite Hframe. reflexivity. }
  rewrite <- Hproj. apply tagged_cycle_notifies. exact Htag.
Qed.

(** The burst of the scenario: 50 reports fill the buffer, the report for
    item 50 exceeds the threshold while item 59 is still unmeasured. *)
Lemma threshold_flush_witness :
  let env :=
    mkEnv (Rectangle.make zero (of_Z 6000)) zero zero (λ _, Undefined) in
  let blocked := Anchor.make "59" (of_Z 5900) false true (of_Z 100) in
  (_pendingHeightUpdates burstState = ∅
   ∧ length burstReports = 50%nat
   ∧ NoDup ("50" :: burstReports.*1)
   ∧ blocked ∈ _renderedItems burstState
   ∧ _heights burstState !! Anchor.itemId blocked = None
   ∧ Anchor.itemId blocked ∉ "50" :: burstReports.*1)
  ∧ stageHeights env burstState burstReports
    = (set_pendingHeightUpdates (staged ∅ burstReports) burstState, [])
  ∧ size (<["50" := of_Z 80]> (staged ∅ burstReports)) = 51%nat.
Proof.
  cbv zeta.
  assert (H1 : _pendingHeightUpdates burstState = ∅) by by_evaluation.
  assert (H2 : length burstReports = 50%nat) by reflexivity.
  assert (H3 : NoDup ("50" :: burstReports.*1)) by by_evaluation.
  assert (H4 : Anchor.make "59" (of_Z 5900) false true (of_Z 100)
               ∈ _renderedItems burstState) by by_evaluation.
  assert (H5 : _heights burstState !! "59" = None) by by_evaluation.
  assert (H6 : "59" ∉ "50" :: burstReports.*1) by by_evaluation.
  pose proof (threshold_flush
                (mkEnv (Rectangle.make zero (of_Z 6000)) zero zero
                   (λ _, Undefined))
                burstState burstReports "50" (of_Z 80)
                (Anchor.make "59" (of_Z 5900) false true (of_Z 100))
                H1 H2 H3 H4 H5 H6) as H.
  cbv zeta in H.
  exact (conj (conj H1 (conj H2 (conj H3 (conj H4 (conj H5 H6)))))
           (conj (proj1 H) (proj1 (proj2 H)))).
Defined.

(** ** The candidate slice and the persisted slice *)

Lemma alloc_from_elem {A} (l : list A) (n : nat) (x : obj A) :
  x ∈ alloc_from n l → (n ≤ x.1 < n + length l)%nat.
Proof.
  revert n. induction l as [|a l IH]; intros n Hin; simpl in *.
  - inversion Hin.
  - apply elem_of_cons in Hin as [->|Hin]; [simpl; lia|].
    apply IH in Hin. lia.
Qed.

(** [indexOf] finds an object of the array at its own position. *)
Lemma findIndex_alloc_from {A} (l : list A) (n : nat) (i : Z) (x : obj A) :
  x ∈ alloc_from n l →
  findIndex_from (λ y : obj A, bool_decide (y.1 = x.1)) i (alloc_from n l)
  = i + Z.of_nat (x.1 - n).
Proof.
  revert n i. induction l as [|a l IH]; intros n i Hin; simpl in *.
  - inversion Hin.
  - apply elem_of_cons in Hin as [->|Hin]; simpl.
    + rewrite bool_decide_eq_true_2 by reflexivity. lia.
    + pose proof (alloc_from_elem _ _ _ Hin) as Hb.
      rewrite bool_decide_eq_false_2 by lia.
      rewrite IH by exact Hin. lia.
Qed.

Lemma indexOf_alloc {A} (l : list A) (x : obj A) :
  x ∈ alloc l → indexOf (alloc l) x = Z.of_nat x.1.
Proof.
  intros Hin. unfold indexOf, findIndex, alloc.
  rewrite findIndex_alloc_from by exact Hin. lia.
Qed.

Lemma filter_elem {A} (p : A → bool) (l : list A) (x : A) :
  x ∈ List.filter p l → x ∈ l.
Proof.
  rewrite !list_elem_of_In, filter_In. intros [H _]. exact H.
Qed.

Lemma first_elem {A} (l : list A) (x : A) : first l = Some x → x ∈ l.
Proof. destruct l; [discriminate|]. intros [= ->]. left. Qed.

Lemma last_elem {A} (l : list A) (x : A) : last l = Some x → x ∈ l.
Proof.
  unfold last. intros H. apply last_Some in H as [l' ->].
  apply elem_of_app. right. left.
Qed.

(** The objects that pass a filter keep their order: the first one was
    allocated no later than the last one. *)
Lemma filter_alloc_from_ordered {A} (p : obj A → bool) (l : list A) :
  ∀ (n : nat) (f la : obj A),
    first (List.filter p (alloc_from n l)) = Some f →
    last (List.filter p (alloc_from n l)) = Some la →
    (f.1 ≤ la.1)%nat.
Proof.
  induction l as [|a l IH]; intros n f la Hf Hl; simpl in *.
  - discriminate.
  - destruct (p (n, a)).
    + injection Hf as <-. simpl.
      apply last_elem in Hl. apply elem_of_cons in Hl as [->|Hl];
        [simpl; lia|].
      apply filter_elem, alloc_from_elem in Hl. lia.
    + eapply IH; eassumption.
Qed.

(** The candidate slice is a well-formed range of the projection. *)
Lemma candidateSliceFor_bounds (allItems : list Anchor.t)
    (targetBufferRect : Rectangle.t) :
  let candidateSlice := candidateSliceFor allItems targetBufferRect in
  0 ≤ start candidateSlice
  ∧ start candidateSlice ≤ end_ candidateSlice
  ∧ end_ candidateSlice ≤ Z.of_nat (length allItems).
Proof.
  unfold candidateSliceFor, _getSliceForCandidates.
  match goal with
  | |- context [first ?l] => set (candidates := l)
  end.
  destruct (first candidates) as [f|] eqn:Hf;
    destruct (last candidates) as [la|] eqn:Hl; simpl.
  - pose proof (filter_alloc_from_ordered _ _ _ _ _ Hf Hl) as Hord.
    apply first_elem, filter_elem in Hf.
    apply last_elem, filter_elem in Hl.
    rewrite !indexOf_alloc by assumption.
    apply alloc_from_elem in Hl. lia.
  - destruct candidates; [discriminate|].
    unfold last in Hl. rewrite last_cons in Hl.
    destruct (list.last candidates); discriminate.
  - destruct candidates; discriminate.
  - lia.
Qed.

Lemma placeItems_length (v : Virtualizer) (items : list ListItem.t)
    (currentOffset : number) :
  length (placeItems v currentOffset items) = length items.
Proof.
  revert currentOffset. induction items; intros; simpl; [|rewrite IHitems];
    reflexivity.
Qed.

Lemma getItemsWithPositions_length (v : Virtualizer) (anchor : Anchor.t) :
  length (_getItemsWithPositions v anchor) = length (_list v).
Proof.
  unfold _getItemsWithPositions. destruct (_list v) eqn:Hl; [reflexivity|].
  rewrite placeItems_length. reflexivity.
Qed.

Lemma adjustSlice_bounds (prevSlice nextSlice : Slice)
    (usePreferredBuffer : bool) (n : Z) :
  0 ≤ start prevSlice ≤ end_ prevSlice →
  0 ≤ start nextSlice ≤ end_ nextSlice →
  end_ nextSlice ≤ n →
  let r := _adjustSlice prevSlice nextSlice usePreferredBuffer in
  0 ≤ start r ≤ end_ r ∧ end_ r ≤ Z.max (end_ prevSlice) n.
Proof.
  intros Hp Hn Hb. unfold _adjustSlice, max3, MAX_ITEMS_TO_RENDER_AT_ONCE.
  destruct usePreferredBuffer; simpl; [lia|].
  repeat match goal with
  | |- context [?a <=? ?b] => destruct (Z.leb_spec a b); simpl
  end; lia.
Qed.

(** The slice a projection persists. *)
Lemma update_slice (env : Env) (v : Virtualizer) :
  cycleProjects v = true →
  ∃ allItems targetBufferRect,
    length allItems = length (_list v)
    ∧ _slice (_update env v).1
      = _adjustSlice (_slice v)
          (candidateSliceFor allItems targetBufferRect)
          (usesPreferredBuffer v)
    ∧ _list (_update env v).1 = _list v.
Proof.
  intros Hproj.
  destruct (update_projects env v Hproj) as (anchor & _ & ->).
  destruct (updateRenderedItems_state (_measureHeights env v) anchor
              (relativeViewportRectOf env))
    as (_ & Hslice & _ & _ & _ & _ & Hlist & _).
  rewrite Hslice, Hlist. unfold _getRenderCandidates. cbn [slice_].
  eexists _, _. split; [|split; reflexivity].
  apply (getItemsWithPositions_length (_measureHeights env v)).
Qed.

Lemma update_slice_bounds (env : Env) (v : Virtualizer) :
  0 ≤ start (_slice v) ≤ end_ (_slice v) →
  0 ≤ start (_slice (_update env v).1) ≤ end_ (_slice (_update env v).1)
  ∧ end_ (_slice (_update env v).1)
    ≤ Z.max (end_ (_slice v)) (Z.of_nat (length (_list v))).
Proof.
  intros Hprev.
  destruct (cycleProjects v) eqn:Hproj.
  - destruct (update_slice env v Hproj)
      as (allItems & rect & Hlen & -> & _).
    pose proof (candidateSliceFor_bounds allItems rect) as Hc.
    cbv zeta in Hc. rewrite Hlen in Hc.
    exact (adjustSlice_bounds (_slice v)
             (candidateSliceFor allItems rect)
             (usesPreferredBuffer v)
             (Z.of_nat (length (_list v))) Hprev
             (conj (proj1 Hc) (proj1 (proj2 Hc)))
             (proj2 (proj2 Hc))).
  - destruct (update_aborts env v Hproj) as [_ [-> | ->]]; simpl; lia.
Qed.

Lemma update_list (env : Env) (v : Virtualizer) :
  _list (_update env v).1 = _list v.
Proof.
  destruct (cycleProjects v) eqn:Hproj.
  - destruct (update_slice env v Hproj) as (_ & _ & _ & _ & H). exact H.
  - destruct (update_aborts env v Hproj) as [_ [-> | ->]]; reflexivity.
Qed.

(** C1, as the code has it: a cycle keeps [0 ≤ start ≤ end], and the end
    of the persisted slice is at most the larger of the list length and the
    end of the slice persisted before the cycle; the slice is within the
    list after every cycle that starts from a slice that was. *)
Theorem slice_bounds_after_cycle (env : Env) (v : Virtualizer) :
  0 ≤ start (_slice v) ≤ end_ (_slice v) →
  let v' := (_update env v).1 in
  let n := Z.of_nat (length (_list v')) in
  0 ≤ start (_slice v') ≤ end_ (_slice v')
  ∧ end_ (_slice v') ≤ Z.max (end_ (_slice v)) n
  ∧ (end_ (_slice v) ≤ n → end_ (_slice v') ≤ n).
Proof.
  intros Hprev v' n. subst v' n.
  pose proof (update_slice_bounds env v Hprev) as H.
  rewrite update_list. lia.
Qed.

(** From the initial slice, in the initial-anchoring phase. *)
Lemma slice_bounds_after_cycle_witness :
  0 ≤ start (_slice mountedState) ≤ end_ (_slice mountedState)
  ∧ 0 ≤ start (_slice (_update (demoEnv Undefined) mountedState).1)
      ≤ end_ (_slice (_update (demoEnv Undefined) mountedState).1).
Proof.
  assert (H : 0 ≤ start (_slice mountedState) ≤ end_ (_slice mountedState))
    by (vm_compute; split; discriminate).
  exact (conj H
           (proj1 (slice_bounds_after_cycle (demoEnv Undefined)
                     mountedState H))).
Defined.

(** The range invariant is inductive over cycles: as long as the list is
    not replaced, the persisted slice of an engine that starts within its
    list, as a new engine does, stays within it. *)
Lemma sliceWithinList_new (opts : VirtualizerOptions) (rootElement : bool)
    (list : list ListItem.t) (dpr : number) :
  sliceWithinList (new_Virtualizer opts rootElement list dpr).
Proof. unfold sliceWithinList. simpl. lia. Qed.

Lemma sliceWithinList_runCycles (envs : list Env) (v : Virtualizer) :
  sliceWithinList v → sliceWithinList (runCycles envs v).
Proof.
  revert v. induction envs as [|env envs IH]; intros v Hv; [exact Hv|].
  simpl. apply IH. destruct Hv as [Hv Hend].
  pose proof (update_slice_bounds env v Hv) as H.
  unfold sliceWithinList. rewrite update_list. lia.
Qed.

(** C1, as the specification states it, fails after a [setList] with a
    shorter list: the mounted engine renders the slice [[0,2)] of four
    items; once the list is replaced by a one-item list, the candidate slice
    [[0,1)] is contained in the persisted one, which the cycle keeps. *)
Lemma slice_bounds_counterexample :
  (1 ≤ length (_list shrunkListState))%nat
  ∧ _slice shrunkListState = mkSlice 0 2
  ∧ Z.of_nat (length (_list shrunkListState)) = 1
  ∧ ¬ (end_ (_slice shrunkListState)
       ≤ Z.of_nat (length (_list shrunkListState))).
Proof.
  repeat split; by_evaluation.
Qed.

(** ** Running the cycle twice *)

(** *** Arithmetic of offsets *)

Lemma add_zero_r (s : number) : add s (Fin 0%Qc) = s.
Proof. destruct s; simpl; try reflexivity. rewrite Qcplus_0_r. reflexivity. Qed.

Lemma add_assoc_Fin (s : number) (a b : Qc) :
  add (add s (Fin a)) (Fin b) = add s (Fin (a + b)%Qc).
Proof.
  destruct s; simpl; try reflexivity. rewrite Qcplus_assoc. reflexivity.
Qed.


(** *** The synchronous re-measurement is idempotent *)

Lemma strict_eq_true (x y : number) : strict_eq x y = true → x = y.
Proof.
  destruct x; simpl; try discriminate; apply bool_decide_eq_true_1.
Qed.

Lemma measureCell_applyUpdate (env : Env) (heights : gmap string number)
    (cell : Node * string) :
  measureCell env heights cell = applyUpdate heights (cellUpdate env cell).
Proof.
  destruct cell as [node itemId]. unfold measureCell, cellUpdate. simpl.
  destruct (node_height env node) as [|measured]; [reflexivity|].
  destruct (lt measured zero); [reflexivity|]. simpl.
  destruct (heights !! itemId) as [current|] eqn:Hc; simpl; [|reflexivity].
  destruct (strict_eq measured current) eqn:Heq; simpl; [|reflexivity].
  apply strict_eq_true in Heq. subst current.
  symmetry. apply insert_id. exact Hc.
Qed.

Lemma measureCells_union (env : Env) (cells : list (Node * string))
    (heights : gmap string number) :
  foldl (measureCell env) heights cells
  = foldl (measureCell env) ∅ cells ∪ heights.
Proof.
  revert heights. induction cells as [|cell cells IH]; intros heights; simpl.
  - rewrite (left_id_L ∅ (∪)). reflexivity.
  - rewrite IH. rewrite (IH (measureCell env ∅ cell)).
    rewrite !measureCell_applyUpdate.
    destruct (cellUpdate env cell) as [[itemId height]|]; simpl.
    + rewrite <- (assoc_L (∪)). f_equal.
      rewrite <- insert_union_l, (left_id_L ∅ (∪)). reflexivity.
    + rewrite (right_id_L ∅ (∪)). reflexivity.
Qed.


(** *** Slice adjustment is idempotent *)


(** *** Projection and distance from the top *)

Lemma wholeNumber_Fin (x : number) (z : Z) :
  wholeNumber x = Some z → ∃ q, x = Fin q.
Proof.
  destruct x as [| | |q]; try discriminate. intros _. exists q. reflexivity.
Qed.

Lemma exactLayout_finiteOn (v : Virtualizer) :
  exactLayout v = true → finiteOn v (_list v).
Proof.
  unfold exactLayout.
  destruct (mapM _ (_list v)) as [heights|] eqn:Hh; [|discriminate].
  intros _. apply mapM_Some in Hh. unfold finiteOn.
  revert Hh. generalize (_list v). intros items Hh.
  induction Hh as [|item h items hs Hitem _ IH]; constructor; [|exact IH].
  destruct (wholeNumber_Fin _ _ Hitem) as [q Hq].
  unfold heightQ. rewrite Hq. reflexivity.
Qed.

Lemma exactLayout_finiteOffset (v : Virtualizer) :
  exactLayout v = true → Forall finiteOffset (_renderedItems v).
Proof.
  unfold exactLayout.
  destruct (mapM _ (_list v)) as [heights|]; [|discriminate].
  destruct (mapM _ (_renderedItems v)) as [offsets|] eqn:Ho; [|discriminate].
  intros _. apply mapM_Some in Ho.
  revert Ho. generalize (_renderedItems v). intros rendered Ho.
  induction Ho as [|r o rendered os Hr _ IH]; constructor; [|exact IH].
  exact (wholeNumber_Fin _ _ Hr).
Qed.

Lemma fold_heights (v : Virtualizer) (items : list ListItem.t) (a : Qc) :
  finiteOn v items →
  foldl (λ sum item, add sum (_getHeight v item)) (Fin a) items
  = Fin (a + sumQ v items)%Qc.
Proof.
  intros Hfin. revert a.
  induction Hfin as [|item items Hitem _ IH]; intros a.
  - simpl. rewrite Qcplus_0_r. reflexivity.
  - cbn [foldl]. rewrite Hitem. cbn [add]. rewrite IH.
    unfold sumQ. cbn [foldr]. rewrite Qcplus_assoc. reflexivity.
Qed.

Lemma findIndex_from_app {A} (p : A → bool) (before after : list A) (x : A)
    (i : Z) :
  Forall (λ y, p y = false) before →
  p x = true →
  findIndex_from p i (before ++ x :: after) = i + Z.of_nat (length before).
Proof.
  intros Hb Hx. revert i. induction Hb as [|y before Hy Hb IH]; intros i;
    simpl.
  - rewrite Hx. lia.
  - rewrite Hy, IH. lia.
Qed.

Lemma slice_prefix {A} (before after : list A) :
  slice (before ++ after) 0 (Z.of_nat (length before)) = before.
Proof.
  unfold slice. simpl.
  destruct (Z.ltb_spec (Z.of_nat (length before)) 0); [lia|].
  rewrite (Z.min_l (Z.of_nat (length before)))
    by (rewrite length_app; lia).
  rewrite (Z.min_l 0) by lia.
  rewrite Z.sub_0_r, Nat2Z.id. simpl.
  apply take_app_length.
Qed.

Lemma slice_subset {A} (l : list A) (s e : Z) (x : A) :
  x ∈ slice l s e → x ∈ l.
Proof.
  unfold slice. intros H.
  apply elem_of_take in H as (i & H & _).
  rewrite lookup_drop in H. eapply list_elem_of_lookup_2. exact H.
Qed.

Lemma finiteOn_slice (v : Virtualizer) (items : list ListItem.t) (s e : Z) :
  finiteOn v items → finiteOn v (slice items s e).
Proof.
  unfold finiteOn. rewrite !Forall_forall. intros H item Hin.
  apply H. eapply slice_subset. exact Hin.
Qed.

(** The distance from the top of the list to an item is the total height of
    the items before it. *)
Lemma getDistanceFromTop_split (v : Virtualizer)
    (before after : list ListItem.t) (it : ListItem.t) :
  finiteOn v (_list v) →
  _list v = before ++ it :: after →
  ListItem.id it ∉ ListItem.id <$> before →
  _getDistanceFromTop v (ListItem.id it) = Fin (sumQ v before).
Proof.
  intros Hfin Hl Hfresh.
  assert (Hb : finiteOn v before).
  { unfold finiteOn in *. rewrite Hl in Hfin.
    apply Forall_app in Hfin as [Hb _]. exact Hb. }
  unfold _getDistanceFromTop, findIndex.
  rewrite Hl, findIndex_from_app.
  - destruct before as [|b before]; [reflexivity|].
    destruct (Z.leb_spec (0 + Z.of_nat (length (b :: before))) 0);
      [simpl in *; lia|].
    rewrite Z.add_0_l, slice_prefix.
    change zero with (Fin 0%Qc). rewrite fold_heights by exact Hb.
    rewrite Qcplus_0_l. reflexivity.
  - apply Forall_forall. intros y Hy. apply bool_decide_eq_false_2.
    intros Heq. apply Hfresh. rewrite <- Heq.
    apply list_elem_of_fmap_2. exact Hy.
  - apply bool_decide_eq_true_2. reflexivity.
Qed.

(** Every projected item sits at the starting offset plus the total height
    of the items before it. *)
Lemma placeItems_offset (v : Virtualizer) (items : list ListItem.t) :
  finiteOn v items →
  ∀ (s : number) (a : Anchor.t),
    a ∈ placeItems v s items →
    ∃ before it after,
      items = before ++ it :: after
      ∧ Anchor.itemId a = ListItem.id it
      ∧ Anchor.offset a = add s (Fin (sumQ v before)).
Proof.
  intros Hfin. induction Hfin as [|item items Hitem _ IH]; intros s a Hin;
    cbn [placeItems] in Hin.
  - inversion Hin.
  - apply elem_of_cons in Hin as [->|Hin].
    + exists [], item, items. simpl. rewrite add_zero_r. repeat split.
    + rewrite Hitem in Hin.
      destruct (IH _ _ Hin) as (before & it & after & -> & Hid & Hoff).
      exists (item :: before), it, after.
      rewrite Hoff, add_assoc_Fin. repeat split. exact Hid.
Qed.

(** *** States that project alike *)

Lemma getHeight_ext (v v' : Virtualizer) (item : ListItem.t) :
  sameLayout v v' → _getHeight v item = _getHeight v' item.
Proof.
  intros (Hh & Ho & Hd & _).
  unfold _getHeight, _getHeightForItemId. rewrite Hh, Ho, Hd. reflexivity.
Qed.




(** The fields of the render candidates, by the projection and the target
    rectangle they are computed from. *)
Lemma getRenderCandidates_fields (v : Virtualizer) (anchor : Anchor.t)
    (rect : Rectangle.t) :
  let allItems := _getItemsWithPositions v anchor in
  let target :=
    _getBufferedViewport rect
      (if usesPreferredBuffer v
       then preferredOffscreenToViewportRatio (_options v)
       else minimumOffscreenToViewportRatio (_options v)) in
  let newSlice :=
    _adjustSlice (_slice v) (candidateSliceFor allItems target)
      (usesPreferredBuffer v) in
  _getRenderCandidates v anchor rect
  = mkCandidates allItems
      (slice allItems (start newSlice) (end_ newSlice)) newSlice
      (usesPreferredBuffer v).
Proof.
  unfold _getRenderCandidates, usesPreferredBuffer.
  destruct (_isIdle v && negb (_isInitialAnchoring v)); reflexivity.
Qed.

(** *** The second run projects like the first *)


Lemma getItemsWithPositions_place (v : Virtualizer) (anchor : Anchor.t) :
  _getItemsWithPositions v anchor
  = placeItems v
      (sub (Anchor.offset anchor)
           (_getDistanceFromTop v (Anchor.itemId anchor)))
      (_list v).
Proof.
  unfold _getItemsWithPositions. destruct (_list v); reflexivity.
Qed.


Lemma first_candidate_origin (v : Virtualizer) (c : FinalRenderedItem) :
  first (_getAnchorItemCandidates v) = Some c →
  ∃ state, state ∈ _renderedItems v
           ∧ ListItem.id (item c) = Anchor.itemId state
           ∧ final_offset c = Anchor.offset state.
Proof.
  intros Hf. apply first_elem in Hf.
  unfold _getAnchorItemCandidates in Hf. apply filter_elem in Hf.
  destruct (finalRenderedItems_origin v c Hf) as (state & Hin & _ & Hid & Ho).
  exists state. repeat split; assumption.
Qed.




(** The condition on the anchor cannot be dropped.  Here the first cycle
    anchors on item 3 and jumps to the slice [[0,1)], whose only item cannot
    be an anchor; the second cycle, in the same environment and with the
    same buffer, falls back to the first item at offset 0 and moves the
    rendered item from offset -300 to offset 0. *)
Lemma second_cycle_reanchors :
  let v1 := (_update reanchoringEnv reanchoringState).1 in
  let v2 := (_update reanchoringEnv v1).1 in
  usesPreferredBuffer v1 = usesPreferredBuffer reanchoringState
  ∧ NoDup (ListItem.id <$> _list reanchoringState)
  ∧ _getAnchor reanchoringState = Some (Anchor.make2 "3" (of_Z 200))
  ∧ _getAnchorItemCandidates v1 = []
  ∧ _slice v1 = mkSlice 0 1
  ∧ _slice v2 = mkSlice 0 1
  ∧ Anchor.offset <$> _renderedItems v1 = [of_Z (-300)]
  ∧ Anchor.offset <$> _renderedItems v2 = [of_Z 0].
Proof.
  cbv zeta. repeat split; by_evaluation.
Qed.

(** * Further properties of the engine *)

(** ** The projection *)

Lemma placeItems_ids (v : Virtualizer) (items : list ListItem.t)
    (s : number) :
  Anchor.itemId <$> placeItems v s items = ListItem.id <$> items.
Proof.
  revert s. induction items as [|item items IH]; intros s; simpl;
    [reflexivity|]. rewrite IH. reflexivity.
Qed.

Lemma placeItems_projected (v : Virtualizer) (items : list ListItem.t)
    (s : number) (a : Anchor.t) :
  a ∈ placeItems v s items →
  ∃ item, item ∈ items ∧ a = projectedItem v item (Anchor.offset a).
Proof.
  revert s. induction items as [|item items IH]; intros s Hin;
    simpl in Hin.
  - inversion Hin.
  - apply elem_of_cons in Hin as [->|Hin].
    + exists item. split; [left|reflexivity].
    + destruct (IH _ Hin) as (it & Hit & Ha).
      exists it. split; [right; exact Hit|exact Ha].
Qed.

Lemma placeItems_tiles (v : Virtualizer) (items : list ListItem.t)
    (s : number) :
  tiles (placeItems v s items).
Proof.
  revert s. induction items as [|item items IH]; intros s i a b Ha Hb.
  - discriminate.
  - destruct i as [|i]; simpl in Ha, Hb.
    + injection Ha as <-. destruct items as [|item' items];
        [discriminate|]. simpl in Hb. injection Hb as <-. reflexivity.
    + eapply IH; eassumption.
Qed.

(** X1: the projection has one item per list item, in list order and with
    the list's ids; each projected item carries the item's anchor flag, its
    resolved height and whether its height is committed; and consecutive
    items are contiguous, each starting where the previous one ends. *)
Theorem projection_tiles_list (v : Virtualizer) (anchor : Anchor.t) :
  let allItems := _getItemsWithPositions v anchor in
  Anchor.itemId <$> allItems = ListItem.id <$> _list v
  ∧ Forall
      (λ a, ∃ item, item ∈ _list v
                    ∧ a = projectedItem v item (Anchor.offset a))
      allItems
  ∧ tiles allItems.
Proof.
  cbv zeta. rewrite getItemsWithPositions_place.
  split; [apply placeItems_ids|]. split; [|apply placeItems_tiles].
  apply Forall_forall. intros a Ha. eapply placeItems_projected. exact Ha.
Qed.

Lemma add_sub_cancel_Fin (x : number) (p : Qc) :
  add (sub x (Fin p)) (Fin p) = x.
Proof. destruct x; simpl; try reflexivity. f_equal. ring. Qed.

(** The item of the projection that has the anchor's id sits at the
    anchor's offset. *)
Lemma anchor_item_offset (v : Virtualizer) (anchor a : Anchor.t) :
  finiteOn v (_list v) →
  NoDup (ListItem.id <$> _list v) →
  a ∈ _getItemsWithPositions v anchor →
  Anchor.itemId a = Anchor.itemId anchor →
  Anchor.offset a = Anchor.offset anchor.
Proof.
  intros Hfin Hnd Hin Hid. rewrite getItemsWithPositions_place in Hin.
  destruct (placeItems_offset v (_list v) Hfin _ a Hin)
    as (before & it & after & Hl & Hida & Hoff).
  rewrite Hoff, <- Hid, Hida.
  rewrite (getDistanceFromTop_split v before after it Hfin Hl).
  - apply add_sub_cancel_Fin.
  - rewrite Hl, fmap_app, fmap_cons in Hnd.
    apply NoDup_app in Hnd as (_ & Hdisj & _).
    intros Hin'. apply (Hdisj _ Hin'). left.
Qed.

Lemma updateRenderedItems_listHeight (v : Virtualizer) (anchor : Anchor.t)
    (rect : Rectangle.t) :
  let allItems := _getItemsWithPositions v anchor in
  _listHeightWithHeadRoom (_updateRenderedItems v anchor rect).1
  = _getHeightBetweenItems (first allItems) (last allItems).
Proof.
  cbv zeta. unfold _updateRenderedItems.
  set (c := _getRenderCandidates v anchor rect).
  change (_getItemsWithPositions v anchor) with (allItemsWithPositions c).
  destruct (_getIsHeightsReady v (newRenderedItems c));
    match goal with
    | |- context [if _shouldTriggerOnChange ?w ?b then _ else _] =>
        destruct (_shouldTriggerOnChange w b)
    end;
    match goal with
    | |- context [_updatePositioning ?w ?r ?rc ?f ?h] =>
        pose proof (updatePositioning_frame w r rc f h) as Hframe;
        destruct (_updatePositioning w r rc f h) as [v5 published]
    end; simpl in *;
    match goal with
    | Hframe : withoutZones ?w = _ |- ?f ?w = _ =>
        change (f w) with (f (withoutZones w)); rewrite Hframe; reflexivity
    end.
Qed.

(** What a projecting cycle leaves behind, by the projection it made. *)
Lemma update_renderedItems (env : Env) (v : Virtualizer) :
  cycleProjects v = true →
  ∃ anchor,
    _getAnchor v = Some anchor
    ∧ let v0 := _measureHeights env v in
      let v' := (_update env v).1 in
      let allItems := _getItemsWithPositions v0 anchor in
      _renderedItems v'
      = slice allItems (start (_slice v')) (end_ (_slice v'))
      ∧ _heights v' = _heights v0
      ∧ _list v' = _list v
      ∧ _options v' = _options v
      ∧ _devicePixelRatio v' = _devicePixelRatio v
      ∧ _listHeightWithHeadRoom v'
        = _getHeightBetweenItems (first allItems) (last allItems).
Proof.
  intros Hproj.
  destruct (update_projects env v Hproj) as (anchor & Ha & Hupd).
  exists anchor. split; [exact Ha|]. cbv zeta. rewrite Hupd.
  destruct (updateRenderedItems_state (_measureHeights env v) anchor
              (relativeViewportRectOf env))
    as (Hrend & Hslice & _ & _ & Hh & _ & Hl & Ho & Hd & _).
  rewrite Hrend, Hslice, Hh, Hl, Ho, Hd.
  rewrite getRenderCandidates_fields. cbn [newRenderedItems slice_].
  repeat split.
  apply updateRenderedItems_listHeight.
Qed.

(** X2: a cycle never moves its anchor: with unique ids and a layout in
    whole pixels that doubles add and subtract without rounding, a rendered
    item that has the id of the anchor the cycle resolved is rendered at
    the anchor's offset.  (The cycle places that item at [(o - d) + d],
    for the anchor's offset [o] and its distance [d] from the top of the
    list; outside such layouts doubles need not bring that back to
    [o].) *)
Theorem cycle_keeps_anchor_offset (env : Env) (v : Virtualizer)
    (anchor r : Anchor.t) :
  exactLayout (_measureHeights env v) = true →
  NoDup (ListItem.id <$> _list v) →
  cycleProjects v = true →
  _getAnchor v = Some anchor →
  r ∈ _renderedItems (_update env v).1 →
  Anchor.itemId r = Anchor.itemId anchor →
  Anchor.offset r = Anchor.offset anchor.
Proof.
  intros Hfin Hnd Hproj Ha Hin Hid.
  destruct (update_renderedItems env v Hproj)
    as (anchor' & Ha' & Hrend & _).
  rewrite Ha in Ha'. injection Ha' as <-.
  cbv zeta in Hrend. rewrite Hrend in Hin. apply slice_subset in Hin.
  apply (anchor_item_offset (_measureHeights env v) anchor r);
    [apply exactLayout_finiteOn; exact Hfin|assumption..].
Qed.

(** The settled engine: item 1 is the anchor at offset 0 and is rendered
    there after the cycle. *)
Lemma cycle_keeps_anchor_offset_witness :
  let env := demoEnv (Number (of_Z 100)) in
  let anchor := Anchor.make2 "1" zero in
  let r := Anchor.make "1" zero true true (of_Z 100) in
  (exactLayout (_measureHeights env settledState) = true
   ∧ NoDup (ListItem.id <$> _list settledState)
   ∧ cycleProjects settledState = true
   ∧ _getAnchor settledState = Some anchor
   ∧ r ∈ _renderedItems (_update env settledState).1
   ∧ Anchor.itemId r = Anchor.itemId anchor)
  ∧ Anchor.offset r = Anchor.offset anchor.
Proof.
  cbv zeta.
  assert (H1 : exactLayout
                 (_measureHeights (demoEnv (Number (of_Z 100)))
                    settledState) = true) by (vm_compute; reflexivity).
  assert (H2 : NoDup (ListItem.id <$> _list settledState))
    by by_evaluation.
  assert (H3 : cycleProjects settledState = true) by reflexivity.
  assert (H4 : _getAnchor settledState = Some (Anchor.make2 "1" zero))
    by by_evaluation.
  assert (H5 : Anchor.make "1" zero true true (of_Z 100)
               ∈ _renderedItems
                   (_update (demoEnv (Number (of_Z 100))) settledState).1)
    by by_evaluation.
  assert (H6 : Anchor.itemId (Anchor.make "1" zero true true (of_Z 100))
               = Anchor.itemId (Anchor.make2 "1" zero)) by reflexivity.
  exact (conj (conj H1 (conj H2 (conj H3 (conj H4 (conj H5 H6)))))
           (cycle_keeps_anchor_offset _ _ _ _ H1 H2 H3 H4 H5 H6)).
Defined.

Lemma fmap_slice {A B} (f : A → B) (l : list A) (s e : Z) :
  f <$> slice l s e = slice (f <$> l) s e.
Proof.
  unfold slice. rewrite length_fmap, fmap_take, fmap_drop. reflexivity.
Qed.

Lemma slice_lookup {A} (l : list A) (s e : Z) (i : nat) (x : A) :
  slice l s e !! i = Some x →
  ∃ k, l !! (k + i)%nat = Some x
       ∧ ∀ j y, slice l s e !! j = Some y → l !! (k + j)%nat = Some y.
Proof.
  unfold slice. intros H. eexists. split.
  - apply lookup_take_Some in H as [H _]. rewrite lookup_drop in H. exact H.
  - intros j y Hj. apply lookup_take_Some in Hj as [Hj _].
    rewrite lookup_drop in Hj. exact Hj.
Qed.

Lemma tiles_slice (l : list Anchor.t) (s e : Z) :
  tiles l → tiles (slice l s e).
Proof.
  intros Ht i a b Ha Hb.
  destruct (slice_lookup l s e i a Ha) as (k & Hka & Hall).
  apply Hall in Hb. replace (k + S i)%nat with (S (k + i)) in Hb by lia.
  eapply Ht; eassumption.
Qed.

(** X3: after a cycle that projects, the rendered items are the items of
    the list in the range of the persisted slice, in list order; each
    carries its item's anchor flag and resolved height and is visible
    exactly when its height is committed; and they are contiguous. *)
Theorem rendered_items_are_slice_of_list (env : Env) (v : Virtualizer) :
  cycleProjects v = true →
  let v' := (_update env v).1 in
  Anchor.itemId <$> _renderedItems v'
  = ListItem.id <$> slice (_list v') (start (_slice v')) (end_ (_slice v'))
  ∧ Forall
      (λ r, ∃ item, item ∈ _list v'
                    ∧ r = projectedItem v' item (Anchor.offset r))
      (_renderedItems v')
  ∧ tiles (_renderedItems v').
Proof.
  intros Hproj v'. subst v'.
  destruct (update_renderedItems env v Hproj)
    as (anchor & _ & Hrend & Hh & Hl & Ho & Hd & _).
  cbv zeta in *. rewrite Hrend.
  set (v0 := _measureHeights env v) in *.
  assert (Hsame : sameLayout v0 (_update env v).1).
  { repeat split; symmetry; assumption. }
  split; [|split].
  - rewrite fmap_slice, fmap_slice. f_equal.
    rewrite getItemsWithPositions_place, placeItems_ids, Hl. reflexivity.
  - apply Forall_forall. intros r Hr. apply slice_subset in Hr.
    rewrite getItemsWithPositions_place in Hr.
    destruct (placeItems_projected _ _ _ _ Hr) as (item & Hit & Hitem).
    exists item. split; [rewrite Hl; exact Hit|].
    rewrite Hitem at 1. unfold projectedItem.
    rewrite (getHeight_ext v0 _ item Hsame), Hh. reflexivity.
  - apply tiles_slice. rewrite getItemsWithPositions_place.
    apply placeItems_tiles.
Qed.

(** The settled engine: the cycle renders all four items. *)
Lemma rendered_items_are_slice_of_list_witness :
  let v' := (_update (demoEnv (Number (of_Z 100))) settledState).1 in
  cycleProjects settledState = true
  ∧ Anchor.itemId <$> _renderedItems v'
    = ListItem.id <$> slice (_list v') (start (_slice v')) (end_ (_slice v'))
  ∧ _slice v' = mkSlice 0 4.
Proof.
  cbv zeta.
  assert (H : cycleProjects settledState = true) by reflexivity.
  assert (Hs : _slice (_update (demoEnv (Number (of_Z 100)))
                         settledState).1 = mkSlice 0 4) by by_evaluation.
  exact (conj H
           (conj (proj1 (rendered_items_are_slice_of_list
                           (demoEnv (Number (of_Z 100))) settledState H))
                 Hs)).
Defined.

(** ** The height of the list *)

Lemma sumQ_app (v : Virtualizer) (l1 l2 : list ListItem.t) :
  sumQ v (l1 ++ l2) = (sumQ v l1 + sumQ v l2)%Qc.
Proof.
  induction l1 as [|x l1 IH]; simpl.
  - rewrite Qcplus_0_l. reflexivity.
  - unfold sumQ in *. simpl. rewrite IH. ring.
Qed.

Lemma sumQ_ext (v v' : Virtualizer) (items : list ListItem.t) :
  sameLayout v v' → sumQ v items = sumQ v' items.
Proof.
  intros Hsame. induction items as [|x items IH]; [reflexivity|].
  unfold sumQ in *. simpl. rewrite IH. unfold heightQ.
  rewrite (getHeight_ext v v' x Hsame). reflexivity.
Qed.

Lemma placeItems_app (v : Virtualizer) (l1 l2 : list ListItem.t)
    (s : number) :
  finiteOn v l1 →
  placeItems v s (l1 ++ l2)
  = placeItems v s l1 ++ placeItems v (add s (Fin (sumQ v l1))) l2.
Proof.
  intros Hfin. revert s.
  induction Hfin as [|x l1 Hx _ IH]; intros s; simpl.
  - rewrite add_zero_r. reflexivity.
  - rewrite IH. do 3 f_equal.
    rewrite Hx, add_assoc_Fin. reflexivity.
Qed.

(** The span between the first and the last projected item is the total
    of the resolved heights, whatever the finite offset the projection
    starts from. *)
Lemma placeItems_span (v : Virtualizer) (items : list ListItem.t) (o : Qc) :
  finiteOn v items →
  let allItems := placeItems v (Fin o) items in
  _getHeightBetweenItems (first allItems) (last allItems)
  = Fin (sumQ v items).
Proof.
  intros Hfin. cbv zeta.
  destruct items as [|x items]; [reflexivity|].
  destruct (exists_last (l := x :: items)) as (front & y & Hsplit);
    [discriminate|].
  unfold finiteOn in Hfin. rewrite Hsplit in Hfin.
  apply Forall_app in Hfin as [Hfront Hy].
  apply Forall_cons in Hy as [Hy _].
  rewrite Hsplit at 2 3. rewrite placeItems_app by exact Hfront.
  unfold last. cbn [placeItems]. rewrite last_snoc.
  unfold first. cbn [head].
  unfold _getHeightBetweenItems, _getRenderedItemRectInViewport,
    Anchor.getRectInViewport, Rectangle.getBottom, Rectangle.getTop.
  cbn [Anchor.offset Anchor.height Rectangle._top Rectangle._height].
  rewrite Hy.
  rewrite sumQ_app. cbn [add sub neg].
  change (sumQ v [y]) with (heightQ v y + 0)%Qc.
  f_equal. ring.
Qed.

Lemma getAnchor_finiteOffset (v : Virtualizer) (anchor : Anchor.t) :
  Forall finiteOffset (_renderedItems v) →
  _getAnchor v = Some anchor →
  finiteOffset anchor.
Proof.
  intros Hall Ha. unfold _getAnchor in Ha.
  destruct (first (_getAnchorItemCandidates v)) as [c|] eqn:Hc.
  - injection Ha as <-.
    destruct (first_candidate_origin v c Hc) as (state & Hin & _ & Hoff).
    rewrite Forall_forall in Hall. destruct (Hall _ Hin) as [o Ho].
    exists o. simpl. rewrite Hoff. exact Ho.
  - destruct (first (_list v)); [|discriminate].
    injection Ha as <-. exists 0%Qc. reflexivity.
Qed.

Lemma getDistanceFromTop_finite (v : Virtualizer) (itemId : string) :
  finiteOn v (_list v) → ∃ d, _getDistanceFromTop v itemId = Fin d.
Proof.
  intros Hfin. unfold _getDistanceFromTop.
  destruct (_ <=? 0); [exists 0%Qc; reflexivity|].
  change zero with (Fin 0%Qc).
  rewrite fold_heights by (apply finiteOn_slice; exact Hfin).
  eexists. reflexivity.
Qed.

Lemma placeItems_finiteOffset (v : Virtualizer) (items : list ListItem.t)
    (o : Qc) :
  finiteOn v items → Forall finiteOffset (placeItems v (Fin o) items).
Proof.
  intros Hfin. apply Forall_forall. intros a Ha.
  destruct (placeItems_offset v items Hfin _ a Ha)
    as (before & _ & _ & _ & _ & Hoff).
  eexists. rewrite Hoff. reflexivity.
Qed.

(** X4: after a cycle that projects from a layout in whole pixels that
    doubles add and subtract without rounding, the list height the engine
    reports is the total of the resolved heights of all items of the list,
    rendered or not, whatever the position of the anchor; and the rendered
    offsets stay finite.  (The engine takes the height as the bottom of
    the last projected item minus the top of the first; outside such
    layouts that difference of doubles need not be the sum of the
    heights.) *)
Theorem list_height_is_total_height (env : Env) (v : Virtualizer) :
  exactLayout (_measureHeights env v) = true →
  cycleProjects v = true →
  let v' := (_update env v).1 in
  _listHeightWithHeadRoom v' = Fin (sumQ v' (_list v'))
  ∧ Forall finiteOffset (_renderedItems v').
Proof.
  intros Hexact Hproj v'. subst v'.
  destruct (update_renderedItems env v Hproj)
    as (anchor & Ha & Hrend & Hh & Hl & Ho & Hd & Hheight).
  cbv zeta in *. set (v0 := _measureHeights env v) in *.
  assert (Hsame : sameLayout v0 (_update env v).1).
  { repeat split; symmetry; assumption. }
  assert (Hfin0 : finiteOn v0 (_list v0))
    by (apply exactLayout_finiteOn; exact Hexact).
  assert (Hoffs : Forall finiteOffset (_renderedItems v))
    by exact (exactLayout_finiteOffset v0 Hexact).
  destruct (getAnchor_finiteOffset v anchor Hoffs Ha) as [o Hoff].
  destruct (getDistanceFromTop_finite v0 (Anchor.itemId anchor) Hfin0)
    as [d Hdist].
  assert (Hall : _getItemsWithPositions v0 anchor
                 = placeItems v0 (Fin (o + - d)%Qc) (_list v0)).
  { rewrite getItemsWithPositions_place, Hoff, Hdist. reflexivity. }
  rewrite Hall in Hrend, Hheight. split.
  - rewrite Hheight, Hl, <- (sumQ_ext v0 _ _ Hsame).
    apply (placeItems_span v0 (_list v0) _ Hfin0).
  - rewrite Hrend. apply Forall_forall. intros r Hr.
    apply slice_subset in Hr. revert r Hr. apply Forall_forall.
    apply placeItems_finiteOffset. exact Hfin0.
Qed.

(** The settled engine: two measured heights of 100 and two assumed ones
    give a list height of 400. *)
Lemma list_height_is_total_height_witness :
  let v' := (_update (demoEnv (Number (of_Z 100))) settledState).1 in
  (exactLayout
     (_measureHeights (demoEnv (Number (of_Z 100))) settledState) = true
   ∧ cycleProjects settledState = true)
  ∧ _listHeightWithHeadRoom v' = Fin (sumQ v' (_list v'))
  ∧ _listHeightWithHeadRoom v' = of_Z 400.
Proof.
  cbv zeta.
  assert (H1 : exactLayout
                 (_measureHeights (demoEnv (Number (of_Z 100)))
                    settledState) = true) by (vm_compute; reflexivity).
  assert (H3 : cycleProjects settledState = true) by reflexivity.
  assert (H4 : _listHeightWithHeadRoom
                 (_update (demoEnv (Number (of_Z 100))) settledState).1
               = of_Z 400) by by_evaluation.
  exact (conj (conj H1 H3)
           (conj (proj1 (list_height_is_total_height
                           (demoEnv (Number (of_Z 100))) settledState
                           H1 H3))
                 H4)).
Defined.

(** ** Layouts in whole pixels: the projection in double precision *)

Lemma Qc_of_Z_plus (a b : Z) : (Qc_of_Z a + Qc_of_Z b)%Qc = Qc_of_Z (a + b).
Proof.
  apply Qc_is_canon. rewrite this_plus, !this_Qc_of_Z, inject_Z_plus.
  reflexivity.
Qed.

Lemma Qc_of_Z_opp (a : Z) : (- Qc_of_Z a)%Qc = Qc_of_Z (- a).
Proof.
  apply Qc_is_canon. rewrite this_opp, !this_Qc_of_Z, inject_Z_opp.
  reflexivity.
Qed.

Lemma add_whole (a b : Z) : add (of_Z a) (of_Z b) = of_Z (a + b).
Proof. unfold of_Z. cbn [add]. rewrite Qc_of_Z_plus. reflexivity. Qed.

Lemma sub_whole (a b : Z) : sub (of_Z a) (of_Z b) = of_Z (a - b).
Proof.
  unfold sub, of_Z. cbn [neg add]. rewrite Qc_of_Z_opp, Qc_of_Z_plus.
  reflexivity.
Qed.

Lemma zero_whole : zero = of_Z 0.
Proof. unfold zero, of_Z. f_equal. apply Qc_is_canon. reflexivity. Qed.

Lemma round_whole (z : Z) :
  Z.abs z < 2 ^ 53 → Double.round (of_Z z) = of_Z z.
Proof. intros Hz. apply fl_exact, exact_of_Z, Hz. Qed.

(** Whole numbers add and subtract in doubles as they do exactly, while
    the result stays below [2^53]. *)
Lemma whole_pixels_add_exactly (a b : Z) :
  (Z.abs (a + b) < 2 ^ 53 →
   Double.add (of_Z a) (of_Z b) = add (of_Z a) (of_Z b))
  ∧ (Z.abs (a - b) < 2 ^ 53 →
     Double.sub (of_Z a) (of_Z b) = sub (of_Z a) (of_Z b)).
Proof.
  unfold Double.add, Double.sub. rewrite add_whole, sub_whole.
  split; apply round_whole.
Qed.

Lemma sumAbs_cons (h : Z) (heights : list Z) :
  sumAbs (h :: heights) = Z.abs h + sumAbs heights.
Proof. reflexivity. Qed.

Lemma sumAbs_nonneg (heights : list Z) : 0 ≤ sumAbs heights.
Proof.
  induction heights as [|h heights IH]; [reflexivity|].
  unfold sumAbs in *. cbn [foldr]. lia.
Qed.

Lemma sumAbs_take (n : nat) (heights : list Z) :
  sumAbs (take n heights) ≤ sumAbs heights.
Proof.
  revert n. induction heights as [|h heights IH]; intros [|n];
    try reflexivity.
  - apply sumAbs_nonneg.
  - specialize (IH n). unfold sumAbs in *. cbn [take foldr]. lia.
Qed.

Lemma sumAbs_drop (n : nat) (heights : list Z) :
  sumAbs (drop n heights) ≤ sumAbs heights.
Proof.
  revert n. induction heights as [|h heights IH]; intros [|n];
    try reflexivity.
  specialize (IH n). unfold sumAbs in *. cbn [drop foldr]. lia.
Qed.

Lemma fold_heights_in_doubles (v : Virtualizer) (items : list ListItem.t)
    (heights : list Z) (z : Z) :
  Forall2 (λ item h, _getHeight v item = of_Z h) items heights →
  Z.abs z + sumAbs heights < 2 ^ 53 →
  ∃ z',
    foldl (λ sum item, Double.add sum (_getHeight v item)) (of_Z z) items
    = of_Z z'
    ∧ foldl (λ sum item, add sum (_getHeight v item)) (of_Z z) items
      = of_Z z'
    ∧ Z.abs z' ≤ Z.abs z + sumAbs heights.
Proof.
  intros Hh. revert z.
  induction Hh as [|item h items heights Hitem _ IH]; intros z Hz.
  - exists z. split; [reflexivity|]. split; [reflexivity|].
    unfold sumAbs. cbn [foldr]. lia.
  - unfold sumAbs in Hz. cbn [foldr] in Hz. fold (sumAbs heights) in Hz.
    pose proof (sumAbs_nonneg heights).
    destruct (IH (z + h)) as (z' & HD & HE & Hb); [lia|].
    exists z'. cbn [foldl]. rewrite Hitem.
    rewrite (proj1 (whole_pixels_add_exactly z h)) by lia.
    rewrite add_whole. split; [exact HD|]. split; [exact HE|].
    unfold sumAbs. cbn [foldr]. fold (sumAbs heights). lia.
Qed.

Lemma placeItems_in_doubles (v : Virtualizer) (items : list ListItem.t)
    (heights : list Z) (z : Z) :
  Forall2 (λ item h, _getHeight v item = of_Z h) items heights →
  Z.abs z + sumAbs heights < 2 ^ 53 →
  InDoubles.placeItems v (of_Z z) items = placeItems v (of_Z z) items.
Proof.
  intros Hh. revert z.
  induction Hh as [|item h items heights Hitem _ IH]; intros z Hz;
    [reflexivity|].
  unfold sumAbs in Hz. cbn [foldr] in Hz. fold (sumAbs heights) in Hz.
  pose proof (sumAbs_nonneg heights).
  cbn [InDoubles.placeItems placeItems]. rewrite Hitem.
  rewrite (proj1 (whole_pixels_add_exactly z h)) by lia.
  rewrite add_whole, IH by lia. reflexivity.
Qed.

Lemma getDistanceFromTop_in_doubles (v : Virtualizer) (itemId : string)
    (heights : list Z) :
  Forall2 (λ item h, _getHeight v item = of_Z h) (_list v) heights →
  sumAbs heights < 2 ^ 53 →
  ∃ d,
    InDoubles._getDistanceFromTop v itemId = of_Z d
    ∧ _getDistanceFromTop v itemId = of_Z d
    ∧ Z.abs d ≤ sumAbs heights.
Proof.
  intros Hh Hb. unfold InDoubles._getDistanceFromTop, _getDistanceFromTop.
  rewrite zero_whole. destruct (_ <=? 0).
  - exists 0. pose proof (sumAbs_nonneg heights).
    split; [reflexivity|]. split; [reflexivity|]. simpl Z.abs. lia.
  - unfold slice.
    match goal with
    | |- context [take ?n (drop ?k (_list v))] =>
        assert (Hs : Forall2 (λ item h, _getHeight v item = of_Z h)
                       (take n (drop k (_list v)))
                       (take n (drop k heights)))
          by (apply Forall2_take, Forall2_drop, Hh);
        pose proof (sumAbs_take n (drop k heights));
        pose proof (sumAbs_drop k heights);
        destruct (fold_heights_in_doubles v _ _ 0 Hs) as (d & HD & HE & Hd);
          [simpl Z.abs; lia|]
    end.
    exists d. split; [exact HD|]. split; [exact HE|]. simpl Z.abs in Hd. lia.
Qed.

(** On a layout in whole pixels the projection the doubles compute is the
    exact one. *)
Lemma getItemsWithPositions_in_doubles (v : Virtualizer) (anchor : Anchor.t)
    (heights : list Z) (o : Z) :
  Forall2 (λ item h, _getHeight v item = of_Z h) (_list v) heights →
  Anchor.offset anchor = of_Z o →
  Z.abs o + 2 * sumAbs heights < 2 ^ 53 →
  InDoubles._getItemsWithPositions v anchor
  = _getItemsWithPositions v anchor.
Proof.
  intros Hh Ho Hb. pose proof (sumAbs_nonneg heights).
  unfold InDoubles._getItemsWithPositions, _getItemsWithPositions.
  destruct (getDistanceFromTop_in_doubles v (Anchor.itemId anchor) heights
              Hh) as (d & HD & HE & Hd); [lia|].
  destruct (_list v) eqn:Hl; [reflexivity|]. rewrite <- Hl in *. cbv zeta.
  rewrite HD, HE, Ho.
  rewrite (proj2 (whole_pixels_add_exactly o d)) by lia.
  rewrite sub_whole. apply (placeItems_in_doubles v _ heights); [exact Hh|].
  lia.
Qed.

(** The items of a projection in whole pixels are at whole offsets, and
    their tops and bottoms stay within the start and the heights. *)
Lemma placeItems_whole (v : Virtualizer) (items : list ListItem.t)
    (heights : list Z) (z : Z) (a : Anchor.t) :
  Forall2 (λ item h, _getHeight v item = of_Z h) items heights →
  a ∈ placeItems v (of_Z z) items →
  ∃ o h,
    Anchor.offset a = of_Z o
    ∧ Anchor.height a = of_Z h
    ∧ Z.abs o ≤ Z.abs z + sumAbs heights
    ∧ Z.abs (o + h) ≤ Z.abs z + sumAbs heights.
Proof.
  intros Hh. revert z.
  induction Hh as [|item h items heights Hitem _ IH]; intros z Hin.
  - inversion Hin.
  - cbn [placeItems] in Hin. rewrite Hitem, add_whole in Hin.
    rewrite sumAbs_cons. pose proof (sumAbs_nonneg heights).
    apply elem_of_cons in Hin as [->|Hin].
    + exists z, h. cbn [Anchor.offset Anchor.height].
      split; [reflexivity|]. split; [reflexivity|]. lia.
    + destruct (IH _ Hin) as (o & h' & Ho & Hh' & Hb1 & Hb2).
      exists o, h'. split; [exact Ho|]. split; [exact Hh'|]. lia.
Qed.

Lemma getHeightBetweenItems_in_doubles (bound : Z)
    (firstItem lastItem : option Anchor.t) :
  bound < 2 ^ 52 →
  (∀ a, firstItem = Some a ∨ lastItem = Some a →
        ∃ o h, Anchor.offset a = of_Z o ∧ Anchor.height a = of_Z h
               ∧ Z.abs o ≤ bound ∧ Z.abs (o + h) ≤ bound) →
  InDoubles._getHeightBetweenItems firstItem lastItem
  = _getHeightBetweenItems firstItem lastItem.
Proof.
  intros Hb Hall.
  destruct firstItem as [f|], lastItem as [l|]; try reflexivity.
  destruct (Hall f) as (fo & fh & Hfo & _ & Hf1 & _); [left; reflexivity|].
  destruct (Hall l) as (lo & lh & Hlo & Hlh & _ & Hl2);
    [right; reflexivity|].
  unfold InDoubles._getHeightBetweenItems, _getHeightBetweenItems,
    _getRenderedItemRectInViewport, Anchor.getRectInViewport,
    Rectangle.getBottom, Rectangle.getTop.
  cbn [Rectangle._top Rectangle._height]. rewrite Hfo, Hlo, Hlh.
  assert (H53 : 2 ^ 53 = 2 * 2 ^ 52) by reflexivity.
  rewrite (proj1 (whole_pixels_add_exactly lo lh)) by lia.
  rewrite add_whole.
  rewrite (proj2 (whole_pixels_add_exactly (lo + lh) fo)) by lia.
  reflexivity.
Qed.

Lemma wholeNumber_of_Z (x : number) (z : Z) :
  wholeNumber x = Some z → x = of_Z z.
Proof.
  destruct x as [| | |q]; try discriminate. cbn [wholeNumber].
  destruct (bool_decide_reflect (Qden q = 1%positive)) as [Hd|];
    [|discriminate].
  intros [= <-]. unfold of_Z. f_equal. apply Qc_is_canon.
  rewrite this_Qc_of_Z. destruct q as [[n d] Hq]. simpl in *. subst d.
  reflexivity.
Qed.

Lemma maxAbs_bound (rendered : list Anchor.t) (offsets : list Z)
    (r : Anchor.t) :
  Forall2 (λ r o, wholeNumber (Anchor.offset r) = Some o) rendered offsets →
  r ∈ rendered →
  ∃ o, Anchor.offset r = of_Z o ∧ Z.abs o ≤ maxAbs offsets.
Proof.
  intros Hall. induction Hall as [|x o rendered offsets Hx _ IH];
    intros Hin; [inversion Hin|].
  unfold maxAbs. cbn [foldr]. fold (maxAbs offsets).
  apply elem_of_cons in Hin as [->|Hin].
  - exists o. split; [apply wholeNumber_of_Z; exact Hx|lia].
  - destruct (IH Hin) as (o' & Ho & Hb). exists o'. split; [exact Ho|lia].
Qed.

Lemma maxAbs_nonneg (offsets : list Z) : 0 ≤ maxAbs offsets.
Proof.
  destruct offsets; [reflexivity|]. unfold maxAbs. cbn [foldr]. lia.
Qed.

(** The anchor sits at the offset of a rendered item, or at zero. *)
Lemma getAnchor_offset (v : Virtualizer) (anchor : Anchor.t) :
  _getAnchor v = Some anchor →
  (∃ state, state ∈ _renderedItems v
            ∧ Anchor.offset anchor = Anchor.offset state)
  ∨ Anchor.offset anchor = of_Z 0.
Proof.
  intros Ha. unfold _getAnchor in Ha.
  destruct (first (_getAnchorItemCandidates v)) as [c|] eqn:Hc.
  - injection Ha as <-.
    destruct (first_candidate_origin v c Hc) as (state & Hin & _ & Hoff).
    left. exists state. split; [exact Hin|exact Hoff].
  - destruct (first (_list v)); [|discriminate].
    injection Ha as <-. right. exact zero_whole.
Qed.

(** On a layout in whole pixels the engine's doubles compute the exact
    projection and the exact list height: what is proved of
    [_getItemsWithPositions] and [_getHeightBetweenItems] there is proved
    of the rounded sums the engine forms. *)
Lemma exactLayout_in_doubles (env : Env) (v : Virtualizer)
    (anchor : Anchor.t) :
  exactLayout (_measureHeights env v) = true →
  _getAnchor v = Some anchor →
  let v0 := _measureHeights env v in
  let allItems := _getItemsWithPositions v0 anchor in
  InDoubles._getItemsWithPositions v0 anchor = allItems
  ∧ InDoubles._getHeightBetweenItems (first allItems) (last allItems)
    = _getHeightBetweenItems (first allItems) (last allItems).
Proof.
  intros Hexact Ha. cbv zeta. set (v0 := _measureHeights env v).
  unfold exactLayout in Hexact. fold v0 in Hexact.
  destruct (mapM _ (_list v0)) as [heights|] eqn:Hh; [|discriminate].
  destruct (mapM _ (_renderedItems v0)) as [offsets|] eqn:Ho;
    [|discriminate].
  apply Z.ltb_lt in Hexact. apply mapM_Some in Hh, Ho.
  assert (Hheights : Forall2 (λ item h, _getHeight v0 item = of_Z h)
                       (_list v0) heights).
  { eapply Forall2_impl; [exact Hh|]. intros item h.
    apply wholeNumber_of_Z. }
  pose proof (sumAbs_nonneg heights) as Hs.
  pose proof (maxAbs_nonneg offsets) as Hm.
  assert (Hanchor : ∃ o, Anchor.offset anchor = of_Z o
                         ∧ Z.abs o ≤ maxAbs offsets).
  { destruct (getAnchor_offset v anchor Ha) as [(state & Hin & ->)| ->].
    - exact (maxAbs_bound _ _ _ Ho Hin).
    - exists 0. split; [reflexivity|]. simpl Z.abs. exact Hm. }
  destruct Hanchor as (o & Hoff & Hbound).
  assert (H52 : 2 ^ 53 = 2 * 2 ^ 52) by reflexivity.
  split.
  { apply (getItemsWithPositions_in_doubles v0 anchor heights o);
      [exact Hheights|exact Hoff|lia]. }
  apply (getHeightBetweenItems_in_doubles
           (maxAbs offsets + 2 * sumAbs heights));
    [exact Hexact|].
  intros a Hfl.
  assert (Hin : a ∈ _getItemsWithPositions v0 anchor).
  { destruct Hfl as [Hf|Hl]; [exact (first_elem _ _ Hf)|].
    exact (last_elem _ _ Hl). }
  rewrite getItemsWithPositions_place, Hoff in Hin.
  destruct (getDistanceFromTop_in_doubles v0 (Anchor.itemId anchor) heights
              Hheights) as (d & _ & Hd & Hdb); [lia|].
  rewrite Hd, sub_whole in Hin.
  destruct (placeItems_whole v0 _ heights _ a Hheights Hin)
    as (o' & h' & Ho' & Hh' & Hb1 & Hb2).
  exists o', h'. split; [exact Ho'|]. split; [exact Hh'|]. lia.
Qed.

(** ** Rectangles, the buffered viewport and the candidate slice *)

(** Linear arithmetic over [Qc], through [Q]. *)
Ltac qc_lra :=
  unfold Qcle, Qclt in *;
  repeat match goal with
  | H : context [this (_ + _)%Qc] |- _ => rewrite this_plus in H
  | H : context [this (_ * _)%Qc] |- _ => rewrite this_mult in H
  | H : context [this (- _)%Qc] |- _ => rewrite this_opp in H
  | |- context [this (_ + _)%Qc] => rewrite this_plus
  | |- context [this (_ * _)%Qc] => rewrite this_mult
  | |- context [this (- _)%Qc] => rewrite this_opp
  end;
  change (this 0%Qc) with 0%Q in *;
  lra.





Lemma alloc_from_lookup {A} (l : list A) (n k : nat) (a : A) :
  (k, a) ∈ alloc_from n l ↔ (n ≤ k)%nat ∧ l !! (k - n)%nat = Some a.
Proof.
  revert n. induction l as [|b l IH]; intros n; simpl.
  - split; [intros H; inversion H|intros [_ H]; discriminate].
  - rewrite elem_of_cons, IH. split.
    + intros [[= -> ->]|[Hle Hk]].
      * rewrite Nat.sub_diag. split; [lia|reflexivity].
      * split; [lia|]. replace (k - n)%nat with (S (k - S n)) by lia.
        exact Hk.
    + intros [Hle Hk]. destruct (decide (k = n)) as [->|Hne].
      * rewrite Nat.sub_diag in Hk. injection Hk as ->. left. reflexivity.
      * right. split; [lia|].
        replace (k - n)%nat with (S (k - S n)) in Hk by lia. exact Hk.
Qed.

Lemma elem_filter {A} (p : A → bool) (l : list A) (x : A) :
  x ∈ List.filter p l ↔ x ∈ l ∧ p x = true.
Proof. rewrite !list_elem_of_In. apply filter_In. Qed.

(** No object that passes a filter was allocated before the first one that
    passes, or after the last one. *)
Lemma filter_alloc_from_first {A} (p : obj A → bool) (l : list A) :
  ∀ (n : nat) (f x : obj A),
    first (List.filter p (alloc_from n l)) = Some f →
    x ∈ List.filter p (alloc_from n l) → (f.1 ≤ x.1)%nat.
Proof.
  induction l as [|a l IH]; intros n f x Hf Hx; simpl in *.
  - discriminate.
  - destruct (p (n, a)) eqn:Hp.
    + injection Hf as <-. simpl.
      apply elem_of_cons in Hx as [->|Hx]; [simpl; lia|].
      apply filter_elem, alloc_from_elem in Hx. lia.
    + eapply IH; eassumption.
Qed.

Lemma filter_alloc_from_last {A} (p : obj A → bool) (l : list A) :
  ∀ (n : nat) (la x : obj A),
    last (List.filter p (alloc_from n l)) = Some la →
    x ∈ List.filter p (alloc_from n l) → (x.1 ≤ la.1)%nat.
Proof.
  induction l as [|a l IH]; intros n la x Hl Hx; simpl in *.
  - discriminate.
  - destruct (p (n, a)) eqn:Hp.
    + apply elem_of_cons in Hx as [->|Hx].
      * apply last_elem, elem_of_cons in Hl as [->|Hl]; [simpl; lia|].
        apply filter_elem, alloc_from_elem in Hl. simpl. lia.
      * eapply (IH (S n)); [|exact Hx].
        destruct (List.filter p (alloc_from (S n) l)) as [|y rest];
          [inversion Hx|].
        unfold last in *. rewrite last_cons_cons in Hl. exact Hl.
    + eapply IH; eassumption.
Qed.

(** The candidate slice, by what the source computes: it reaches from the
    first item that intersects the target to the last one, and so holds
    every item that intersects it. *)
Lemma candidateSliceFor_spec (allItems : list Anchor.t)
    (target : Rectangle.t) :
  let intersects (a : Anchor.t) :=
    Rectangle.doesIntersectWith (Anchor.getRectInViewport a) target in
  let candidateSlice := candidateSliceFor allItems target in
  (∀ k a, allItems !! k = Some a → intersects a = true →
          inSlice candidateSlice k)
  ∧ (start candidateSlice < end_ candidateSlice →
     ∃ i j ai aj,
       allItems !! i = Some ai ∧ allItems !! j = Some aj
       ∧ intersects ai = true ∧ intersects aj = true
       ∧ start candidateSlice = Z.of_nat i
       ∧ end_ candidateSlice = Z.of_nat j + 1).
Proof.
  cbv zeta. unfold candidateSliceFor, _getSliceForCandidates, inSlice.
  match goal with
  | |- context [first ?l] => set (candidates := l)
  end.
  assert (Hin : ∀ x, x ∈ candidates ↔
                     allItems !! x.1 = Some x.2
                     ∧ Rectangle.doesIntersectWith
                         (Anchor.getRectInViewport x.2) target = true).
  { intros [k a]. unfold candidates, alloc.
    rewrite elem_filter, alloc_from_lookup, Nat.sub_0_r. simpl.
    intuition lia. }
  destruct (first candidates) as [f|] eqn:Hf;
    destruct (last candidates) as [la|] eqn:Hl; simpl.
  - pose proof (first_elem _ _ Hf) as Hfe.
    pose proof (last_elem _ _ Hl) as Hle.
    rewrite !indexOf_alloc by (eapply filter_elem; eassumption).
    split.
    + intros k a Hk Hp.
      assert (Hx : (k, a) ∈ candidates) by (apply Hin; split; assumption).
      pose proof (filter_alloc_from_first _ _ _ _ _ Hf Hx) as H1.
      pose proof (filter_alloc_from_last _ _ _ _ _ Hl Hx) as H2.
      simpl in H1, H2. lia.
    + intros _. apply Hin in Hfe as [Hf1 Hf2]. apply Hin in Hle as [Hl1 Hl2].
      exists f.1, la.1, f.2, la.2.
      split; [exact Hf1|]. split; [exact Hl1|]. split; [exact Hf2|].
      split; [exact Hl2|]. split; reflexivity.
  - destruct candidates; [discriminate|].
    unfold last in Hl. apply last_None in Hl. discriminate.
  - destruct candidates; discriminate.
  - split; [|lia]. intros k a Hk Hp.
    destruct candidates; [|discriminate].
    assert (Hx : (k, a) ∈ @nil (obj Anchor.t))
      by (apply Hin; split; assumption).
    inversion Hx.
Qed.



(** In a tiling of finite items of non-negative height, tops and bottoms
    grow with the index. *)
Lemma tiles_monotone (allItems : list Anchor.t) :
  tiles allItems → Forall finiteItem allItems →
  ∀ (m k : nat) (a b : Anchor.t) (oa ha ob hb : Qc),
    (k ≤ m)%nat →
    allItems !! k = Some a → allItems !! m = Some b →
    Anchor.offset a = Fin oa → Anchor.height a = Fin ha →
    Anchor.offset b = Fin ob → Anchor.height b = Fin hb →
    (oa ≤ ob)%Qc ∧ (oa + ha ≤ ob + hb)%Qc.
Proof.
  intros Htiles Hfin. rewrite Forall_lookup in Hfin.
  induction m as [|m IH]; intros k a b oa ha ob hb Hle Hk Hm Hoa Hha Hob Hhb.
  - assert (k = 0%nat) as -> by lia.
    rewrite Hk in Hm. injection Hm as <-.
    rewrite Hoa in Hob. rewrite Hha in Hhb.
    injection Hob as <-. injection Hhb as <-.
    split; apply Qcle_refl.
  - destruct (decide (k = S m)) as [->|Hne].
    + rewrite Hk in Hm. injection Hm as <-.
      rewrite Hoa in Hob. rewrite Hha in Hhb.
      injection Hob as <-. injection Hhb as <-.
      split; apply Qcle_refl.
    + assert (Hc : is_Some (allItems !! m)).
      { apply lookup_lt_is_Some. apply lookup_lt_Some in Hm. lia. }
      destruct Hc as [c Hc].
      destruct (Hfin _ _ Hc) as (oc & hc & Hoc & Hhc & Hc0).
      destruct (Hfin _ _ Hm) as (ob' & hb' & Hob' & Hhb' & Hb0).
      rewrite Hob in Hob'. rewrite Hhb in Hhb'.
      injection Hob' as <-. injection Hhb' as <-.
      assert (Hkm : (k ≤ m)%nat) by lia.
      destruct (IH k a c oa ha oc hc Hkm Hk Hc Hoa Hha Hoc Hhc) as [I1 I2].
      pose proof (Htiles m c b Hc Hm) as Ht.
      unfold Rectangle.getBottom, Anchor.getRectInViewport,
        Rectangle.getTop, Rectangle.getHeight in Ht. simpl in Ht.
      rewrite Hob, Hoc, Hhc in Ht. simpl in Ht. injection Ht as ->.
      split; qc_lra.
Qed.

(** X6: over a tiling the candidate slice is exact.  When the projected
    items tile (each starts where the one before it ends) with finite
    offsets and finite heights that are not negative, and the target is a
    finite rectangle, an item lies in the candidate slice if and only if
    its rectangle intersects the target. *)
Theorem candidate_slice_exact (allItems : list Anchor.t) (t h : Qc)
    (k : nat) (a : Anchor.t) :
  tiles allItems → Forall finiteItem allItems →
  allItems !! k = Some a →
  let target := Rectangle.make (Fin t) (Fin h) in
  inSlice (candidateSliceFor allItems target) k
  ↔ Rectangle.doesIntersectWith (Anchor.getRectInViewport a) target = true.
Proof.
  intros Htiles Hfin Hk. cbv zeta.
  destruct (candidateSliceFor_spec allItems (Rectangle.make (Fin t) (Fin h)))
    as [Hall Hends].
  split; [|apply Hall; exact Hk].
  intros Hin. unfold inSlice in Hin.
  destruct Hends as (i & j & ai & aj & Hi & Hj & Hpi & Hpj & Es & Ee);
    [lia|].
  rewrite Es, Ee in Hin.
  pose proof Hfin as Hfin'. rewrite Forall_lookup in Hfin'.
  destruct (Hfin' _ _ Hk) as (o & ht & Ho & Hh & H0).
  destruct (Hfin' _ _ Hi) as (oi & hi & Hoi & Hhi & Hi0).
  destruct (Hfin' _ _ Hj) as (oj & hj & Hoj & Hhj & Hj0).
  assert (Hik : (i ≤ k)%nat) by lia.
  assert (Hkj : (k ≤ j)%nat) by lia.
  destruct (tiles_monotone _ Htiles Hfin k i ai a oi hi o ht
              Hik Hi Hk Hoi Hhi Ho Hh) as [_ Hbot].
  destruct (tiles_monotone _ Htiles Hfin j k a aj o ht oj hj
              Hkj Hk Hj Ho Hh Hoj Hhj) as [Htop _].
  revert Hpi Hpj.
  unfold Rectangle.doesIntersectWith, Rectangle.getBottom,
    Anchor.getRectInViewport, Rectangle.getTop, Rectangle.getHeight, gt.
  simpl. rewrite Ho, Hh, Hoi, Hhi, Hoj, Hhj. simpl.
  rewrite !andb_true_iff, !bool_decide_eq_true.
  intros [P1 _] [_ P2]. split; qc_lra.
Qed.

(** Two items of height 100 and a target [[0,100)]: the second item only
    touches the target and is left out. *)
Lemma candidate_slice_exact_witness :
  let a1 := Anchor.make "1" zero true true (of_Z 100) in
  let a2 := Anchor.make "2" (of_Z 100) true true (of_Z 100) in
  let target := Rectangle.make (Fin 0) (Fin (Qc_of_Z 100)) in
  (tiles [a1; a2] ∧ Forall finiteItem [a1; a2]
   ∧ [a1; a2] !! 1%nat = Some a2)
  ∧ (inSlice (candidateSliceFor [a1; a2] target) 1
     ↔ Rectangle.doesIntersectWith (Anchor.getRectInViewport a2) target
       = true)
  ∧ candidateSliceFor [a1; a2] target = mkSlice 0 1.
Proof.
  cbv zeta.
  assert (H1 : tiles [Anchor.make "1" zero true true (of_Z 100);
                      Anchor.make "2" (of_Z 100) true true (of_Z 100)]).
  { intros i a b Ha Hb. destruct i as [|[|i]]; simpl in Ha, Hb;
      try discriminate.
    injection Ha as <-. injection Hb as <-. by_evaluation. }
  assert (H2 : Forall finiteItem
                 [Anchor.make "1" zero true true (of_Z 100);
                  Anchor.make "2" (of_Z 100) true true (of_Z 100)]).
  { repeat constructor; eexists _, _;
      (split; [reflexivity|split; [reflexivity|vm_compute; discriminate]]). }
  assert (H3 : [Anchor.make "1" zero true true (of_Z 100);
                Anchor.make "2" (of_Z 100) true true (of_Z 100)] !! 1%nat
               = Some (Anchor.make "2" (of_Z 100) true true (of_Z 100)))
    by reflexivity.
  assert (H4 : candidateSliceFor
                 [Anchor.make "1" zero true true (of_Z 100);
                  Anchor.make "2" (of_Z 100) true true (of_Z 100)]
                 (Rectangle.make (Fin 0) (Fin (Qc_of_Z 100)))
               = mkSlice 0 1) by (vm_compute; reflexivity).
  exact (conj (conj H1 (conj H2 H3))
           (conj (candidate_slice_exact _ 0 (Qc_of_Z 100) 1 _ H1 H2 H3) H4)).
Defined.

(** ** What a trace of calls preserves *)

Lemma has_true (m : gmap string number) (k : string) :
  has m k = true ↔ is_Some (m !! k).
Proof. unfold has. apply bool_decide_eq_true. Qed.

Lemma has_union_r (m1 m2 : gmap string number) (k : string) :
  has m2 k = true → has (m1 ∪ m2) k = true.
Proof.
  rewrite !has_true. intros [x Hx].
  destruct (m1 !! k) as [y|] eqn:Hy.
  - exists y. apply lookup_union_Some_l. exact Hy.
  - exists x. rewrite lookup_union_r by exact Hy. exact Hx.
Qed.

Lemma has_union_l (m1 m2 : gmap string number) (k : string) :
  has m1 k = true → has (m1 ∪ m2) k = true.
Proof.
  rewrite !has_true. intros [x Hx]. exists x.
  apply lookup_union_Some_l. exact Hx.
Qed.

(** The synchronous re-measurement adds to the ledger and overwrites in it;
    it removes nothing. *)
Lemma measureHeights_has (env : Env) (v : Virtualizer) (itemId : string) :
  has (_heights v) itemId = true →
  has (_heights (_measureHeights env v)) itemId = true.
Proof.
  unfold _measureHeights. simpl. rewrite measureCells_union.
  apply has_union_r.
Qed.

(** What a cycle leaves alone. *)
Lemma update_frame (env : Env) (v : Virtualizer) :
  let v' := (_update env v).1 in
  _pendingHeightUpdates v' = _pendingHeightUpdates v
  ∧ _list v' = _list v
  ∧ _options v' = _options v
  ∧ _devicePixelRatio v' = _devicePixelRatio v
  ∧ _cells v' = _cells v
  ∧ _isIdle v' = _isIdle v
  ∧ _viewport v' = _viewport v
  ∧ _rootElement v' = _rootElement v
  ∧ (_heights v' = _heights v
     ∨ _heights v' = _heights (_measureHeights env v))
  ∧ (_isInitialAnchoring v = false → _isInitialAnchoring v' = false).
Proof.
  cbv zeta. destruct (cycleProjects v) eqn:Hproj.
  - destruct (update_projects env v Hproj) as (anchor & _ & ->).
    destruct (updateRenderedItems_state (_measureHeights env v) anchor
                (relativeViewportRectOf env))
      as (_ & _ & Hanch & _ & Hh & Hp & Hl & Ho & Hd & Hc & Hi & Hv & Hr).
    rewrite Hp, Hl, Ho, Hd, Hc, Hi, Hv, Hr, Hh.
    repeat (split; [reflexivity|]). split; [right; reflexivity|].
    intros Ha. rewrite Hanch.
    change (_isInitialAnchoring (_measureHeights env v))
      with (_isInitialAnchoring v).
    rewrite Ha. destruct (_getIsHeightsReady _ _); reflexivity.
  - destruct (update_aborts env v Hproj) as [_ [-> | ->]];
      repeat (split; [reflexivity|]);
      (split; [first [left; reflexivity|right; reflexivity]|]);
      intros Ha; exact Ha.
Qed.

Lemma laterState_refl (v : Virtualizer) : laterState v v.
Proof.
  constructor; try (intros; assumption); try reflexivity.
  intros itemId H. rewrite H. apply orb_true_r.
Qed.

Lemma laterState_trans (v1 v2 v3 : Virtualizer) :
  laterState v1 v2 → laterState v2 v3 → laterState v1 v3.
Proof.
  intros [P1 L1 S1 A1 R1 O1 D1 E1 V1] [P2 L2 S2 A2 R2 O2 D2 E2 V2].
  constructor; try (intros; auto; fail).
  - intros itemId H. apply S1 in H. apply orb_true_iff in H as [H|H].
    + rewrite (L2 _ H). reflexivity.
    + apply S2. exact H.
  - congruence.
  - congruence.
  - congruence.
Qed.

Lemma update_laterState (env : Env) (v : Virtualizer) :
  laterState v (_update env v).1.
Proof.
  destruct (update_frame env v)
    as (Hp & _ & Ho & Hd & _ & _ & Hv & Hr & Hh & Ha).
  constructor.
  - rewrite Hp. auto.
  - intros itemId H. destruct Hh as [-> | ->];
      [exact H|apply measureHeights_has; exact H].
  - intros itemId H. rewrite Hp, H. apply orb_true_r.
  - exact Ha.
  - intros Hs. apply (update_slice_bounds env v Hs).
  - exact Ho.
  - exact Hd.
  - exact Hr.
  - rewrite Hv. auto.
Qed.

(** The two ways a reported height is taken in: it waits in the buffer,
    which then holds at most 50 entries, or the buffer is flushed into the
    ledger and a cycle runs. *)
Lemma updateItemHeight_cases (env : Env) (v : Virtualizer)
    (itemId : string) (height : number) :
  let pending := <[itemId := height]> (_pendingHeightUpdates v) in
  (_updateItemHeight env v itemId height
   = (set_pendingHeightUpdates pending v, [])
   ∧ (size pending ≤ 50)%nat)
  ∨ ∃ vF,
      _updateItemHeight env v itemId height = _update env vF
      ∧ _heights vF = pending ∪ _heights v
      ∧ _pendingHeightUpdates vF = ∅
      ∧ _lastUpdateReason vF = Some HEIGHT_CHANGE
      ∧ withoutLedger vF = withoutLedger v.
Proof.
  cbv zeta. unfold _updateItemHeight.
  match goal with
  | |- context [if ?c then _ else _] => destruct c eqn:Hc
  end.
  - right. eexists. split; [reflexivity|]. simpl.
    split; [apply map_fold_insert_union|].
    split; [reflexivity|]. split; reflexivity.
  - left. split; [reflexivity|].
    apply orb_false_iff in Hc as [_ Hc].
    apply bool_decide_eq_false in Hc. simpl in Hc. lia.
Qed.

Lemma updateItemHeight_laterState (env : Env) (v : Virtualizer)
    (itemId : string) (height : number) :
  laterState v (_updateItemHeight env v itemId height).1.
Proof.
  pose proof (updateItemHeight_cases env v itemId height) as Hcases.
  cbv zeta in Hcases.
  destruct Hcases as [[-> Hsize] | (vF & -> & Hh & Hp & _ & Hframe)].
  - constructor; simpl; try (intros; assumption); try reflexivity.
    intros id H. apply orb_true_iff. right.
    rewrite has_true in *. destruct (decide (id = itemId)) as [->|Hne].
    + rewrite lookup_insert_eq. eexists. reflexivity.
    + rewrite lookup_insert_ne by congruence. exact H.
  - eapply laterState_trans; [|apply update_laterState].
    constructor;
      try (change (_isInitialAnchoring vF)
             with (_isInitialAnchoring (withoutLedger vF));
           change (_slice vF) with (_slice (withoutLedger vF));
           change (_options vF) with (_options (withoutLedger vF));
           change (_devicePixelRatio vF)
             with (_devicePixelRatio (withoutLedger vF));
           change (_rootElement vF) with (_rootElement (withoutLedger vF));
           change (_viewport vF) with (_viewport (withoutLedger vF));
           rewrite Hframe; simpl; intros; first [assumption|reflexivity]).
    + intros _. rewrite Hp, map_size_empty. lia.
    + intros id H. rewrite Hh. apply has_union_r. exact H.
    + intros id H. rewrite Hh. apply orb_true_iff. left.
      apply has_union_l. rewrite has_true in *.
      destruct (decide (id = itemId)) as [->|Hne].
      * rewrite lookup_insert_eq. eexists. reflexivity.
      * rewrite lookup_insert_ne by congruence. exact H.
Qed.

Lemma measureElement_laterState (env : Env) (v : Virtualizer) (node : Node)
    (entry : option ResizeObserverEntry) :
  laterState v (_measureElement env v node entry).1.
Proof.
  unfold _measureElement, _handleHeightChanged.
  repeat match goal with
  | |- context [match ?x with _ => _ end] =>
      lazymatch x with
      | _updateItemHeight _ _ _ _ => fail
      | _ => destruct x
      end
  end; try apply laterState_refl.
  apply updateItemHeight_laterState.
Qed.

Lemma call_laterState (env : Env) (v : Virtualizer) (c : Call) :
  laterState v (call env v c).1.
Proof.
  destruct c as [|node itemId|node|node entry|newList| | |]; simpl.
  - unfold mount.
    eapply laterState_trans; [|apply update_laterState].
    constructor; simpl; try (intros; assumption); try reflexivity.
    intros itemId H. rewrite H. apply orb_true_r.
  - unfold measureElement. destruct node as [node|];
      [|apply laterState_refl].
    eapply laterState_trans; [|apply measureElement_laterState].
    constructor; simpl; try (intros; assumption); try reflexivity.
    intros id H. rewrite H. apply orb_true_r.
  - unfold releaseElement. destruct (cells_get _ _);
      [|apply laterState_refl].
    constructor; simpl; try (intros; assumption); try reflexivity.
    intros id H. rewrite H. apply orb_true_r.
  - apply measureElement_laterState.
  - constructor; simpl; try (intros; assumption); try reflexivity.
    intros id H. rewrite H. apply orb_true_r.
  - apply update_laterState.
  - unfold _handleScroll.
    destruct (negb (_viewport v)); [apply laterState_refl|].
    destruct (_isInitialAnchoring v || _); [apply laterState_refl|].
    constructor; simpl; try (intros; assumption); try reflexivity.
    intros id H. rewrite H. apply orb_true_r.
  - constructor; simpl; try (intros; assumption); try reflexivity.
    intros id H. rewrite H. apply orb_true_r.
Qed.

Lemma calls_cons (env : Env) (c : Call) (rest : list (Env * Call))
    (v : Virtualizer) :
  calls ((env, c) :: rest) v
  = ((calls rest (call env v c).1).1,
     (call env v c).2 ++ (calls rest (call env v c).1).2).
Proof.
  simpl. destruct (call env v c) as [v1 e1]. simpl.
  destruct (calls rest v1) as [v2 e2]. reflexivity.
Qed.

Lemma calls_laterState (trace : list (Env * Call)) :
  ∀ v, laterState v (calls trace v).1.
Proof.
  induction trace as [|[env c] rest IH]; intros v.
  - apply laterState_refl.
  - rewrite calls_cons. simpl.
    eapply laterState_trans; [apply call_laterState|apply IH].
Qed.

(** X7: the pending buffer never holds more than 50 heights.  Whatever the
    host, the observer and the frames call on a new engine, and in whatever
    order, the buffer of reported heights holds at most 50 entries after
    every call: the entry that would be the 51st flushes it. *)
Theorem pending_buffer_within_threshold (opts : VirtualizerOptions)
    (rootElement : bool) (items : list ListItem.t) (dpr : number)
    (trace : list (Env * Call)) :
  let v := (calls trace (new_Virtualizer opts rootElement items dpr)).1 in
  (size (_pendingHeightUpdates v) ≤ 50)%nat.
Proof.
  cbv zeta. apply (later_pending _ _ (calls_laterState trace _)).
  simpl. rewrite map_size_empty. lia.
Qed.

(** X8: a recorded height is never forgotten.  Across any trace of calls an
    item that has a height in the ledger keeps one, an item with a pending
    height has it pending or in the ledger afterwards, and so rendered
    items whose heights are ready stay ready. *)
Theorem heights_ready_is_stable (trace : list (Env * Call))
    (v : Virtualizer) (renderedItems : list Anchor.t) :
  let v' := (calls trace v).1 in
  (∀ itemId, has (_heights v) itemId = true →
             has (_heights v') itemId = true)
  ∧ (∀ itemId, has (_pendingHeightUpdates v) itemId = true →
               has (_heights v') itemId
               || has (_pendingHeightUpdates v') itemId = true)
  ∧ (_getIsHeightsReady v renderedItems = true →
     _getIsHeightsReady v' renderedItems = true).
Proof.
  cbv zeta. pose proof (calls_laterState trace v) as [_ L S _ _ _ _ _ _].
  split; [exact L|]. split; [exact S|].
  unfold _getIsHeightsReady. destruct renderedItems as [|r rest];
    [reflexivity|].
  rewrite !forallb_forall. intros H x Hx. apply L, H, Hx.
Qed.

(** X9: initial anchoring ends once.  No call sets the flag again: after it
    has been cleared it stays cleared across any trace of calls, a
    replacement of the list included. *)
Theorem initial_anchoring_ends_once (trace : list (Env * Call))
    (v : Virtualizer) :
  _isInitialAnchoring v = false →
  _isInitialAnchoring (calls trace v).1 = false.
Proof.
  intros Hcleared.
  apply (later_anchoring _ _ (calls_laterState trace v)). exact Hcleared.
Qed.

(** A scroll, a replacement of the list and a frame on the settled
    engine. *)
Lemma initial_anchoring_ends_once_witness :
  let env := demoEnv (Number (of_Z 100)) in
  let trace :=
    [(env, CallScroll); (env, CallSetList [demoItem "9"]);
     (env, CallFrame)] in
  _isInitialAnchoring settledState = false
  ∧ _isInitialAnchoring (calls trace settledState).1 = false.
Proof.
  cbv zeta.
  assert (H : _isInitialAnchoring settledState = false) by reflexivity.
  exact (conj H (initial_anchoring_ends_once _ settledState H)).
Defined.

(** X10: the persisted slice stays a range.  After any trace of calls on a
    new engine the persisted slice has [0 ≤ start ≤ end]; the options, the
    device pixel ratio and the root element are those the engine was
    created with. *)
Theorem persisted_slice_is_a_range (opts : VirtualizerOptions)
    (rootElement : bool) (items : list ListItem.t) (dpr : number)
    (trace : list (Env * Call)) :
  let v0 := new_Virtualizer opts rootElement items dpr in
  let v := (calls trace v0).1 in
  0 ≤ start (_slice v) ≤ end_ (_slice v)
  ∧ _options v = _options v0
  ∧ _devicePixelRatio v = _devicePixelRatio v0
  ∧ _rootElement v = _rootElement v0.
Proof.
  cbv zeta.
  pose proof (calls_laterState trace
                (new_Virtualizer opts rootElement items dpr))
    as [_ _ _ _ R O D E _].
  split; [apply R; simpl; lia|]. split; [exact O|]. split; [exact D|exact E].
Qed.

(** ** Before the engine is mounted *)

Lemma update_unmounted (env : Env) (v : Virtualizer) :
  _viewport v = false → _update env v = (v, []).
Proof. intros Hv. unfold _update. rewrite Hv. reflexivity. Qed.

Lemma updateItemHeight_unmounted (env : Env) (v : Virtualizer)
    (itemId : string) (height : number) :
  _viewport v = false →
  let r := _updateItemHeight env v itemId height in
  _viewport r.1 = false
  ∧ _renderedItems r.1 = _renderedItems v
  ∧ _slice r.1 = _slice v
  ∧ r.2 = [].
Proof.
  intros Hv. cbv zeta.
  pose proof (updateItemHeight_cases env v itemId height) as Hcases.
  cbv zeta in Hcases.
  destruct Hcases as [[-> _] | (vF & -> & _ & _ & _ & Hframe)].
  - simpl. repeat split; try reflexivity. exact Hv.
  - assert (HvF : _viewport vF = false).
    { change (_viewport vF) with (_viewport (withoutLedger vF)).
      rewrite Hframe. exact Hv. }
    rewrite (update_unmounted env vF HvF). simpl.
    split; [exact HvF|].
    split; [|split; [|reflexivity]].
    + change (_renderedItems vF) with (_renderedItems (withoutLedger vF)).
      rewrite Hframe. reflexivity.
    + change (_slice vF) with (_slice (withoutLedger vF)).
      rewrite Hframe. reflexivity.
Qed.

Lemma measureElement_unmounted (env : Env) (v : Virtualizer) (node : Node)
    (entry : option ResizeObserverEntry) :
  _viewport v = false →
  let r := _measureElement env v node entry in
  _viewport r.1 = false
  ∧ _renderedItems r.1 = _renderedItems v
  ∧ _slice r.1 = _slice v
  ∧ Forall (λ e, isNotification e = false) r.2.
Proof.
  intros Hv. cbv zeta. unfold _measureElement, _handleHeightChanged.
  repeat match goal with
  | |- context [match ?x with _ => _ end] =>
      lazymatch x with
      | _updateItemHeight _ _ _ _ => fail
      | _ => destruct x
      end
  end; simpl;
    try (split; [exact Hv|]; split; [reflexivity|]; split; [reflexivity|];
         repeat constructor).
  all: match goal with
       | |- context [_updateItemHeight ?e ?w ?i ?h] =>
           destruct (updateItemHeight_unmounted e w i h Hv)
             as (H1 & H2 & H3 & ->)
       end;
    (split; [exact H1|]); (split; [exact H2|]);
    (split; [exact H3|constructor]).
Qed.

Lemma call_unmounted (env : Env) (v : Virtualizer) (c : Call) :
  _viewport v = false → isMount c = false →
  let r := call env v c in
  _viewport r.1 = false
  ∧ _renderedItems r.1 = _renderedItems v
  ∧ _slice r.1 = _slice v
  ∧ Forall (λ e, isNotification e = false) r.2.
Proof.
  intros Hv Hc. cbv zeta.
  destruct c as [|node itemId|node|node entry|newList| | |]; simpl in *.
  - discriminate.
  - destruct node as [node|]; simpl.
    + apply (measureElement_unmounted env
               (set_cells (cells_set (_cells v) node itemId) v) node None Hv).
    + split; [exact Hv|]. repeat split; constructor.
  - unfold releaseElement. destruct (cells_get _ _); simpl;
      (split; [exact Hv|]); repeat split; repeat constructor.
  - apply measureElement_unmounted. exact Hv.
  - split; [exact Hv|]. repeat split; repeat constructor.
  - rewrite (update_unmounted env v Hv). simpl.
    split; [exact Hv|]. repeat split; constructor.
  - unfold _handleScroll. rewrite Hv. simpl.
    split; [exact Hv|]. repeat split; constructor.
  - split; [exact Hv|]. repeat split; repeat constructor.
Qed.

(** X11: an engine that is not mounted renders nothing and notifies
    nobody.  Until [mount] is called no call changes the rendered items or
    the persisted slice, and none calls [onChange], publishes a positioning
    or calls an edge callback: registrations, resize reports, list
    replacements and frames only register, record and schedule. *)
Theorem unmounted_engine_is_silent (trace : list (Env * Call))
    (v : Virtualizer) :
  _viewport v = false →
  Forall (λ ec : Env * Call, isMount ec.2 = false) trace →
  let r := calls trace v in
  _viewport r.1 = false
  ∧ _renderedItems r.1 = _renderedItems v
  ∧ _slice r.1 = _slice v
  ∧ Forall (λ e, isNotification e = false) r.2.
Proof.
  revert v. induction trace as [|[env c] rest IH]; intros v Hv Hno.
  - simpl. split; [exact Hv|]. repeat split; constructor.
  - apply Forall_cons in Hno as [Hc Hrest]. simpl in Hc.
    cbv zeta. rewrite calls_cons. simpl.
    destruct (call_unmounted env v c Hv Hc) as (H1 & H2 & H3 & H4).
    destruct (IH _ H1 Hrest) as (I1 & I2 & I3 & I4).
    split; [exact I1|]. split; [congruence|]. split; [congruence|].
    apply Forall_app. split; assumption.
Qed.

(** A registration, a resize report and a frame before [mount]. *)
Lemma unmounted_engine_is_silent_witness :
  let env := demoEnv (Number (of_Z 100)) in
  let v := new_Virtualizer demoOptions true [demoItem "1"] (of_Z 1) in
  let trace :=
    [(env, CallMeasureElement (Some 0%nat) "1");
     (env, CallResized 0%nat (mkEntryRO (Number (of_Z 80))));
     (env, CallFrame)] in
  (_viewport v = false
   ∧ Forall (λ ec : Env * Call, isMount ec.2 = false) trace)
  ∧ _renderedItems (calls trace v).1 = _renderedItems v
  ∧ Forall (λ e, isNotification e = false) (calls trace v).2.
Proof.
  cbv zeta.
  assert (H1 : _viewport (new_Virtualizer demoOptions true [demoItem "1"]
                            (of_Z 1)) = false) by reflexivity.
  assert (H2 : Forall (λ ec : Env * Call, isMount ec.2 = false)
                 [(demoEnv (Number (of_Z 100)),
                   CallMeasureElement (Some 0%nat) "1");
                  (demoEnv (Number (of_Z 100)),
                   CallResized 0%nat (mkEntryRO (Number (of_Z 80))));
                  (demoEnv (Number (of_Z 100)), CallFrame)])
    by (repeat constructor).
  pose proof (unmounted_engine_is_silent _ _ H1 H2) as H.
  cbv zeta in H.
  exact (conj (conj H1 H2)
           (conj (proj1 (proj2 H)) (proj2 (proj2 (proj2 H))))).
Defined.

(** ** Registration of elements *)

Lemma cells_get_set (cells : list (Node * string)) (node : Node)
    (itemId : string) :
  cells_get (cells_set cells node itemId) node = Some itemId.
Proof.
  unfold cells_get. induction cells as [|[n i] rest IH]; simpl.
  - rewrite decide_True by reflexivity. reflexivity.
  - destruct (bool_decide (n = node)) eqn:Hn.
    + apply bool_decide_eq_true in Hn. simpl.
      rewrite decide_True by exact Hn. reflexivity.
    + apply bool_decide_eq_false in Hn. simpl.
      rewrite decide_False by exact Hn.
      destruct (list_find _ (cells_set rest node itemId)) as [[k c]|];
        [|discriminate].
      simpl in *. exact IH.
Qed.

Lemma cells_get_set_ne (cells : list (Node * string)) (node other : Node)
    (itemId : string) :
  other ≠ node →
  cells_get (cells_set cells node itemId) other = cells_get cells other.
Proof.
  intros Hne. unfold cells_get.
  induction cells as [|[n i] rest IH]; simpl.
  - rewrite decide_False by congruence. reflexivity.
  - destruct (bool_decide (n = node)) eqn:Hn.
    + apply bool_decide_eq_true in Hn. subst n. simpl.
      rewrite !decide_False by congruence. reflexivity.
    + simpl. destruct (decide (n = other)); [reflexivity|].
      destruct (list_find _ (cells_set rest node itemId)) as [[k c]|],
        (list_find _ rest) as [[k' c']|]; simpl in *; congruence.
Qed.

Lemma cells_get_delete (cells : list (Node * string)) (node : Node) :
  cells_get (cells_delete cells node) node = None.
Proof.
  unfold cells_get, cells_delete.
  induction cells as [|[n i] rest IH]; [reflexivity|].
  rewrite filter_cons. simpl.
  destruct (decide (n ≠ node)) as [Hn|Hn].
  - simpl. rewrite decide_False by exact Hn.
    destruct (list_find _ _) as [[k c]|]; [discriminate|reflexivity].
  - exact IH.
Qed.

Lemma cells_get_delete_ne (cells : list (Node * string))
    (node other : Node) :
  other ≠ node →
  cells_get (cells_delete cells node) other = cells_get cells other.
Proof.
  intros Hne. unfold cells_get, cells_delete.
  induction cells as [|[n i] rest IH]; [reflexivity|].
  rewrite filter_cons. simpl.
  destruct (decide (n ≠ node)) as [Hn|Hn].
  - simpl. destruct (decide (n = other)); [reflexivity|].
    destruct (list_find _ (filter _ rest)) as [[k c]|],
      (list_find _ rest) as [[k' c']|]; simpl in *; congruence.
  - assert (n = node) as -> by (destruct (decide (n = node)); tauto).
    rewrite decide_False by congruence.
    destruct (list_find _ (filter _ rest)) as [[k c]|],
      (list_find _ rest) as [[k' c']|]; simpl in *; congruence.
Qed.

(** X12: registering and releasing an element.  [measureElement] on a node
    asks the observer to watch it and binds it to the item, whatever it was
    bound to before; the handle it returns unbinds exactly that node and
    asks the observer to stop; a second call of the handle does nothing and
    a resize report that arrives after the release is ignored.  Apart from
    the registrations the engine is as before. *)
Theorem register_then_release (env : Env) (v : Virtualizer) (node : Node)
    (itemId : string) (entry : option ResizeObserverEntry) :
  let registered := measureElement env v (Some node) itemId in
  let released := releaseElement registered.1 node in
  registered.2 = [Observe node]
  ∧ cells_get (_cells registered.1) node = Some itemId
  ∧ released.2 = [UnObserve node]
  ∧ cells_get (_cells released.1) node = None
  ∧ (∀ other, other ≠ node →
       cells_get (_cells released.1) other = cells_get (_cells v) other)
  ∧ set_cells (_cells v) released.1 = v
  ∧ releaseElement released.1 node = (released.1, [])
  ∧ _measureElement env released.1 node entry = (released.1, []).
Proof.
  cbv zeta. unfold measureElement, _measureElement. simpl.
  rewrite cells_get_set. simpl.
  unfold releaseElement. simpl. rewrite cells_get_set. simpl.
  rewrite cells_get_delete.
  split; [reflexivity|]. split; [reflexivity|]. split; [reflexivity|].
  split; [reflexivity|]. split.
  { intros other Hne. rewrite cells_get_delete_ne, cells_get_set_ne
      by exact Hne. reflexivity. }
  split; [destruct v; reflexivity|]. split; reflexivity.
Qed.

(** ** Resize reports *)

Lemma Qfloor_Qc_of_Z (z : Z) : Qfloor (Qc_of_Z z) = z.
Proof. rewrite (Qfloor_comp _ _ (this_Qc_of_Z z)). apply Qfloor_Z. Qed.

Lemma floor_idempotent (x : number) : floor (floor x) = floor x.
Proof.
  destruct x as [| | |q]; try reflexivity.
  unfold floor. rewrite Qfloor_Qc_of_Z. reflexivity.
Qed.

Lemma strict_eq_refl (x : number) : x ≠ NaN → strict_eq x x = true.
Proof.
  intros Hx. destruct x; try contradiction; unfold strict_eq;
    apply bool_decide_eq_true_2; reflexivity.
Qed.

Lemma strict_eq_false (x y : number) : x ≠ y → strict_eq x y = false.
Proof.
  intros Hne. destruct (strict_eq x y) eqn:H; [|reflexivity].
  apply strict_eq_true in H. contradiction.
Qed.

(** X13: resize reports count in whole pixels.  For a registered element
    and a report that is not negative, the report is ignored when it and
    the recorded height agree after [Math.floor], and is otherwise taken in
    floored: the test of [_handleHeightChanged] never stops a report that
    [_measureElement] lets through. *)
Theorem resize_report_in_whole_pixels (env : Env) (v : Virtualizer)
    (node : Node) (itemId : string) (raw : number) :
  cells_get (_cells v) node = Some itemId →
  lt raw zero = false →
  let report :=
    _measureElement env v node (Some (mkEntryRO (Number raw))) in
  (∀ recorded,
     _heights v !! itemId = Some recorded →
     floor recorded = floor raw → raw ≠ NaN →
     report = (v, []))
  ∧ (∀ recorded,
       _heights v !! itemId = Some recorded →
       floor recorded ≠ floor raw →
       report = _updateItemHeight env v itemId (floor raw))
  ∧ (_heights v !! itemId = None →
     report = _updateItemHeight env v itemId (floor raw)).
Proof.
  intros Hcell Hraw. cbv zeta. unfold _measureElement.
  rewrite Hcell. simpl. rewrite Hraw.
  split; [|split].
  - intros recorded Hrec Hfloor Hnan. rewrite Hrec. simpl.
    rewrite <- Hfloor, <- Hfloor at 1.
    rewrite strict_eq_refl; [reflexivity|].
    rewrite Hfloor. destruct raw; try discriminate; congruence.
  - intros recorded Hrec Hfloor. rewrite Hrec. simpl.
    rewrite strict_eq_false by congruence. simpl.
    unfold _handleHeightChanged. rewrite Hrec. simpl.
    rewrite strict_eq_false; [reflexivity|].
    intros ->. apply Hfloor. apply floor_idempotent.
  - intros Hnone. rewrite Hnone. simpl.
    unfold _handleHeightChanged. rewrite Hnone. reflexivity.
Qed.

(** A report of 100.5 for an element recorded at 100 is ignored. *)
Lemma resize_report_in_whole_pixels_witness :
  let env := demoEnv (Number (of_Z 100)) in
  let raw := Fin (Q2Qc (201 # 2)) in
  (cells_get (_cells settledState) 0%nat = Some "1"
   ∧ lt raw zero = false)
  ∧ _measureElement env settledState 0%nat (Some (mkEntryRO (Number raw)))
    = (settledState, []).
Proof.
  cbv zeta.
  assert (H1 : cells_get (_cells settledState) 0%nat = Some "1")
    by reflexivity.
  assert (H2 : lt (Fin (Q2Qc (201 # 2))) zero = false) by reflexivity.
  assert (H3 : _heights settledState !! "1" = Some (of_Z 100))
    by by_evaluation.
  assert (H4 : floor (of_Z 100) = floor (Fin (Q2Qc (201 # 2))))
    by by_evaluation.
  assert (H5 : Fin (Q2Qc (201 # 2)) ≠ NaN) by discriminate.
  exact (conj (conj H1 H2)
           (proj1 (resize_report_in_whole_pixels
                     (demoEnv (Number (of_Z 100))) settledState 0%nat "1"
                     (Fin (Q2Qc (201 # 2))) H1 H2)
              (of_Z 100) H3 H4 H5)).
Defined.

(** ** The proximity zone manager *)

Section ZoneManagerRuns.

Context {C : Type}.

Implicit Types (entry : ZoneEntry C) (zones : list (ZoneEntry C)).

Lemma handleZone_repeat (p : Positioning.t) entry :
  handleZone p (handleZone p entry).1 = ((handleZone p entry).1, []).
Proof.
  unfold handleZone. simpl.
  destruct (condition (zone entry) _ _); simpl.
  - unfold calculateProximityTrigger. simpl.
    rewrite (bool_decide_eq_true_2 (Some _ = Some _)) by reflexivity.
    reflexivity.
  - reflexivity.
Qed.

Lemma handlePositioningUpdate_cons (p : Positioning.t) entry zones :
  handlePositioningUpdate (entry :: zones) p
  = ((handleZone p entry).1 :: (handlePositioningUpdate zones p).1,
     (handleZone p entry).2 ++ (handlePositioningUpdate zones p).2).
Proof.
  cbn [handlePositioningUpdate].
  destruct (handleZone p entry) as [e c].
  destruct (handlePositioningUpdate zones p) as [r c']. reflexivity.
Qed.

(** X14: a repeated positioning is quiet.  Handing the zone manager the
    positioning it has just handled calls no callback and leaves every
    zone's state as it is; an update never changes the zones themselves. *)
Theorem zone_manager_repeat_is_quiet (p : Positioning.t) zones :
  let updated := (handlePositioningUpdate zones p).1 in
  handlePositioningUpdate updated p = (updated, [])
  ∧ map zone updated = map zone zones.
Proof.
  cbv zeta. induction zones as [|entry zones [IH1 IH2]]; [split; reflexivity|].
  rewrite handlePositioningUpdate_cons. cbn [fst].
  rewrite handlePositioningUpdate_cons, handleZone_repeat, IH1.
  cbn [fst snd map]. rewrite IH2. split; reflexivity.
Qed.

(** X15: the first positioning of a new zone manager.  Every zone whose
    condition holds is called with the cause INITIAL_POSITION, in the order
    of the zone definitions, and no other zone is called. *)
Theorem zone_manager_first_update (p : Positioning.t)
    (zoneDefinitions : list (Zone C)) :
  (handlePositioningUpdate (ProximityZoneManager zoneDefinitions) p).2
  = map (λ z, (callback z, INITIAL_POSITION))
      (List.filter
         (λ z, condition z (Positioning.getForList p)
                 (Positioning.getForViewport p))
         zoneDefinitions).
Proof.
  induction zoneDefinitions as [|z rest IH]; [reflexivity|].
  unfold ProximityZoneManager in *. simpl map.
  rewrite handlePositioningUpdate_cons. cbn [snd]. rewrite IH.
  unfold handleZone. simpl.
  destruct (condition z _ _); reflexivity.
Qed.

End ZoneManagerRuns.

(** ** The first cycle *)



(** ** What the host is handed *)

Lemma itemMap_fold_is_Some (items : list ListItem.t)
    (m : gmap string ListItem.t) (k : string) :
  k ∈ ListItem.id <$> items ∨ is_Some (m !! k) →
  is_Some
    (foldl (λ map item, <[ListItem.id item := item]> map) m items !! k).
Proof.
  revert m. induction items as [|x items IH]; intros m H; simpl in *.
  - destruct H as [H|H]; [inversion H|exact H].
  - apply IH. destruct H as [H|H].
    + apply elem_of_cons in H as [->|H]; [|left; exact H].
      right. rewrite lookup_insert_eq. eexists. reflexivity.
    + right. destruct (decide (ListItem.id x = k)) as [->|Hne].
      * rewrite lookup_insert_eq. eexists. reflexivity.
      * rewrite lookup_insert_ne by exact Hne. exact H.
Qed.

Lemma NoDup_fmap_inj {A B} (f : A → B) (l : list A) (x y : A) :
  NoDup (f <$> l) → x ∈ l → y ∈ l → f x = f y → x = y.
Proof.
  induction l as [|a l IH]; intros Hnd Hx Hy Hf; [inversion Hx|].
  rewrite fmap_cons in Hnd. apply NoDup_cons in Hnd as [Hnotin Hnd].
  apply elem_of_cons in Hx as [->|Hx]; apply elem_of_cons in Hy as [->|Hy].
  - reflexivity.
  - exfalso. apply Hnotin. rewrite Hf. apply list_elem_of_fmap_2. exact Hy.
  - exfalso. apply Hnotin. rewrite <- Hf. apply list_elem_of_fmap_2. exact Hx.
  - apply IH; assumption.
Qed.

(** With unique ids the item map gives each item of the list for its id. *)
Lemma itemMap_lookup_item (v : Virtualizer) (it : ListItem.t) :
  NoDup (ListItem.id <$> _list v) → it ∈ _list v →
  _itemMap v !! ListItem.id it = Some it.
Proof.
  intros Hnd Hin.
  destruct (itemMap_fold_is_Some (_list v) ∅ (ListItem.id it)) as [it' Hit'].
  { left. apply list_elem_of_fmap_2. exact Hin. }
  fold (_itemMap v) in Hit'. rewrite Hit'. f_equal.
  destruct (itemMap_lookup _ _ _ Hit') as [Hin' Hid].
  eapply NoDup_fmap_inj; eassumption.
Qed.

Lemma finalRenderedItems_zip (v : Virtualizer) (items : list ListItem.t) :
  NoDup (ListItem.id <$> _list v) →
  Forall (λ it, it ∈ _list v) items →
  Anchor.itemId <$> _renderedItems v = ListItem.id <$> items →
  _finalRenderedItems v
  = zip_with (λ state it,
                mkFinal it (Anchor.offset state) (Anchor.visible state))
      (_renderedItems v) items.
Proof.
  intros Hnd. unfold _finalRenderedItems.
  generalize (_renderedItems v). intros states. revert items.
  induction states as [|state states IH]; intros items Hall Hids.
  - reflexivity.
  - destruct items as [|it items]; [discriminate|].
    rewrite !fmap_cons in Hids. injection Hids as Hid Hids.
    apply Forall_cons in Hall as [Hit Hall].
    simpl. rewrite Hid, (itemMap_lookup_item v it Hnd Hit).
    rewrite (IH items Hall Hids). reflexivity.
Qed.

Lemma zip_with_fst_fmap {A B C D} (f : A → B → C) (g : C → D)
    (h : A → D) (l : list A) (k : list B) :
  (∀ a b, g (f a b) = h a) → length l = length k →
  g <$> zip_with f l k = h <$> l.
Proof.
  intros Hg. revert k. induction l as [|a l IH]; intros [|b k] Hlen;
    try discriminate; [reflexivity|].
  simpl in *. rewrite Hg, IH by lia. reflexivity.
Qed.

Lemma zip_with_snd_fmap {A B C D} (f : A → B → C) (g : C → D)
    (h : B → D) (l : list A) (k : list B) :
  (∀ a b, g (f a b) = h b) → length l = length k →
  g <$> zip_with f l k = h <$> k.
Proof.
  intros Hg. revert k. induction l as [|a l IH]; intros [|b k] Hlen;
    try discriminate; [reflexivity|].
  simpl in *. rewrite Hg, IH by lia. reflexivity.
Qed.

(** X17: what the host renders after a cycle.  When the ids of the list
    are unique, the final rendered items after a cycle that projects are
    the items of the list in the range of the persisted slice, one for
    each rendered entry and none dropped, each with the offset and the
    visibility of its entry. *)
Theorem final_items_are_slice_of_list (env : Env) (v : Virtualizer) :
  NoDup (ListItem.id <$> _list v) →
  cycleProjects v = true →
  let v' := (_update env v).1 in
  let final := _getFinalRenderedItems v' in
  item <$> final = slice (_list v') (start (_slice v')) (end_ (_slice v'))
  ∧ final_offset <$> final = Anchor.offset <$> _renderedItems v'
  ∧ final_visible <$> final = Anchor.visible <$> _renderedItems v'.
Proof.
  intros Hnd Hproj. cbv zeta.
  destruct (update_renderedItems env v Hproj)
    as (anchor & _ & Hrend & _ & Hl & _).
  cbv zeta in *.
  set (v' := (_update env v).1) in *.
  set (items := slice (_list v') (start (_slice v')) (end_ (_slice v'))).
  assert (Hids : Anchor.itemId <$> _renderedItems v' = ListItem.id <$> items).
  { rewrite Hrend. unfold items. rewrite !fmap_slice. f_equal.
    rewrite getItemsWithPositions_place, placeItems_ids, Hl. reflexivity. }
  assert (Hlen : length (_renderedItems v') = length items).
  { rewrite <- (length_fmap Anchor.itemId), Hids, length_fmap. reflexivity. }
  unfold _getFinalRenderedItems.
  rewrite (finalRenderedItems_zip v' items).
  - split; [|split].
    + transitivity (id <$> items); [|apply list_fmap_id].
      apply zip_with_snd_fmap; [reflexivity|exact Hlen].
    + apply zip_with_fst_fmap; [reflexivity|exact Hlen].
    + apply zip_with_fst_fmap; [reflexivity|exact Hlen].
  - rewrite Hl. exact Hnd.
  - apply Forall_forall. intros it Hit. eapply slice_subset. exact Hit.
  - exact Hids.
Qed.

(** The settled engine hands the host all four items. *)
Lemma final_items_are_slice_of_list_witness :
  let v' := (_update (demoEnv (Number (of_Z 100))) settledState).1 in
  (NoDup (ListItem.id <$> _list settledState)
   ∧ cycleProjects settledState = true)
  ∧ item <$> _getFinalRenderedItems v'
    = slice (_list v') (start (_slice v')) (end_ (_slice v'))
  ∧ length (_getFinalRenderedItems v') = 4%nat.
Proof.
  cbv zeta.
  assert (H1 : NoDup (ListItem.id <$> _list settledState))
    by by_evaluation.
  assert (H2 : cycleProjects settledState = true) by reflexivity.
  assert (H3 : length (_getFinalRenderedItems
                         (_update (demoEnv (Number (of_Z 100)))
                            settledState).1) = 4%nat)
    by (vm_compute; reflexivity).
  exact (conj (conj H1 H2)
           (conj (proj1 (final_items_are_slice_of_list
                           (demoEnv (Number (of_Z 100))) settledState
                           H1 H2))
                 H3)).
Defined.

(** ** Every item in the buffered viewport is rendered *)






(** ** Rounding to device pixels *)

Lemma abs_Qceiling (q : Qc) : Z.abs (Qceiling q) ≤ Z.abs (Qnum q).
Proof.
  destruct q as [[n d] Hq]. unfold Qceiling, Qfloor.
  cbn [this Qnum Qden Qopp].
  assert (Hd : 0 < Z.pos d) by reflexivity.
  destruct (Z.le_gt_cases 0 (- n)) as [Hn|Hn].
  - pose proof (Z.div_pos (- n) (Z.pos d) Hn Hd).
    assert (- n / Z.pos d ≤ - n).
    { apply Z.div_le_upper_bound; [exact Hd|nia]. }
    lia.
  - assert (- n / Z.pos d < 0)
      by (apply Z.div_lt_upper_bound; [exact Hd|lia]).
    assert (- n ≤ - n / Z.pos d)
      by (apply Z.div_le_lower_bound; [exact Hd|nia]).
    lia.
Qed.

Lemma exact_ceiling (q : Qc) :
  Double.exact q = true → Double.exact (Qc_of_Z (Qceiling q)) = true.
Proof.
  intros Hq. apply exact_of_Z.
  unfold Double.exact in Hq.
  apply andb_prop in Hq as [Hq _]. apply andb_prop in Hq as [_ Hq].
  apply Z.ltb_lt in Hq. pose proof (abs_Qceiling q). lia.
Qed.

(** X19: rounding to the device pixel grid is monotone, and idempotent
    where it does not round in double precision.  For a positive finite
    device pixel ratio and two finite heights whose products with the
    ratio, and whose rounded-up products divided by the ratio, are doubles
    as they stand, the larger height never rounds to a smaller one, and a
    rounded height rounds to itself.  (At a ratio of 1 every height below
    [2^53] qualifies.  Where the product or the quotient is rounded, a
    rounded height need not round to itself:
    [roundToDevicePixelRatio_rounds_twice].) *)
Theorem rounding_monotone_idempotent (h1 h2 d : Qc) :
  (0 < d)%Qc → (h1 ≤ h2)%Qc →
  Double.exact (h1 * d) = true →
  Double.exact (h2 * d) = true →
  Double.exact (Qc_of_Z (Qceiling (h1 * d)%Qc) / d) = true →
  Double.exact (Qc_of_Z (Qceiling (h2 * d)%Qc) / d) = true →
  ∃ r1 r2,
    roundToDevicePixelRatio (Fin h1) (Fin d) = Fin r1
    ∧ roundToDevicePixelRatio (Fin h2) (Fin d) = Fin r2
    ∧ (r1 ≤ r2)%Qc
    ∧ roundToDevicePixelRatio (Fin r1) (Fin d) = Fin r1.
Proof.
  intros Hpos Hle Hm1 Hm2 Hq1 Hq2.
  assert (Hd : d ≠ 0%Qc).
  { intros ->. exact (Qclt_not_eq _ _ Hpos eq_refl). }
  rewrite (roundToDevicePixelRatio_exact h1 d Hd Hm1 Hq1).
  rewrite (roundToDevicePixelRatio_exact h2 d Hd Hm2 Hq2).
  eexists _, _. split; [reflexivity|]. split; [reflexivity|].
  assert (E : ∀ z, (Qc_of_Z z / d * d)%Qc = Qc_of_Z z)
    by (intros z; apply test_field; exact Hd).
  split.
  - apply Qcmult_lt_0_le_reg_r with d; [exact Hpos|].
    rewrite !E. unfold Qcle. rewrite !this_Qc_of_Z.
    rewrite <- Zle_Qle. apply Qceiling_resp_le.
    apply Qcmult_le_compat_r; [exact Hle|apply Qclt_le_weak; exact Hpos].
  - rewrite roundToDevicePixelRatio_exact; rewrite ?E, ?Qceiling_Qc_of_Z;
      [reflexivity|exact Hd|apply exact_ceiling; exact Hm1|exact Hq1].
Qed.

(** The heights 5.25 and 11 at a device pixel ratio of 2. *)
Lemma rounding_monotone_idempotent_witness :
  ((0 < Qc_of_Z 2)%Qc ∧ (Q2Qc (21 # 4) ≤ Qc_of_Z 11)%Qc
   ∧ Double.exact (Q2Qc (21 # 4) * Qc_of_Z 2) = true
   ∧ Double.exact (Qc_of_Z 11 * Qc_of_Z 2) = true
   ∧ Double.exact
       (Qc_of_Z (Qceiling (Q2Qc (21 # 4) * Qc_of_Z 2)%Qc) / Qc_of_Z 2)
     = true
   ∧ Double.exact
       (Qc_of_Z (Qceiling (Qc_of_Z 11 * Qc_of_Z 2)%Qc) / Qc_of_Z 2)
     = true)
  ∧ ∃ r1 r2,
      roundToDevicePixelRatio (Fin (Q2Qc (21 # 4))) (Fin (Qc_of_Z 2))
      = Fin r1
      ∧ roundToDevicePixelRatio (Fin (Qc_of_Z 11)) (Fin (Qc_of_Z 2)) = Fin r2
      ∧ (r1 ≤ r2)%Qc
      ∧ roundToDevicePixelRatio (Fin r1) (Fin (Qc_of_Z 2)) = Fin r1.
Proof.
  assert (H1 : (0 < Qc_of_Z 2)%Qc) by reflexivity.
  assert (H2 : (Q2Qc (21 # 4) ≤ Qc_of_Z 11)%Qc)
    by (vm_compute; discriminate).
  assert (H3 : Double.exact (Q2Qc (21 # 4) * Qc_of_Z 2) = true)
    by (vm_compute; reflexivity).
  assert (H4 : Double.exact (Qc_of_Z 11 * Qc_of_Z 2) = true)
    by (vm_compute; reflexivity).
  assert (H5 : Double.exact
                 (Qc_of_Z (Qceiling (Q2Qc (21 # 4) * Qc_of_Z 2)%Qc)
                  / Qc_of_Z 2) = true)
    by (vm_compute; reflexivity).
  assert (H6 : Double.exact
                 (Qc_of_Z (Qceiling (Qc_of_Z 11 * Qc_of_Z 2)%Qc)
                  / Qc_of_Z 2) = true)
    by (vm_compute; reflexivity).
  exact (conj (conj H1 (conj H2 (conj H3 (conj H4 (conj H5 H6)))))
           (rounding_monotone_idempotent _ _ _ H1 H2 H3 H4 H5 H6)).
Defined.

(** ** Rectangles *)

Lemma lt_self (x : number) : lt x x = false.
Proof.
  destruct x as [| | |q]; try reflexivity.
  simpl. apply bool_decide_eq_false_2.
  intros H. exact (Qclt_not_eq _ _ H eq_refl).
Qed.

(** X20: intersection of rectangles is symmetric and strict: a rectangle
    that ends where another starts does not intersect it, so that
    neighbours of a contiguous projection never intersect; and a
    translation moves the top by the offset and keeps the height. *)
Theorem rectangle_intersection_symmetric (r o : Rectangle.t) (d : number) :
  Rectangle.doesIntersectWith r o = Rectangle.doesIntersectWith o r
  ∧ (Rectangle.getBottom r = Rectangle.getTop o →
     Rectangle.doesIntersectWith r o = false)
  ∧ Rectangle.getTop (Rectangle.translateBy r d)
    = add (Rectangle.getTop r) d
  ∧ Rectangle.getHeight (Rectangle.translateBy r d)
    = Rectangle.getHeight r
  ∧ ∀ (allItems : list Anchor.t) (i : nat) (a b : Anchor.t),
      tiles allItems →
      allItems !! i = Some a →
      allItems !! S i = Some b →
      Rectangle.doesIntersectWith (Anchor.getRectInViewport a)
        (Anchor.getRectInViewport b)
      = false.
Proof.
  assert (Htouch : ∀ r o : Rectangle.t,
            Rectangle.getBottom r = Rectangle.getTop o →
            Rectangle.doesIntersectWith r o = false).
  { intros r' o' Heq. unfold Rectangle.doesIntersectWith, gt.
    rewrite Heq, lt_self. reflexivity. }
  split; [unfold Rectangle.doesIntersectWith, gt; apply andb_comm|].
  split; [apply Htouch|]. split; [reflexivity|]. split; [reflexivity|].
  intros allItems i a b Htiles Ha Hb. apply Htouch.
  symmetry. exact (Htiles i a b Ha Hb).
Qed.

(** ** Scrolling and its end *)



(** ** The earlier variant of the engine *)








(** X23: the earlier variant takes a resize report as it comes.  For an
    element registered under an id that is not empty, a reported height
    that differs from the recorded one is handed on unchanged, negative or
    fractional as it may be; a report for an element that is not
    registered, or registered under the empty id, is ignored. *)
Theorem legacy_resize_report_unguarded (env : Env) (v : Virtualizer)
    (node : Node) (height : number) :
  (∀ itemId,
     cells_get (_cells v) node = Some itemId → itemId ≠ EmptyString →
     _heights v !! itemId ≠ Some height ∨ height = NaN →
     Legacy._measureElement env v node (Some height)
     = Legacy._updateItemHeight env v itemId height)
  ∧ (cells_get (_cells v) node = None
     ∨ cells_get (_cells v) node = Some EmptyString →
     Legacy._measureElement env v node (Some height) = (v, [])).
Proof.
  unfold Legacy._measureElement, Legacy._handleHeightChanged. split.
  - intros itemId -> Hne Hdiff.
    rewrite bool_decide_eq_false_2 by exact Hne.
    assert (Hs : strict_eq_opt (_heights v !! itemId) (Some height) = false).
    { destruct (_heights v !! itemId) as [recorded|]; [|reflexivity].
      simpl. destruct Hdiff as [Hdiff| ->].
      - apply strict_eq_false. congruence.
      - destruct recorded; try reflexivity; simpl;
          apply bool_decide_eq_false_2; discriminate. }
    rewrite Hs. reflexivity.
  - intros [-> | ->]; reflexivity.
Qed.

(** ** The edge conditions *)

Lemma le_Fin_weaken_r (x : number) (a b : Qc) :
  (a ≤ b)%Qc → le x (Fin a) = true → le x (Fin b) = true.
Proof.
  intros Hab. unfold le. rewrite !orb_true_iff.
  destruct x as [| | |c]; simpl; rewrite ?bool_decide_eq_true;
    intros [H|H]; try discriminate; try (left; reflexivity).
  - left. qc_lra.
  - injection H as ->. destruct (Qcle_lt_or_eq _ _ Hab) as [Hlt| ->].
    + left. exact Hlt.
    + right. reflexivity.
Qed.

(** X24: the edge zones are nested.  For a viewport of finite height, a
    position that is within a fixed threshold of the top of the list is
    also within the ratio zone of the top whenever the threshold is at
    most the viewport height times the ratio, and likewise at the bottom:
    with the default ratios the start and end zones lie inside the
    near-start and near-end zones for every viewport at least 20 high. *)
Theorem edge_zones_nested (threshold ratio h : Qc)
    (listRect viewportRect : Rectangle.t) :
  Rectangle.getHeight viewportRect = Fin h →
  (threshold ≤ h * ratio)%Qc →
  (isNearTop (Fin threshold) listRect viewportRect = true →
   isNearTopRatio (Fin ratio) listRect viewportRect = true)
  ∧ (isNearBottom (Fin threshold) listRect viewportRect = true →
     isNearBottomRatio (Fin ratio) listRect viewportRect = true).
Proof.
  intros Hh Hle. unfold isNearTop, isNearTopRatio, isNearBottom,
    isNearBottomRatio.
  rewrite Hh. simpl. split; apply le_Fin_weaken_r; exact Hle.
Qed.

(** A viewport of height 100 at the top of a list of height 400: the
    threshold 5 against the ratio 0.25. *)
Lemma edge_zones_nested_witness :
  let listRect := Rectangle.make zero (of_Z 400) in
  let viewportRect := Rectangle.make zero (of_Z 100) in
  (Rectangle.getHeight viewportRect = Fin (Qc_of_Z 100)
   ∧ (Qc_of_Z 5 ≤ Qc_of_Z 100 * Q2Qc (1 # 4))%Qc
   ∧ isNearTop (Fin (Qc_of_Z 5)) listRect viewportRect = true)
  ∧ isNearTopRatio (Fin (Q2Qc (1 # 4))) listRect viewportRect = true.
Proof.
  cbv zeta.
  assert (H1 : Rectangle.getHeight (Rectangle.make zero (of_Z 100))
               = Fin (Qc_of_Z 100)) by reflexivity.
  assert (H2 : (Qc_of_Z 5 ≤ Qc_of_Z 100 * Q2Qc (1 # 4))%Qc)
    by (vm_compute; discriminate).
  assert (H3 : isNearTop (Fin (Qc_of_Z 5)) (Rectangle.make zero (of_Z 400))
                 (Rectangle.make zero (of_Z 100)) = true)
    by (vm_compute; reflexivity).
  exact (conj (conj H1 (conj H2 H3))
           (proj1 (edge_zones_nested _ _ _ _ _ H1 H2) H3)).
Defined.
